(** * Verification of diskprep.py / disk_puri.py

    A shallow embedding of the pass-execution engine of the two scripts
    (they share [cleanup], [stream_source], [path_source], [perform_pass]
    and, up to the printing of progress lines and the [KeyboardInterrupt]
    handler, [execute_command]).  The Python process is modelled as a
    state-and-exception monad over a [world] holding the filesystem, the
    global [temp_files] list and a trace of observable events (printed
    text, spawned processes, terminations, removals). *)

From Stdlib Require Import ZArith NArith Ascii String List Lia.
From stdpp Require Import base gmap strings list.
Import ListNotations.
Open Scope string_scope.

(* ------------------------------------------------------------------ *)
(** ** Files and the world *)

(** A file body is a list of chunks [(unit, k)]: [unit] written [k] times in
    a row.  This is how the scripts write their temp files
    ([b"\xFF" * (1024*1024*256)], [content.encode() * n]) and keeps the
    256 MiB buffers symbolic. *)
Definition chunk : Type := list Z * N.
Definition blob : Type := list chunk.

Fixpoint repeat_N {A} (u : list A) (k : nat) : list A :=
  match k with O => [] | S k' => u ++ repeat_N u k' end.

Definition blob_bytes (b : blob) : list Z :=
  concat (map (fun c => repeat_N (fst c) (N.to_nat (snd c))) b).

Definition blob_size (b : blob) : N :=
  fold_right (fun c acc => N.of_nat (length (fst c)) * snd c + acc)%N 0%N b.

(** Observable events of the Python process. *)
Inductive event : Type :=
  | Out (s : string)                 (* text written to stdout *)
  | Spawn (argv : list string)       (* subprocess.Popen *)
  | Terminate (argv : list string)   (* process.terminate() *)
  | Wait (argv : list string) (code : Z)  (* process.wait() *)
  | Removed (path : string).         (* os.remove *)

Record world : Type := mkWorld {
  files : gmap string blob;      (* the filesystem: path -> contents *)
  temp_files : list string;      (* the module-level list [temp_files] *)
  trace : list event;            (* what the process has done so far *)
  sigint : option nat            (* a pending Ctrl+C: delivered after this
                                    many more primitive steps *)
}.

(** Python exceptions that the modelled code can raise. *)
Inductive exn : Type :=
  | ZeroDivisionError
  | UnboundLocalError (var : string)
  | AttributeError
  | TypeError
  | CalledProcessError (stderr : string)
  | SystemExit (code : Z)
  | EOFError
  | ValueError (msg : string).

Inductive outcome (A : Type) : Type :=
  | Ok (a : A)
  | Exc (e : exn).
Arguments Ok {A} a.
Arguments Exc {A} e.

(** The state-and-exception monad. *)
Definition PyM (A : Type) : Type := world -> world * outcome A.

Definition ret {A} (a : A) : PyM A := fun w => (w, Ok a).
Definition raise {A} (e : exn) : PyM A := fun w => (w, Exc e).
Definition bind {A B} (m : PyM A) (k : A -> PyM B) : PyM B :=
  fun w => match m w with
           | (w', Ok a) => k a w'
           | (w', Exc e) => (w', Exc e)
           end.
(** [try: m except e if handles e: h e] *)
Definition try_except {A} (m : PyM A) (handles : exn -> bool)
    (h : exn -> PyM A) : PyM A :=
  fun w => match m w with
           | (w', Exc e) => if handles e then h e w' else (w', Exc e)
           | r => r
           end.

#[global] Instance PyM_ret : MRet PyM := @ret.
#[global] Instance PyM_bind : MBind PyM := fun A B k m => bind m k.

(** *** Primitive steps, before signal delivery *)

Definition emit_raw (e : event) : PyM unit :=
  fun w => (mkWorld (files w) (temp_files w) (trace w ++ [e]) (sigint w), Ok tt).
(** [os.path.isfile(path)] *)
Definition isfile_raw (p : string) : PyM bool :=
  fun w => (w, Ok (bool_decide (is_Some (files w !! p)))).
(** Writing a whole file ([with open(p, "wb") as f: f.write(...)]). *)
Definition write_file_raw (p : string) (b : blob) : PyM unit :=
  fun w => (mkWorld (<[p := b]> (files w)) (temp_files w) (trace w) (sigint w), Ok tt).
(** One more [f.write(...)] on an open file. *)
Definition append_file_raw (p : string) (c : chunk) : PyM unit :=
  fun w => (mkWorld (<[p := (default [] (files w !! p) ++ [c])%list]> (files w))
                    (temp_files w) (trace w) (sigint w), Ok tt).
(** [os.remove(p)] *)
Definition remove_raw (p : string) : PyM unit :=
  fun w => (mkWorld (delete p (files w)) (temp_files w) (trace w ++ [Removed p]) (sigint w),
            Ok tt).
(** [temp_files.append(p)] *)
Definition register_temp_raw (p : string) : PyM unit :=
  fun w => (mkWorld (files w) (temp_files w ++ [p]) (trace w) (sigint w), Ok tt).
Definition get_temp_files : PyM (list string) := fun w => (w, Ok (temp_files w)).

(** *** The SIGINT handler *)

Fixpoint remove_temp_files (l : list string) : PyM unit :=
  match l with
  | [] => mret ()
  | t :: rest =>
      e ← isfile_raw t;
      (if (e : bool) then remove_raw t else mret tt : PyM unit);;
      remove_temp_files rest
  end.

Definition interrupted_msg : string := String "010" "Process interrupted. Exiting.".

(** [cleanup(signum, frame)], registered with [signal.signal(SIGINT, cleanup)]. *)
Definition cleanup {A} : PyM A :=
  tf ← get_temp_files;
  remove_temp_files tf;;
  emit_raw (Out interrupted_msg);;
  raise (SystemExit 0%Z).

(** *** Primitive steps with signal delivery

    The interpreter runs a Python-level signal handler in the main thread
    between two steps of the program.  A primitive step first delivers a
    pending SIGINT whose delay has run out: the handler [cleanup] then runs
    in place of the step (the signal is consumed), and its [SystemExit]
    propagates from there. *)
Definition interruptible {A} (m : PyM A) : PyM A :=
  fun w =>
    match sigint w with
    | Some O => cleanup (mkWorld (files w) (temp_files w) (trace w) None)
    | Some (S n) => m (mkWorld (files w) (temp_files w) (trace w) (Some n))
    | None => m w
    end.

Definition emit (e : event) : PyM unit := interruptible (emit_raw e).
Definition print (s : string) : PyM unit := emit (Out s).
Definition isfile (p : string) : PyM bool := interruptible (isfile_raw p).
Definition write_file (p : string) (b : blob) : PyM unit :=
  interruptible (write_file_raw p b).
Definition append_file (p : string) (c : chunk) : PyM unit :=
  interruptible (append_file_raw p c).
Definition register_temp (p : string) : PyM unit :=
  interruptible (register_temp_raw p).

(** Reading a local variable: [None] is a variable no branch assigned, and
    reading it raises [UnboundLocalError]. *)
Definition local_get {A} (var : string) (v : option A) : PyM A :=
  match v with Some a => mret a | None => raise (UnboundLocalError var) end.

(* ------------------------------------------------------------------ *)
(** ** Python values used by the scripts *)

(** Truthiness of [count] / [content] values ([None] or a [str]). *)
Definition truthy (o : option string) : bool :=
  match o with Some s => negb (String.eqb s "") | None => false end.

(** [f"{x}"] for a value that is [None] or a [str]. *)
Definition pystr (o : option string) : string :=
  match o with Some s => s | None => "None" end.

(** [s.encode()] (UTF-8) for a [str] of code points U+0000..U+00FF, one
    per character: one byte below 128, two bytes from 128 on. *)
Definition encode (s : string) : list Z :=
  flat_map (fun a =>
    let n := Z.of_nat (nat_of_ascii a) in
    if (n <? 128)%Z then [n]
    else [Z.lor 192 (Z.shiftr n 6); Z.lor 128 (Z.land n 63)])
    (list_ascii_of_string s).

(** [needle in hay] for [str]. *)
Fixpoint contains (needle hay : string) : bool :=
  String.prefix needle hay ||
  match hay with EmptyString => false | String _ t => contains needle t end.

Definition ascii_upper (a : ascii) : ascii :=
  let n := nat_of_ascii a in
  if ((97 <=? n) && (n <=? 122))%nat then ascii_of_nat (n - 32)%nat else a.
Definition ascii_lower (a : ascii) : ascii :=
  let n := nat_of_ascii a in
  if ((65 <=? n) && (n <=? 90))%nat then ascii_of_nat (n + 32)%nat else a.
Fixpoint lower (s : string) : string :=
  match s with EmptyString => EmptyString | String a t => String (ascii_lower a) (lower t) end.
(** [s.capitalize()] *)
Definition capitalize (s : string) : string :=
  match s with EmptyString => EmptyString | String a t => String (ascii_upper a) (lower t) end.

(** [str(i)] for a non-negative [int]. *)
Fixpoint digits_aux (fuel n : nat) (acc : string) : string :=
  match fuel with
  | O => acc
  | S f => let acc' := String (ascii_of_nat (48 + n mod 10)%nat) acc in
           if (n <? 10)%nat then acc' else digits_aux f (n / 10)%nat acc'
  end.
Definition nat_str (n : nat) : string := digits_aux (S n) n "".

(** A pass as built by [configure_passes]:
    [{"type": ..., "content": ..., "block_size": ..., "count": ...}]. *)
Record pass_info : Type := mkPass {
  p_type : string;
  p_content : option string;
  p_block_size : string;
  p_count : option string
}.

(* ------------------------------------------------------------------ *)
(** ** Command construction *)

(** [stream_source(pass_type, device, block_size, count=None)] *)
Definition stream_source (pass_type device block_size : string)
    (count : option string) : PyM string :=
  let command :=
    if String.eqb pass_type "random" then
      Some ("dd if=/dev/urandom of=" ++ device ++ " bs=" ++ block_size ++ " status=progress")
    else if String.eqb pass_type "zeros" then
      Some ("dd if=/dev/zero of=" ++ device ++ " bs=" ++ block_size ++ " status=progress")
    else None in
  command ← (if truthy count then
                c ← local_get "command" command;
                mret (Some (c ++ " count=" ++ pystr count))
              else mret command);
  local_get "command" command.

Definition ones_tmp : string := "ones_source.tmp".
Definition string_tmp : string := "string_source.tmp".

(** [b"\xFF" * (1024 * 1024 * 256)] *)
Definition ones_blob : blob := [([255%Z], (1024 * 1024 * 256)%N)].

(** [content.encode() * (1024 * 1024 // len(content))]; the operands are
    evaluated left to right, so [None] fails on [.encode] first. *)
Definition string_chunk (content : option string) : PyM chunk :=
  match content with
  | None => raise AttributeError
  | Some c =>
      if Nat.eqb (String.length c) 0%nat then raise ZeroDivisionError
      else mret (encode c, (1024 * 1024 / N.of_nat (String.length c))%N)
  end.

(** [for _ in range(n): f.write(...)] *)
Fixpoint write_string_chunks (p : string) (n : nat) (content : option string)
    : PyM unit :=
  match n with
  | O => mret ()
  | S n' => ch ← string_chunk content; append_file p ch;; write_string_chunks p n' content
  end.

(** [os.path.isfile(temp_file)] where [temp_file] may be [None]. *)
Definition isfile_opt (p : option string) : PyM bool :=
  match p with Some s => isfile s | None => raise TypeError end.

(** [path_source(pass_type, device, block_size, count=None, content=None)].
    The result is [None] for the early [return None] of the file branch,
    and [Some command] otherwise. *)
Definition path_source (pass_type device block_size : string)
    (count content : option string) : PyM (option string) :=
  temp_file ←
    (if String.eqb pass_type "ones" then
       e ← isfile ones_tmp;
       (if negb e then write_file ones_tmp ones_blob else mret ());;
       register_temp ones_tmp;;
       mret (Some (Some ones_tmp))
     else if String.eqb pass_type "string" then
       e ← isfile string_tmp;
       (if negb e then write_file string_tmp [];; write_string_chunks string_tmp 256 content
        else mret ());;
       register_temp string_tmp;;
       mret (Some (Some string_tmp))
     else if String.eqb pass_type "file" then
       e ← isfile_opt content;
       if negb e then
         print ("Error: File not found at " ++ pystr content ++ ". Skipping this pass.");;
         mret None
       else mret (Some content)
     else mret (Some None));
  match temp_file with
  | None => mret None
  | Some tf =>
      if truthy count then
        mret (Some ("dd if=" ++ pystr tf ++ " of=" ++ device ++ " bs=" ++ block_size ++
                    " count=" ++ pystr count ++ " status=progress"))
      else
        mret (Some ("while :; do cat " ++ pystr tf ++ "; done | dd of=" ++ device ++
                    " bs=" ++ block_size ++ " status=progress"))
  end.

(* ------------------------------------------------------------------ *)
(** ** Running the writer *)

(** The device-full marker searched for in dd's diagnostics. *)
Definition no_space_marker : string := "No space left on device".

(** [subprocess.Popen(command, shell=True, ...)] on POSIX runs
    [["/bin/sh", "-c", command]]. *)
Definition sh_argv (command : string) : list string := ["/bin/sh"; "-c"; command].

Definition disk_full_msg : string := String "010" "Disk full; moving to the next pass.".

Section Writer.

(** The behaviour of the spawned process, decided by the environment: the
    lines it writes on stderr up to its end and its exit status, per
    argument vector.  A run whose stderr never reaches its end (the feed
    loop of an endless [while :; do cat ...] pipeline after dd has exited
    without the marker) blocks the read loop forever; it has no answer
    here, and the theorems that say a run ends assume [writer_ends]. *)
Variable writer : list string -> list string * Z.

(** The [for line in ...: ... break] loop of [execute_command]
    (diskprep.py echoes [f"\r{line}"], disk_puri.py [line]). *)
Fixpoint drain (argv : list string) (lines : list string) : PyM unit :=
  match lines with
  | [] => mret ()
  | line :: rest =>
      if contains no_space_marker line then
        print disk_full_msg;; emit (Terminate argv)
      else
        print (String "013" line);; drain argv rest
  end.

Definition is_called_process_error (e : exn) : bool :=
  match e with CalledProcessError _ => true | _ => false end.

(** [execute_command(command)].  The [except KeyboardInterrupt] clause of
    diskprep.py is not modelled: the SIGINT handler [cleanup] installed at
    import replaces the default handler, so no [KeyboardInterrupt] arises
    from Ctrl+C. *)
Definition execute_command (command : string) : PyM unit :=
  try_except
    (let argv := sh_argv command in
     emit (Spawn argv);;
     let '(lines, code) := writer argv in
     drain argv lines;;
     emit (Wait argv code))
    is_called_process_error
    (fun e =>
       match e with
       | CalledProcessError err =>
           if contains no_space_marker err then print "Disk full; moving to the next pass."
           else print ("Unexpected error: " ++ err);; raise e
       | _ => raise e
       end).

(** The "Build the command based on pass type" block of [perform_pass]:
    [None] when no branch assigns [command]. *)
Definition pass_command (pi : pass_info) (device : string)
    : PyM (option (option string)) :=
  let pass_type := p_type pi in
  let block_size := p_block_size pi in
  let count := p_count pi in
  let content := p_content pi in
  if bool_decide (pass_type ∈ ["random"; "zeros"]) then
    c ← stream_source pass_type device block_size count; mret (Some (Some c))
  else if bool_decide (pass_type ∈ ["ones"; "string"; "file"]) then
    c ← path_source pass_type device block_size count content; mret (Some c)
  else mret None.

(** [perform_pass(pass_info, device)] *)
Definition perform_pass (pi : pass_info) (device : string) : PyM unit :=
  command ← pass_command pi device;
  command ← local_get "command" command;
  if truthy command then execute_command (pystr command) else mret ().

Definition running_msg (i : nat) (pi : pass_info) : string :=
  "Running Pass " ++ nat_str i ++ ": Type: " ++ capitalize (p_type pi) ++
  ", Block Size: " ++ p_block_size pi ++ ", Count: " ++
  (if truthy (p_count pi) then pystr (p_count pi) else "until full").

(** The [for i, pass_info in enumerate(passes, start=1)] loop of [main]. *)
Fixpoint run_passes (i : nat) (passes : list pass_info) (device : string)
    : PyM unit :=
  match passes with
  | [] => mret ()
  | pi :: rest =>
      print (running_msg i pi);; perform_pass pi device;; run_passes (S i) rest device
  end.

(** [main] of diskprep.py after the schema is confirmed (also one iteration
    of disk_puri.py's [while True] loop with [loop_mode] false). *)
Definition run_schema (passes : list pass_info) (device : string) : PyM unit :=
  run_passes 1 passes device;; print "Disk preparation completed.".

End Writer.

(** The exit status of the interpreter for the outcome of the program:
    [sys.exit(c)] exits with [c], another uncaught exception with 1. *)
Definition exit_status {A} (o : outcome A) : Z :=
  match o with
  | Ok _ => 0%Z
  | Exc (SystemExit c) => c
  | Exc _ => 1%Z
  end.

(* ------------------------------------------------------------------ *)
(** ** Standard input and the interactive parts of the scripts *)

(** Python's [str.isspace] on the code points U+0000 to U+00FF that the
    [ascii] type covers. *)
Definition py_space (a : ascii) : bool :=
  let n := nat_of_ascii a in
  ((9 <=? n) && (n <=? 13) || (28 <=? n) && (n <=? 32) || (n =? 133) || (n =? 160))%nat.

Fixpoint lstrip (s : string) : string :=
  match s with
  | EmptyString => EmptyString
  | String a t => if py_space a then lstrip t else s
  end.

Fixpoint rstrip (s : string) : string :=
  match s with
  | EmptyString => EmptyString
  | String a t =>
      let t' := rstrip t in
      if py_space a && String.eqb t' "" then "" else String a t'
  end.

(** [s.strip()] *)
Definition strip (s : string) : string := rstrip (lstrip s).

(** [s.split()]: the maximal runs of non-whitespace characters. *)
Fixpoint split_ws (s : string) : list string :=
  match s with
  | EmptyString => [""]
  | String a t =>
      if py_space a then "" :: split_ws t
      else match split_ws t with
           | [] => [String a ""]
           | x :: xs => String a x :: xs
           end
  end.
Definition py_split (s : string) : list string :=
  List.filter (fun x => negb (String.eqb x "")) (split_ws s).

Definition nl : string := String "010" "".

(** Code that also reads standard input: the lines not yet read are passed
    along. *)
Definition IO (A : Type) : Type := list string -> PyM (A * list string).

Definition io_ret {A} (a : A) : IO A := fun inp => mret (a, inp).
Definition io_bind {A B} (m : IO A) (k : A -> IO B) : IO B :=
  fun inp => p ← m inp; k (fst p) (snd p).
#[global] Instance IO_ret : MRet IO := @io_ret.
#[global] Instance IO_bind : MBind IO := fun A B k m => io_bind m k.

(** A step that does not read standard input. *)
Definition lift {A} (m : PyM A) : IO A := fun inp => x ← m; mret (x, inp).

(** [input(prompt)]: the prompt is written to stdout, then one line is read;
    at the end of input [EOFError] is raised. *)
Definition input (prompt : string) : IO string :=
  fun inp =>
    print prompt;;
    match inp with
    | [] => raise EOFError
    | l :: rest => mret (l, rest)
    end.

(** [clear_terminal()] of disk_puri.py on POSIX: [os.system('clear')]. *)
Definition clear_terminal : PyM unit := emit (Spawn (sh_argv "clear")).

(** The menu printed at the top of each round of [configure_passes]. *)
Definition pass_menu (header : string) : PyM unit :=
  print header;;
  print "  (r)andom - Writes random data to the disk";;
  print "  (z)eros  - Writes zeros to the disk";;
  print "  (o)nes   - Writes binary ones (0xFF) to the disk";;
  print "  (s)tring - Repeats a specified text string across the disk";;
  print "  (f)ile   - Repeats the contents of a file across the disk".

(** The [elif pass_type == "r": pass_type = "random"] chain. *)
Definition pass_type_of (choice : string) : option string :=
  if String.eqb choice "r" then Some "random"
  else if String.eqb choice "z" then Some "zeros"
  else if String.eqb choice "o" then Some "ones"
  else if String.eqb choice "s" then Some "string"
  else if String.eqb choice "f" then Some "file"
  else None.

(** The "Prompt for content if necessary" block: [None] is its [continue]. *)
Definition read_content (pass_type : string) : IO (option (option string)) :=
  if String.eqb pass_type "string" then
    s ← input "Enter the string to fill the disk with: ";
    mret (Some (Some (strip s)))
  else if String.eqb pass_type "file" then
    s ← input "Enter the path to the source file: ";
    ok ← lift (isfile (strip s));
    if (ok : bool) then mret (Some (Some (strip s)))
    else lift (print "Invalid file path. Please enter a valid file.");; mret None
  else mret (Some None).

(** One line of the schema listing:
    [f"{i}. Type: {...}, Block Size: {...}{count_display}{content_display}"]. *)
Definition schema_line (i : nat) (p : pass_info) : PyM string :=
  content_display ←
    (if String.eqb (p_type p) "string" then
       match p_content p with
       | Some c => mret (" (String: " ++ substring 0 24 c ++ "...)")
       | None => raise TypeError
       end
     else if String.eqb (p_type p) "file" then mret (" (File: " ++ pystr (p_content p) ++ ")")
     else mret "");
  let count_display :=
    if truthy (p_count p) then ", Count: " ++ pystr (p_count p) else "" in
  mret (nat_str i ++ ". Type: " ++ capitalize (p_type p) ++ ", Block Size: " ++
        p_block_size p ++ count_display ++ content_display).

Fixpoint print_schema (i : nat) (passes : list pass_info) : PyM unit :=
  match passes with
  | [] => mret ()
  | p :: rest => line ← schema_line i p; print line;; print_schema (S i) rest
  end.

(** The [while True] loop of diskprep.py's [configure_passes].  Each round
    reads at least one line, so [S (length inp)] rounds are enough for the
    input [inp]; the fuel never runs out first. *)
Fixpoint configure_loop (fuel : nat) (passes : list pass_info) : IO (list pass_info) :=
  match fuel with
  | O => lift (raise EOFError)
  | S f =>
      lift (pass_menu "Available pass types:");;
      c ← input "Choose a pass type to add (r, z, o, s, f), or 'done' to finish: ";
      if String.eqb (lower (strip c)) "done" then mret passes
      else match pass_type_of (lower (strip c)) with
      | None =>
          lift (print "Invalid choice. Please enter one of the letters (r, z, o, s, f) or 'done' to finish.");;
          configure_loop f passes
      | Some pt =>
          content ← read_content pt;
          match content with
          | None => configure_loop f passes
          | Some content =>
              bs ← input "Enter block size (default 4M): ";
              cnt ← input "Enter count (leave blank to fill the disk): ";
              let block_size := if String.eqb (strip bs) "" then "4M" else strip bs in
              let count := if String.eqb (strip cnt) "" then None else Some (strip cnt) in
              let passes := (passes ++ [mkPass pt content block_size count])%list in
              lift (print (nl ++ "Current Pass Schema:");; print_schema 1 passes);;
              configure_loop f passes
          end
      end
  end.

(** [configure_passes()] of diskprep.py. *)
Definition configure_passes : IO (list pass_info) :=
  fun inp =>
    (lift (print ("Create your custom pass schema." ++ nl));;
     configure_loop (S (length inp)) []) inp.

(** [main()] of diskprep.py, with [os.geteuid()] = [euid]. *)
Definition main (writer : list string -> list string * Z) (euid : Z) : IO unit :=
  lift (print "Multi-Pass Disk Preparation Script");;
  if negb (Z.eqb euid 0) then
    lift (print "This script requires elevated privileges. Please run with sudo.";;
          raise (SystemExit 1))
  else
    device ← input (nl ++ "Enter the destination device (e.g., /dev/diskX): ");
    passes ← configure_passes;
    proceed ← input (nl ++ "Proceed with the above schema? (y/n): ");
    if negb (String.eqb (lower (strip proceed)) "y") then
      lift (print "Exiting without changes.";; raise (SystemExit 1))
    else lift (run_schema writer passes device).

(** *** disk_puri.py *)

(** disk_puri.py's [cleanup] (lines 9-18), [stream_source] (lines 24-34) and
    [path_source] (lines 36-67) are the same code as diskprep.py's (lines
    9-18 and 20-63); [cleanup], [stream_source], [path_source] and
    [pass_command] above stand for both files. *)

(** [block_size, count = <words> or ("1M", None)]: unpacking a list of
    other than two words raises [ValueError]. *)
Definition unpack_block_count (ws : list string) : PyM (string * option string) :=
  match ws with
  | [] => mret ("1M", None)
  | [_] => raise (ValueError "not enough values to unpack (expected 2, got 1)")
  | [b; c] => mret (b, Some c)
  | _ => raise (ValueError "too many values to unpack (expected 2)")
  end.

(** The [while True] loop of disk_puri.py's [configure_passes(device)];
    the result carries [pass_type == "loop"]. *)
Fixpoint configure_loop_p (device : string) (fuel : nat) (passes : list pass_info)
    : IO (list pass_info * bool) :=
  match fuel with
  | O => lift (raise EOFError)
  | S f =>
      lift (pass_menu (nl ++ "Available pass types:"));;
      c ← input (nl ++ "Choose a pass type to add (r, z, o, s, f), or type 'start' to execute once, or 'loop' to repeat: ");
      if String.eqb (lower (strip c)) "start" || String.eqb (lower (strip c)) "loop" then
        mret (passes, String.eqb (lower (strip c)) "loop")
      else match pass_type_of (lower (strip c)) with
      | None =>
          lift (print "Invalid choice. Please enter one of the letters (r, z, o, s, f) or 'start'/'loop' to proceed.");;
          configure_loop_p device f passes
      | Some pt =>
          content ← read_content pt;
          match content with
          | None => configure_loop_p device f passes
          | Some content =>
              l ← input "Enter block size and count separated by a space (or press Enter for default 1M block size and fill disk): ";
              bc ← lift (unpack_block_count (py_split (strip l)));
              let passes := (passes ++ [mkPass pt content (fst bc) (snd bc)])%list in
              lift (clear_terminal;;
                    print (nl ++ "Current Pass Schema for drive: " ++ device);;
                    print_schema 1 passes);;
              configure_loop_p device f passes
          end
      end
  end.

(** [configure_passes(device)] of disk_puri.py. *)
Definition configure_passes_p (device : string) : IO (list pass_info * bool) :=
  fun inp =>
    (lift (clear_terminal;;
           print ("Create your custom pass schema for drive: " ++ device ++ nl));;
     configure_loop_p device (S (length inp)) []) inp.

Section WriterP.

(** As in [Writer]: the stderr lines of a run that ends, and its status. *)
Variable writer : list string -> list string * Z.

(** disk_puri.py's [for line in process.stderr: ... print(line, end='')]. *)
Fixpoint drain_p (argv : list string) (lines : list string) : PyM unit :=
  match lines with
  | [] => mret ()
  | line :: rest =>
      if contains no_space_marker line then
        print disk_full_msg;; emit (Terminate argv)
      else
        print line;; drain_p argv rest
  end.

(** [execute_command(command)] of disk_puri.py. *)
Definition execute_command_p (command : string) : PyM unit :=
  try_except
    (let argv := sh_argv command in
     emit (Spawn argv);;
     let '(lines, code) := writer argv in
     drain_p argv lines;;
     emit (Wait argv code))
    is_called_process_error
    (fun e =>
       match e with
       | CalledProcessError err =>
           if contains no_space_marker err then print "Disk full; moving to the next pass."
           else print ("Unexpected error: " ++ err);; raise e
       | _ => raise e
       end).

(** [perform_pass(pass_info, device)] of disk_puri.py. *)
Definition perform_pass_p (pi : pass_info) (device : string) : PyM unit :=
  command ← pass_command pi device;
  command ← local_get "command" command;
  if truthy command then execute_command_p (pystr command) else mret ().

(** The [for i, pass_info in enumerate(passes, start=1)] loop of
    disk_puri.py's [main]. *)
Fixpoint run_passes_p (i : nat) (passes : list pass_info) (device : string) : PyM unit :=
  match passes with
  | [] => mret ()
  | pi :: rest =>
      print (nl ++ running_msg i pi);; perform_pass_p pi device;; run_passes_p (S i) rest device
  end.

(** The first [rounds] rounds of disk_puri.py's [while True] loop over the
    schema: [true] once it has left the loop through [break], [false] while
    it is still running. *)
Fixpoint run_rounds (rounds : nat) (passes : list pass_info) (device : string)
    (loop_mode : bool) : PyM bool :=
  match rounds with
  | O => mret false
  | S r =>
      run_passes_p 1 passes device;;
      if loop_mode then run_rounds r passes device loop_mode else mret true
  end.

End WriterP.

(** [main()] of disk_puri.py, with [os.geteuid()] = [euid], observed over
    the first [rounds] rounds of its pass loop. *)
Definition main_p (writer : list string -> list string * Z) (euid : Z) (rounds : nat)
    : IO unit :=
  lift (clear_terminal;; print ("Multi-Pass Disk Preparation Script" ++ nl));;
  if negb (Z.eqb euid 0) then
    lift (print "This script requires elevated privileges. Please run with sudo.";;
          raise (SystemExit 1))
  else
    device ← input "Enter the destination device (e.g., /dev/diskX): ";
    pl ← configure_passes_p (strip device);
    proceed ← input (nl ++ "Proceed with the above schema? (y/n): ");
    if negb (String.eqb (lower (strip proceed)) "y") then
      lift (print "Exiting without changes.";; raise (SystemExit 1))
    else
      finished ← lift (run_rounds writer rounds (fst pl) (strip device) (snd pl));
      if (finished : bool) then lift (print (nl ++ "Disk preparation completed.")) else mret ().

(* ------------------------------------------------------------------ *)
(** ** The environment: a fragment of /bin/sh and of GNU dd

    The scripts hand each command string to [/bin/sh -c].  For the strings
    they build, the shell splits a command list at [;] and a simple command
    into words at blanks; a [dd] simple command then copies bytes from its
    [if=] operand in [count] blocks of [bs] bytes.  Only these parts of the
    two programs are modelled. *)

Fixpoint split_sep (c : ascii) (s : string) : list string :=
  match s with
  | EmptyString => [""]
  | String a t =>
      if Ascii.eqb a c then "" :: split_sep c t
      else match split_sep c t with
           | [] => [String a ""]
           | x :: xs => String a x :: xs
           end
  end.


(** The commands of a command list ([cmd1; cmd2; ...]). *)
Definition sh_commands (script : string) : list string := split_sep ";" script.

(** The words of a simple command. *)
Definition words (s : string) : list string :=
  List.filter (fun x => negb (String.eqb x "")) (split_sep " " s).

(** [key=value] operands, split at the first [=]. *)
Fixpoint operand (s : string) : string * option string :=
  match s with
  | EmptyString => ("", None)
  | String a t =>
      if Ascii.eqb a "=" then ("", Some t)
      else let '(k, v) := operand t in (String a k, v)
  end.

(** The value of the last [key=...] operand. *)
Definition dd_operand (key : string) (ops : list string) : option string :=
  fold_left (fun acc op =>
               match operand op with
               | (k, Some v) => if String.eqb k key then Some v else acc
               | _ => acc
               end) ops None.

Definition digit_value (a : ascii) : option N :=
  let n := nat_of_ascii a in
  if ((48 <=? n) && (n <=? 57))%nat then Some (N.of_nat (n - 48)) else None.

Fixpoint dec_value (s : string) (acc : N) : option N :=
  match s with
  | EmptyString => Some acc
  | String a t =>
      match digit_value a with
      | Some d => dec_value t (acc * 10 + d)%N
      | None => None
      end
  end.

(** A non-empty string of decimal digits. *)
Definition parse_dec (s : string) : option N :=
  match s with EmptyString => None | _ => dec_value s 0%N end.

Fixpoint span_digits (s : string) : string * string :=
  match s with
  | EmptyString => ("", "")
  | String a t =>
      match digit_value a with
      | Some _ => let '(d, r) := span_digits t in (String a d, r)
      | None => ("", s)
      end
  end.

(** dd's multiplicative suffixes. *)
Definition size_suffix (s : string) : option N :=
  if String.eqb s "" then Some 1%N
  else if String.eqb s "c" then Some 1%N
  else if String.eqb s "w" then Some 2%N
  else if String.eqb s "b" then Some 512%N
  else if String.eqb s "K" || String.eqb s "k" then Some 1024%N
  else if String.eqb s "kB" || String.eqb s "KB" then Some 1000%N
  else if String.eqb s "M" then Some (1024 * 1024)%N
  else if String.eqb s "MB" then Some (1000 * 1000)%N
  else if String.eqb s "G" then Some (1024 * 1024 * 1024)%N
  else if String.eqb s "GB" then Some (1000 * 1000 * 1000)%N
  else None.

(** [bs=] values such as ["4M"] or ["512"]. *)
Definition dd_size (s : string) : option N :=
  let '(d, suf) := span_digits s in
  match parse_dec d, size_suffix suf with
  | Some n, Some m => Some (n * m)%N
  | _, _ => None
  end.

Inductive dd_result : Type :=
  | Copied (n : N)     (* dd stops after copying n bytes *)
  | UntilFull          (* unbounded input, no count: runs until the device is full *)
  | FromStdin          (* input is the pipe from the shell *)
  | DdError.           (* bad operand or missing input file *)

(** The number of bytes [dd] copies from its input before it stops by
    itself (the device is assumed large enough). *)
Definition dd_copied (fs : gmap string blob) (argv : list string) : dd_result :=
  match argv with
  | "dd" :: ops =>
      let bs := match dd_operand "bs" ops with
                | None => Some 512%N
                | Some s => dd_size s
                end in
      let count := option_map parse_dec (dd_operand "count" ops) in
      match bs, count with
      | None, _ | _, Some None => DdError
      | Some b, _ =>
          match dd_operand "if" ops with
          | None => FromStdin
          | Some inp =>
              if String.eqb inp "/dev/urandom" || String.eqb inp "/dev/zero" then
                match count with
                | Some (Some n) => Copied (n * b)%N
                | _ => UntilFull
                end
              else
                match fs !! inp with
                | None => DdError
                | Some f =>
                    match count with
                    | Some (Some n) => Copied (N.min (blob_size f) (n * b))
                    | _ => Copied (blob_size f)
                    end
                end
          end
      end
  | _ => DdError
  end.

(* ------------------------------------------------------------------ *)
(** ** Vocabulary of the proofs *)

Definition set_sigint (w : world) (o : option nat) : world :=
  mkWorld (files w) (temp_files w) (trace w) o.
Definition add_trace (w : world) (evs : list event) : world :=
  mkWorld (files w) (temp_files w) (trace w ++ evs) (sigint w).

(** Partial correctness on normal termination. *)
Definition triple {A} (P : world -> Prop) (m : PyM A) (Q : A -> world -> Prop) : Prop :=
  forall w w' a, P w -> m w = (w', Ok a) -> Q a w'.

(** [m] relates the world before and after by [G], whatever its outcome. *)
Definition guar (G : world -> world -> Prop) {A} (m : PyM A) : Prop :=
  forall w w' r, m w = (w', r) -> G w w'.

(** Every registered temp file is gone. *)
Definition cleaned (w : world) : Prop :=
  forall p, p ∈ temp_files w -> files w !! p = None.

(** Once a pending SIGINT has been delivered while running [m], [m] ends in
    [SystemExit 0] with every registered temp file removed, the last thing
    printed being [cleanup]'s message. *)
Definition intr_safe {A} (m : PyM A) : Prop :=
  forall w w' r, m w = (w', r) -> sigint w <> None -> sigint w' = None ->
    r = Exc (SystemExit 0%Z) /\ cleaned w' /\ last (trace w') = Some (Out interrupted_msg).

Definition tmp_name (p : string) : Prop := p = ones_tmp \/ p = string_tmp.

(** The file a Ones/String/File pass reads. *)
Definition source_path (pi : pass_info) : option string :=
  if String.eqb (p_type pi) "ones" then Some ones_tmp
  else if String.eqb (p_type pi) "string" then Some string_tmp
  else if String.eqb (p_type pi) "file" then p_content pi
  else None.

(** The command string [perform_pass] hands to the shell, written out. *)
Definition expected_command (pi : pass_info) (device : string) : option string :=
  let bs := p_block_size pi in
  let count := p_count pi in
  if String.eqb (p_type pi) "random" then
    Some ("dd if=/dev/urandom of=" ++ device ++ " bs=" ++ bs ++ " status=progress" ++
          (if truthy count then " count=" ++ pystr count else ""))
  else if String.eqb (p_type pi) "zeros" then
    Some ("dd if=/dev/zero of=" ++ device ++ " bs=" ++ bs ++ " status=progress" ++
          (if truthy count then " count=" ++ pystr count else ""))
  else match source_path pi with
       | None => None
       | Some src =>
           if truthy count then
             Some ("dd if=" ++ src ++ " of=" ++ device ++ " bs=" ++ bs ++
                   " count=" ++ pystr count ++ " status=progress")
           else
             Some ("while :; do cat " ++ src ++ "; done | dd of=" ++ device ++
                   " bs=" ++ bs ++ " status=progress")
       end.

(** dd's diagnostics on a device it cannot open, and its exit status. *)
Definition permission_denied_writer (argv : list string) : list string * Z :=
  (["dd: failed to open '/dev/sdb': Permission denied"], 1%Z).

(** Every process spawned from [w] on satisfies [ok]. *)
Definition G_spawns (ok : list string -> Prop) (w w' : world) : Prop :=
  forall argv, In (Spawn argv) (trace w') -> In (Spawn argv) (trace w) \/ ok argv.




(** Only the two fixed temp names are registered, and only registered
    files are removed. *)
Definition G_temps (w w' : world) : Prop :=
  (exists new, temp_files w' = (temp_files w ++ new)%list /\ Forall tmp_name new) /\
  (forall p, In (Removed p) (trace w') -> In (Removed p) (trace w) \/ In p (temp_files w')).

(** [P] looks at the filesystem only. *)
Definition files_only (P : world -> Prop) : Prop :=
  forall w w', files w = files w' -> P w -> P w'.

#[global] Instance event_eq_dec : EqDecision event.
Proof. solve_decision. Defined.

(** The temp files [path_source] registers for a pass type. *)
Definition registered_by (pt : string) : list string :=
  if String.eqb pt "ones" then [ones_tmp]
  else if String.eqb pt "string" then [string_tmp] else [].

(** Pass types whose pass runs to its command without an error. *)
Definition runnable_pass (pi : pass_info) : bool :=
  if String.eqb (p_type pi) "random" || String.eqb (p_type pi) "zeros" ||
     String.eqb (p_type pi) "ones" then true
  else if String.eqb (p_type pi) "string" then
    match p_content pi with Some c => negb (String.eqb c "") | None => false end
  else if String.eqb (p_type pi) "file" then
    match p_content pi with Some _ => true | None => false end
  else false.

(** A pass as [configure_passes] adds it to the schema, [fs] being the
    filesystem the File path was checked against. *)
Definition configured_pass (fs : gmap string blob) (pi : pass_info) : Prop :=
  ((p_type pi = "random" \/ p_type pi = "zeros" \/ p_type pi = "ones") /\ p_content pi = None \/
   p_type pi = "string" /\ is_Some (p_content pi) \/
   p_type pi = "file" /\ (exists p, p_content pi = Some p /\ is_Some (fs !! p))) /\
  p_block_size pi <> "" /\ p_count pi <> Some "".

(** A pass as disk_puri.py's [configure_passes] adds it or as diskprep.py's
    keeps it: a String pass has content. *)
Definition string_has_content (p : pass_info) : Prop :=
  p_type p = "string" -> is_Some (p_content p).

(** [m], run without an interrupt, adds to the trace only events [ok] and
    changes nothing else. *)
Definition quiet (ok : event -> Prop) {A} (m : PyM A) : Prop :=
  forall w, sigint w = None ->
    exists evs r, Forall ok evs /\ m w = (add_trace w evs, r).
Definition ioquiet (ok : event -> Prop) {A} (m : IO A) : Prop := forall inp, quiet ok (m inp).

(** What disk_puri.py's [configure_passes] may do besides printing. *)
Definition out_or_clear (e : event) : Prop :=
  (exists s, e = Out s) \/ e = Spawn (sh_argv "clear").

(** [m] reads a prefix of the input, whatever the world. *)
Definition reads_prefix {A} (m : IO A) : Prop :=
  forall inp w w' a rest, m inp w = (w', Ok (a, rest)) -> exists pre, inp = (pre ++ rest)%list.

(** A [while :; do cat ...; done | dd ...] command: its feed loop never
    ends by itself, so the scripts' read loop over its stderr ends only once
    dd has reported the device full and the scripts terminate it. *)
Definition endless_feed (command : string) : bool := String.prefix "while :; do cat " command.

(** The runs whose stderr reaches its end, the only ones the read loop of
    [execute_command] comes out of: [writer] answers every endless feed
    with a device-full report. *)
Definition writer_ends (writer : list string -> list string * Z) : Prop :=
  forall c, endless_feed c = true ->
    exists pre l post code, writer (sh_argv c) = ((pre ++ l :: post)%list, code) /\
      contains no_space_marker l = true.

(** ** Concrete inputs *)

Definition fresh_world (fs : gmap string blob) (sig : option nat) : world :=
  mkWorld fs [] [] sig.
Definition sdb : string := "/dev/sdb".
Definition ones_pass : pass_info := mkPass "ones" None "1M" None.
Definition random_pass : pass_info := mkPass "random" None "4M" None.
Definition zeros_pass : pass_info := mkPass "zeros" None "1M" None.
Definition file_pass (p : string) : pass_info := mkPass "file" (Some p) "1M" None.
(** A writer that prints nothing and exits with status 0. *)
Definition quiet_writer (argv : list string) : list string * Z := ([], 0%Z).
(** A user's own 3-byte pattern file. *)
Definition user_blob : blob := [([1%Z; 2%Z; 3%Z], 1%N)].
(** A bounded File pass over that file: block size 4, count 2. *)
Definition short_file_pass : pass_info := mkPass "file" (Some "/data/p.bin") "4" (Some "2").
(** What [sys.stdout.write(f"\r{line}")] writes for a diagnostic line. *)
Definition echo (line : string) : event := Out (String "013" line).

(** A writer that reports the device full after one block. *)
Definition disk_full_writer (argv : list string) : list string * Z :=
  (["1+0 records in"; "dd: error writing '/dev/sdb': No space left on device";
    "1+0 records out"], 1%Z).

(** The fixed temp file of a Ones or String pass. *)
Definition temp_of (pt : string) : string :=
  if String.eqb pt "ones" then ones_tmp else string_tmp.

(** The 256 chunks a String pass writes for a non-empty content. *)
Definition string_blob (c : string) : blob :=
  repeat (encode c, (1024 * 1024 / N.of_nat (String.length c))%N) 256.

(** The temp file of a Ones/String pass once [path_source] has run, from its
    state before ([None]: absent). *)
Definition generated_buffer (pt : string) (content : option string) (prior : option blob)
    : option blob :=
  match prior with
  | Some b => Some b
  | None =>
      if String.eqb pt "ones" then Some ones_blob
      else match content with
           | Some c => if Nat.eqb (String.length c) 0 then Some [] else Some (string_blob c)
           | None => Some []
           end
  end.

(* ================================================================== *)
(** * Proofs *)

(** ** String lemmas *)

Lemma str_app_nil (s : string) : "" ++ s = s.
Proof. reflexivity. Qed.
Lemma str_app_cons (a : ascii) (s t : string) : String a s ++ t = String a (s ++ t).
Proof. reflexivity. Qed.

Lemma str_app_assoc (a b c : string) : (a ++ b) ++ c = a ++ (b ++ c).
Proof.
  induction a as [|x a IH]; [reflexivity|].
  rewrite !str_app_cons. now rewrite IH.
Qed.







(** ** The monad *)

Lemma mbind_unfold {A B} (m : PyM A) (k : A -> PyM B) w :
  (m ≫= k) w = match m w with
               | (w', Ok a) => k a w'
               | (w', Exc e) => (w', Exc e)
               end.
Proof. reflexivity. Qed.

Lemma interruptible_none {A} (m : PyM A) w :
  sigint w = None -> interruptible m w = m w.
Proof. unfold interruptible. now intros ->. Qed.

(** ** The SIGINT handler *)

Lemma lookup_fold_delete (l : list string) (fs : gmap string blob) p :
  fold_left (fun fs q => delete q fs) l fs !! p =
    if bool_decide (p ∈ l) then None else fs !! p.
Proof.
  revert fs. induction l as [|q l IH]; intros fs; cbn [fold_left].
  - rewrite bool_decide_false; [reflexivity|]. apply not_elem_of_nil.
  - rewrite IH. destruct (decide (p = q)) as [->|Hne].
    + rewrite lookup_delete_eq, (bool_decide_true (q ∈ q :: l)) by set_solver.
      now destruct (bool_decide _).
    + rewrite lookup_delete_ne by congruence.
      destruct (decide (p ∈ l)) as [Hin|Hin].
      * rewrite !bool_decide_true by set_solver. reflexivity.
      * rewrite !bool_decide_false by set_solver. reflexivity.
Qed.

Lemma remove_temp_files_spec l w :
  exists rem,
    remove_temp_files l w =
      (mkWorld (fold_left (fun fs q => delete q fs) l (files w)) (temp_files w)
               (trace w ++ map Removed rem) (sigint w), Ok tt) /\
    (forall p, In p rem -> In p l).
Proof.
  revert w. induction l as [|t l IH]; intros w.
  - exists []. split; [|simpl; tauto]. destruct w; simpl. now rewrite app_nil_r.
  - simpl. rewrite mbind_unfold. unfold isfile_raw.
    destruct (bool_decide (is_Some (files w !! t))) eqn:Hf.
    + rewrite mbind_unfold. unfold remove_raw.
      destruct (IH (mkWorld (delete t (files w)) (temp_files w) (trace w ++ [Removed t])
                            (sigint w))) as [rem [Heq Hin]].
      exists (t :: rem). rewrite Heq. simpl. split.
      * now rewrite <- app_assoc.
      * intros p [<-|Hp]; [now left | right; auto].
    + rewrite mbind_unfold. simpl.
      apply bool_decide_eq_false in Hf.
      assert (Hd : delete t (files w) = files w).
      { apply delete_id. destruct (files w !! t); [exfalso; apply Hf; eauto|reflexivity]. }
      destruct (IH w) as [rem [Heq Hin]]. exists rem. rewrite Heq, Hd. split; [reflexivity|].
      intros p Hp; right; auto.
Qed.

Lemma cleanup_spec {A} w :
  exists rem,
    cleanup (A:=A) w =
      (mkWorld (fold_left (fun fs q => delete q fs) (temp_files w) (files w)) (temp_files w)
               (trace w ++ map Removed rem ++ [Out interrupted_msg]) (sigint w),
       Exc (SystemExit 0%Z)) /\
    (forall p, In p rem -> In p (temp_files w)).
Proof.
  unfold cleanup. rewrite mbind_unfold. cbv beta iota delta [get_temp_files].
  rewrite mbind_unfold.
  destruct (remove_temp_files_spec (temp_files w) w) as [rem [-> Hin]].
  exists rem. split; [|exact Hin].
  rewrite mbind_unfold. simpl. now rewrite <- app_assoc.
Qed.

Lemma cleaned_after_cleanup w rem :
  cleaned (mkWorld (fold_left (fun fs q => delete q fs) (temp_files w) (files w))
                   (temp_files w) (trace w ++ map Removed rem ++ [Out interrupted_msg])
                   (sigint w)).
Proof.
  intros p Hp. simpl in *. rewrite lookup_fold_delete.
  now rewrite bool_decide_true by exact Hp.
Qed.

(** ** Relies and guarantees on the world *)

Section Guarantee.
Variable G : world -> world -> Prop.
Hypothesis G_refl : forall w, G w w.
Hypothesis G_trans : forall w1 w2 w3, G w1 w2 -> G w2 w3 -> G w1 w3.

Lemma guar_ret {A} (a : A) : guar G (mret a).
Proof. intros w w' r [= <- _]. apply G_refl. Qed.

Lemma guar_raise {A} (e : exn) : guar G (raise (A:=A) e).
Proof. intros w w' r [= <- _]. apply G_refl. Qed.

Lemma guar_local_get {A} v (x : option A) : guar G (local_get v x).
Proof. destruct x; [apply guar_ret | apply guar_raise]. Qed.

Lemma guar_bind {A B} (m : PyM A) (k : A -> PyM B) :
  guar G m -> (forall a, guar G (k a)) -> guar G (m ≫= k).
Proof.
  intros Hm Hk w w' r. rewrite mbind_unfold.
  destruct (m w) as [w1 [a|e]] eqn:E.
  - intros H. eapply G_trans; [eapply Hm; exact E | eapply Hk; exact H].
  - intros [= <- _]. eapply Hm; exact E.
Qed.

Lemma guar_try {A} (m : PyM A) hd h :
  guar G m -> (forall e, guar G (h e)) -> guar G (try_except m hd h).
Proof.
  intros Hm Hh w w' r. unfold try_except.
  destruct (m w) as [w1 [a|e]] eqn:E.
  - intros [= <- _]. eapply Hm; exact E.
  - destruct (hd e).
    + intros H. eapply G_trans; [eapply Hm; exact E | eapply Hh; exact H].
    + intros [= <- _]. eapply Hm; exact E.
Qed.

Hypothesis G_sigint : forall w o, G w (set_sigint w o).
Hypothesis G_cleanup : forall w rem,
  (forall p, In p rem -> In p (temp_files w)) ->
  G w (mkWorld (fold_left (fun fs q => delete q fs) (temp_files w) (files w)) (temp_files w)
               (trace w ++ map Removed rem ++ [Out interrupted_msg]) (sigint w)).

Lemma guar_interruptible {A} (m : PyM A) : guar G m -> guar G (interruptible m).
Proof.
  intros Hm w w' r. unfold interruptible.
  destruct (sigint w) as [[|n]|].
  - destruct (cleanup_spec (A:=A) (set_sigint w None)) as [rem [Heq Hin]].
    unfold set_sigint in Heq. rewrite Heq. intros [= <- _].
    eapply G_trans; [apply (G_sigint w None)|]. exact (G_cleanup (set_sigint w None) rem Hin).
  - intros H. eapply G_trans; [apply (G_sigint w (Some n)) | eapply Hm; exact H].
  - apply Hm.
Qed.
End Guarantee.

(** ** Delivery of the SIGINT *)

Lemma intr_ret {A} (a : A) : intr_safe (mret a).
Proof. intros w w' r [= <- _]. congruence. Qed.

Lemma intr_raise {A} (e : exn) : intr_safe (raise (A:=A) e).
Proof. intros w w' r [= <- _]. congruence. Qed.

Lemma intr_local_get {A} v (x : option A) : intr_safe (local_get v x).
Proof. destruct x; [apply intr_ret | apply intr_raise]. Qed.

Lemma intr_bind {A B} (m : PyM A) (k : A -> PyM B) :
  intr_safe m -> (forall a, intr_safe (k a)) -> intr_safe (m ≫= k).
Proof.
  intros Hm Hk w w' r. rewrite mbind_unfold.
  destruct (m w) as [w1 [a|e]] eqn:E.
  - intros H Hs Hs'. destruct (sigint w1) eqn:E1.
    + apply (Hk a w1 w' r H); [congruence | exact Hs'].
    + destruct (Hm w w1 (Ok a) E Hs E1) as [Habs _]. discriminate.
  - intros [= <- <-] Hs Hs'. destruct (Hm _ _ _ E Hs Hs') as [[= ->] Hc]. now split.
Qed.

Lemma intr_try {A} (m : PyM A) hd h :
  hd (SystemExit 0%Z) = false ->
  intr_safe m -> (forall e, intr_safe (h e)) -> intr_safe (try_except m hd h).
Proof.
  intros Hhd Hm Hh w w' r. unfold try_except.
  destruct (m w) as [w1 [a|e]] eqn:E.
  - intros [= <- <-] Hs Hs'. exact (Hm _ _ _ E Hs Hs').
  - destruct (hd e) eqn:He.
    + intros H Hs Hs'. destruct (sigint w1) eqn:E1.
      * apply (Hh e w1 w' r H); [congruence | exact Hs'].
      * destruct (Hm w w1 (Exc e) E Hs E1) as [[= ->] _]. congruence.
    + intros [= <- <-] Hs Hs'. exact (Hm _ _ _ E Hs Hs').
Qed.

(** A primitive step that leaves the pending signal alone. *)
Lemma intr_raw {A} (m : PyM A) :
  (forall w w' r, m w = (w', r) -> sigint w' = sigint w) -> intr_safe m.
Proof. intros Hm w w' r H Hs Hs'. rewrite (Hm _ _ _ H) in Hs'. contradiction. Qed.

Lemma intr_interruptible {A} (m : PyM A) : intr_safe m -> intr_safe (interruptible m).
Proof.
  intros Hm w w' r. unfold interruptible.
  destruct (sigint w) as [[|n]|] eqn:Es.
  - destruct (cleanup_spec (A:=A) (set_sigint w None)) as [rem [Heq _]].
    unfold set_sigint in Heq. rewrite Heq. intros [= <- <-] _ _.
    split; [reflexivity|]. split; [apply (cleaned_after_cleanup (set_sigint w None))|].
    cbn [trace]. rewrite app_assoc. apply last_snoc.
  - intros H _. apply (Hm _ _ _ H). simpl; discriminate.
  - intros _ Habs. contradiction.
Qed.

(** ** Hoare triples *)

Lemma triple_ret {A} (P : world -> Prop) (a : A) (Q : A -> world -> Prop) :
  (forall w, P w -> Q a w) -> triple P (mret a) Q.
Proof. intros H w w' b HP [= <- <-]. auto. Qed.

Lemma triple_raise {A} P e (Q : A -> world -> Prop) : triple P (raise e) Q.
Proof. intros w w' b _ [=]. Qed.

Lemma triple_bind {A B} P (m : PyM A) R (k : A -> PyM B) Q :
  triple P m R -> (forall a, triple (R a) (k a) Q) -> triple P (m ≫= k) Q.
Proof.
  intros Hm Hk w w' b HP. rewrite mbind_unfold.
  destruct (m w) as [w1 [a|e]] eqn:E; [|discriminate].
  intros H. eapply Hk; [eapply Hm; [exact HP | exact E] | exact H].
Qed.

Lemma triple_interruptible {A} P (m : PyM A) Q :
  (forall w o, P w -> P (set_sigint w o)) -> triple P m Q -> triple P (interruptible m) Q.
Proof.
  intros HP Hm w w' a Hw. unfold interruptible.
  destruct (sigint w) as [[|n]|].
  - destruct (cleanup_spec (A:=A) (set_sigint w None)) as [rem [Heq _]].
    unfold set_sigint in Heq. rewrite Heq. discriminate.
  - apply Hm. exact (HP w (Some n) Hw).
  - apply Hm, Hw.
Qed.

Lemma triple_pre {A} (P P' : world -> Prop) (m : PyM A) Q :
  (forall w, P' w -> P w) -> triple P m Q -> triple P' m Q.
Proof. intros HP Hm w w' a H. apply Hm. auto. Qed.

(** ** Every step of the scripts lets a delivered SIGINT end the run *)

Lemma intr_emit e : intr_safe (emit e).
Proof. apply intr_interruptible, intr_raw. intros w w' r [= <- _]. reflexivity. Qed.
Lemma intr_print s : intr_safe (print s).
Proof. apply intr_emit. Qed.
Lemma intr_isfile p : intr_safe (isfile p).
Proof. apply intr_interruptible, intr_raw. intros w w' r [= <- _]. reflexivity. Qed.
Lemma intr_isfile_opt p : intr_safe (isfile_opt p).
Proof. destruct p; [apply intr_isfile | apply intr_raise]. Qed.
Lemma intr_write_file p b : intr_safe (write_file p b).
Proof. apply intr_interruptible, intr_raw. intros w w' r [= <- _]. reflexivity. Qed.
Lemma intr_append_file p c : intr_safe (append_file p c).
Proof. apply intr_interruptible, intr_raw. intros w w' r [= <- _]. reflexivity. Qed.
Lemma intr_register_temp p : intr_safe (register_temp p).
Proof. apply intr_interruptible, intr_raw. intros w w' r [= <- _]. reflexivity. Qed.
Lemma intr_string_chunk c : intr_safe (string_chunk c).
Proof.
  unfold string_chunk. destruct c; [|apply intr_raise].
  destruct (Nat.eqb _ _); [apply intr_raise | apply intr_ret].
Qed.

Create HintDb intr.
#[local] Hint Resolve intr_ret intr_raise intr_local_get intr_emit intr_print intr_isfile
  intr_isfile_opt intr_write_file intr_append_file intr_register_temp intr_string_chunk : intr.

(** Decompose a computation of the scripts into its steps. *)
Ltac intr_steps :=
  repeat first
    [ apply intr_bind; [|intros ?]
    | progress auto with intr
    | match goal with
      | |- intr_safe (if ?b then _ else _) => destruct b
      | |- intr_safe (match ?x with _ => _ end) => destruct x
      end ].

Lemma intr_write_string_chunks p n c : intr_safe (write_string_chunks p n c).
Proof. induction n; simpl; intr_steps. Qed.

Lemma intr_drain argv lines : intr_safe (drain argv lines).
Proof. induction lines; simpl; intr_steps. Qed.

#[local] Hint Resolve intr_write_string_chunks intr_drain : intr.

Lemma intr_execute_command writer c : intr_safe (execute_command writer c).
Proof.
  unfold execute_command. apply intr_try; [reflexivity| |].
  - intr_steps.
  - intros e. destruct e; intr_steps.
Qed.

Lemma intr_stream_source pt d bs count : intr_safe (stream_source pt d bs count).
Proof. unfold stream_source. intr_steps. Qed.

Lemma intr_path_source pt d bs count content : intr_safe (path_source pt d bs count content).
Proof. unfold path_source. intr_steps. Qed.

#[local] Hint Resolve intr_execute_command intr_stream_source intr_path_source : intr.

Lemma intr_perform_pass writer pi d : intr_safe (perform_pass writer pi d).
Proof. unfold perform_pass, pass_command. intr_steps. Qed.

#[local] Hint Resolve intr_perform_pass : intr.

Lemma intr_run_passes writer i passes d : intr_safe (run_passes writer i passes d).
Proof.
  revert i. induction passes as [|pi rest IH]; intros i; simpl; [apply intr_ret|].
  apply intr_bind; [apply intr_print | intros _].
  apply intr_bind; [apply intr_perform_pass | intros _; apply IH].
Qed.

Lemma intr_run_schema writer passes d : intr_safe (run_schema writer passes d).
Proof. unfold run_schema. apply intr_bind; [apply intr_run_passes | intros; apply intr_print]. Qed.

(** ** Registration and removal of temp files *)

Close Scope string_scope.

Lemma temps_none_new w w' :
  temp_files w' = temp_files w ->
  exists new, temp_files w' = temp_files w ++ new /\ Forall tmp_name new.
Proof. intros ->. exists []. split; [now rewrite app_nil_r | constructor]. Qed.

Lemma G_temps_refl w : G_temps w w.
Proof. split; [now apply temps_none_new | auto]. Qed.

Lemma G_temps_trans w1 w2 w3 : G_temps w1 w2 -> G_temps w2 w3 -> G_temps w1 w3.
Proof.
  intros [[n1 [E1 F1]] R1] [[n2 [E2 F2]] R2]. split.
  - exists (n1 ++ n2). rewrite E2, E1, app_assoc. split; [reflexivity|].
    now apply Forall_app.
  - intros p H. destruct (R2 p H) as [H2|H2]; [|now right].
    destruct (R1 p H2) as [H1|H1]; [now left|].
    right. rewrite E2. apply in_or_app. now left.
Qed.

Lemma G_temps_sigint w o : G_temps w (set_sigint w o).
Proof. exact (G_temps_refl w). Qed.

Lemma G_temps_cleanup w rem :
  (forall p, In p rem -> In p (temp_files w)) ->
  G_temps w (mkWorld (fold_left (fun fs q => delete q fs) (temp_files w) (files w))
                     (temp_files w) (trace w ++ map Removed rem ++ [Out interrupted_msg])
                     (sigint w)).
Proof.
  intros Hrem. split; [now apply temps_none_new|]. simpl.
  intros p H. apply in_app_or in H as [H|H]; [now left|].
  apply in_app_or in H as [H|[H|[]]]; [|discriminate].
  apply in_map_iff in H as [q [[= ->] Hq]]. right. auto.
Qed.

Ltac temps_interruptible :=
  apply (guar_interruptible G_temps G_temps_trans G_temps_sigint G_temps_cleanup).

Lemma temps_emit e : (forall p, e <> Removed p) -> guar G_temps (emit e).
Proof.
  intros He. temps_interruptible. intros w w' r [= <- _].
  split; [now apply temps_none_new|]. simpl. intros p H.
  apply in_app_or in H as [H|[H|[]]]; [now left|]. now destruct (He p).
Qed.
Lemma temps_print s : guar G_temps (print s).
Proof. apply temps_emit. discriminate. Qed.
Lemma temps_isfile p : guar G_temps (isfile p).
Proof. temps_interruptible. intros w w' r [= <- _]. exact (G_temps_refl w). Qed.
Lemma temps_isfile_opt p : guar G_temps (isfile_opt p).
Proof.
  destruct p; [apply temps_isfile | apply guar_raise, G_temps_refl].
Qed.
Lemma temps_write_file p b : guar G_temps (write_file p b).
Proof. temps_interruptible. intros w w' r [= <- _]. exact (G_temps_refl w). Qed.
Lemma temps_append_file p c : guar G_temps (append_file p c).
Proof. temps_interruptible. intros w w' r [= <- _]. exact (G_temps_refl w). Qed.
Lemma temps_register_temp p : tmp_name p -> guar G_temps (register_temp p).
Proof.
  intros Hp. temps_interruptible. intros w w' r [= <- _]. split.
  - exists [p]. split; [reflexivity|]. now constructor.
  - simpl. intros q H. left. exact H.
Qed.
Lemma temps_string_chunk c : guar G_temps (string_chunk c).
Proof.
  unfold string_chunk. destruct c; [|apply guar_raise, G_temps_refl].
  destruct (Nat.eqb _ _); [apply guar_raise | apply guar_ret]; apply G_temps_refl.
Qed.

Lemma tmp_name_ones : tmp_name ones_tmp.
Proof. now left. Qed.
Lemma tmp_name_string : tmp_name string_tmp.
Proof. now right. Qed.

Create HintDb temps.
#[local] Hint Resolve G_temps_refl temps_print temps_isfile temps_isfile_opt temps_write_file
  temps_append_file temps_register_temp temps_string_chunk tmp_name_ones tmp_name_string : temps.
#[local] Hint Extern 1 (guar G_temps (mret _)) => apply guar_ret, G_temps_refl : temps.
#[local] Hint Extern 1 (guar G_temps (raise _)) => apply guar_raise, G_temps_refl : temps.
#[local] Hint Extern 1 (guar G_temps (local_get _ _)) => apply guar_local_get, G_temps_refl : temps.
#[local] Hint Extern 1 (guar G_temps (emit _)) => apply temps_emit; discriminate : temps.

Ltac temps_steps :=
  repeat first
    [ apply (guar_bind G_temps G_temps_trans); [|intros ?]
    | progress auto with temps
    | match goal with
      | |- guar G_temps (if ?b then _ else _) => destruct b
      | |- guar G_temps (match ?x with _ => _ end) => destruct x
      end ].

Lemma temps_write_string_chunks p n c : guar G_temps (write_string_chunks p n c).
Proof. induction n; simpl; temps_steps. Qed.

Lemma temps_drain argv lines : guar G_temps (drain argv lines).
Proof. induction lines; simpl; temps_steps. Qed.

#[local] Hint Resolve temps_write_string_chunks temps_drain : temps.

Lemma temps_execute_command writer c : guar G_temps (execute_command writer c).
Proof.
  unfold execute_command. apply (guar_try G_temps G_temps_trans).
  - temps_steps.
  - intros e. destruct e; temps_steps.
Qed.

Lemma temps_stream_source pt d bs count : guar G_temps (stream_source pt d bs count).
Proof. unfold stream_source. temps_steps. Qed.

Lemma temps_path_source pt d bs count content : guar G_temps (path_source pt d bs count content).
Proof. unfold path_source. temps_steps. Qed.

#[local] Hint Resolve temps_execute_command temps_stream_source temps_path_source : temps.

Lemma temps_perform_pass writer pi d : guar G_temps (perform_pass writer pi d).
Proof. unfold perform_pass, pass_command. temps_steps. Qed.

Lemma temps_run_passes writer i passes d : guar G_temps (run_passes writer i passes d).
Proof.
  revert i. induction passes as [|pi rest IH]; intros i; simpl; [auto with temps|].
  apply (guar_bind G_temps G_temps_trans); [apply temps_print | intros _].
  apply (guar_bind G_temps G_temps_trans); [apply temps_perform_pass | intros _; apply IH].
Qed.

Lemma temps_run_schema writer passes d : guar G_temps (run_schema writer passes d).
Proof.
  unfold run_schema. apply (guar_bind G_temps G_temps_trans);
    [apply temps_run_passes | intros _; apply temps_print].
Qed.

(* ------------------------------------------------------------------ *)
(** ** C8: cancellation *)

(** C8 (counterexample).  A Ctrl+C delivered while the first pass of
    [[ones]] starts its writer ends the run through [cleanup] with exit
    status 0, the status of a completed run, not a distinguished non-zero
    one. *)
Lemma c8_cancel_exits_with_zero :
  let '(w', r) := run_schema quiet_writer [ones_pass] sdb (fresh_world ∅ (Some 4%nat)) in
  sigint w' = None /\ r = Exc (SystemExit 0%Z) /\ exit_status r = 0%Z.
Proof. vm_compute. auto. Qed.

(** C8 (amended).  Whenever a pending SIGINT is delivered during a run of a
    schema, the run ends in [SystemExit 0] raised by [cleanup] after it has
    removed every registered temp file and printed "Process interrupted.
    Exiting." as the last output: the process exits with status 0. *)
Theorem c8_cancel_cleans_and_exits_zero writer passes device w k :
  sigint w = Some k ->
  sigint (fst (run_schema writer passes device w)) = None ->
  snd (run_schema writer passes device w) = Exc (SystemExit 0%Z) /\
  exit_status (snd (run_schema writer passes device w)) = 0%Z /\
  cleaned (fst (run_schema writer passes device w)) /\
  last (trace (fst (run_schema writer passes device w))) = Some (Out interrupted_msg).
Proof.
  intros Hk Hdel.
  destruct (run_schema writer passes device w) as [w' r] eqn:E. simpl in *.
  destruct (intr_run_schema writer passes device w w' r E) as [-> [Hc Hl]];
    [congruence | exact Hdel |].
  simpl. auto.
Qed.

Lemma c8_cancel_cleans_and_exits_zero_witness :
  sigint (fst (run_schema quiet_writer [ones_pass] sdb (fresh_world ∅ (Some 4%nat)))) = None /\
  (snd (run_schema quiet_writer [ones_pass] sdb (fresh_world ∅ (Some 4%nat)))
     = Exc (SystemExit 0%Z) /\
   exit_status (snd (run_schema quiet_writer [ones_pass] sdb (fresh_world ∅ (Some 4%nat))))
     = 0%Z /\
   cleaned (fst (run_schema quiet_writer [ones_pass] sdb (fresh_world ∅ (Some 4%nat)))) /\
   last (trace (fst (run_schema quiet_writer [ones_pass] sdb (fresh_world ∅ (Some 4%nat)))))
     = Some (Out interrupted_msg)).
Proof.
  split; [vm_compute; reflexivity|].
  apply (c8_cancel_cleans_and_exits_zero quiet_writer [ones_pass] sdb
           (fresh_world ∅ (Some 4%nat)) 4%nat); [reflexivity | vm_compute; reflexivity].
Defined.

(* ------------------------------------------------------------------ *)
(** ** C10: what [cleanup] may remove *)

(** C10 (counterexample).  A File pass whose source is the user's own file
    [ones_source.tmp], followed by a Ones pass: the Ones pass registers
    that name, and a Ctrl+C during the Ones pass makes [cleanup] delete the
    File pass's source. *)
Lemma c10_file_source_removed :
  let w' := fst (run_schema quiet_writer [file_pass ones_tmp; ones_pass] sdb
                   (fresh_world {[ones_tmp := user_blob]} (Some 7%nat))) in
  Removed ones_tmp ∈ trace w' /\ files w' !! ones_tmp = None.
Proof.
  split; [apply (proj1 (bool_decide_eq_true _)); vm_compute; reflexivity | vm_compute; reflexivity].
Qed.

(** C10 (amended).  Over a run started with an empty [temp_files] list,
    only the names [ones_source.tmp] and [string_source.tmp] are ever
    registered, and every file the run removes is registered and carries
    one of these two names: a File pass's source is removed only when its
    path is one of them. *)
Theorem c10_only_fixed_temp_names_removed writer passes device w :
  temp_files w = [] ->
  Forall tmp_name (temp_files (fst (run_schema writer passes device w))) /\
  forall p, In (Removed p) (trace (fst (run_schema writer passes device w))) ->
    In (Removed p) (trace w) \/
    (In p (temp_files (fst (run_schema writer passes device w))) /\ tmp_name p).
Proof.
  intros H0. destruct (run_schema writer passes device w) as [w' r] eqn:E. simpl.
  destruct (temps_run_schema writer passes device w w' r E) as [[new [Enew Fnew]] Hrem].
  rewrite H0 in Enew. simpl in Enew.
  assert (Hall : Forall tmp_name (temp_files w')) by (rewrite Enew; exact Fnew).
  split; [exact Hall|].
  intros p Hp. destruct (Hrem p Hp) as [H|H]; [now left|].
  right. split; [exact H|]. rewrite List.Forall_forall in Hall. now apply Hall.
Qed.

Lemma c10_only_fixed_temp_names_removed_witness :
  temp_files (fresh_world {[ones_tmp := user_blob]} (Some 7%nat)) = [] /\
  Forall tmp_name (temp_files (fst (run_schema quiet_writer [file_pass ones_tmp; ones_pass] sdb
                                      (fresh_world {[ones_tmp := user_blob]} (Some 7%nat))))).
Proof.
  split; [reflexivity|].
  apply (c10_only_fixed_temp_names_removed quiet_writer [file_pass ones_tmp; ones_pass] sdb
           (fresh_world {[ones_tmp := user_blob]} (Some 7%nat))).
  reflexivity.
Defined.

(* ------------------------------------------------------------------ *)
(** ** Running the writer without interruption *)

Lemma add_trace_app w a b : add_trace (add_trace w a) b = add_trace w (a ++ b).
Proof. unfold add_trace. simpl. now rewrite app_assoc. Qed.

Lemma add_trace_nil w : add_trace w [] = w.
Proof. destruct w. unfold add_trace. simpl. now rewrite app_nil_r. Qed.

Lemma emit_none e w : sigint w = None -> emit e w = (add_trace w [e], Ok tt).
Proof. intros H. unfold emit. rewrite interruptible_none by exact H. reflexivity. Qed.

Lemma print_none s w : sigint w = None -> print s w = (add_trace w [Out s], Ok tt).
Proof. apply emit_none. Qed.

Lemma isfile_none p w :
  sigint w = None -> isfile p w = (w, Ok (bool_decide (is_Some (files w !! p)))).
Proof. intros H. unfold isfile. rewrite interruptible_none by exact H. reflexivity. Qed.

Lemma drain_first_marker argv pre l post w :
  sigint w = None ->
  Forall (fun x => contains no_space_marker x = false) pre ->
  contains no_space_marker l = true ->
  drain argv (pre ++ l :: post) w =
    (add_trace w (map echo pre ++ [Out disk_full_msg; Terminate argv]), Ok tt).
Proof.
  unfold echo. revert w. induction pre as [|x pre IH]; intros w Hs Hpre Hl; simpl.
  - rewrite Hl, mbind_unfold, print_none by exact Hs.
    rewrite emit_none by exact Hs. now rewrite add_trace_app.
  - inversion Hpre as [|? ? Hx Hpre']; subst.
    rewrite Hx, mbind_unfold, print_none by exact Hs.
    rewrite IH by assumption. now rewrite add_trace_app.
Qed.

Lemma drain_returns argv lines w :
  sigint w = None -> exists evs, drain argv lines w = (add_trace w evs, Ok tt).
Proof.
  revert w. induction lines as [|x lines IH]; intros w Hs; simpl.
  - exists []. now rewrite add_trace_nil.
  - destruct (contains no_space_marker x).
    + rewrite mbind_unfold, print_none by exact Hs. rewrite emit_none by exact Hs.
      eexists. now rewrite add_trace_app.
    + rewrite mbind_unfold, print_none by exact Hs.
      destruct (IH (add_trace w [Out (String "013" x)])) as [evs ->]; [exact Hs|].
      eexists. now rewrite add_trace_app.
Qed.

(** Without an interrupt, [execute_command] returns normally whatever the
    writer prints and whatever its exit status: [subprocess.Popen] never
    raises [CalledProcessError], and the status [process.wait()] returns is
    dropped. *)
Lemma execute_command_world writer command w :
  sigint w = None -> exists evs, execute_command writer command w = (add_trace w evs, Ok tt).
Proof.
  intros Hs. unfold execute_command, try_except.
  rewrite mbind_unfold, emit_none by exact Hs.
  destruct (writer (sh_argv command)) as [lines code].
  rewrite mbind_unfold.
  destruct (drain_returns (sh_argv command) lines (add_trace w [Spawn (sh_argv command)]))
    as [evs ->]; [exact Hs|].
  rewrite emit_none by exact Hs. eexists. rewrite !add_trace_app. reflexivity.
Qed.

Lemma execute_command_returns writer command w :
  sigint w = None -> snd (execute_command writer command w) = Ok tt.
Proof.
  intros Hs. destruct (execute_command_world writer command w Hs) as [evs ->]. reflexivity.
Qed.

(* ------------------------------------------------------------------ *)
(** ** C1: a failing writer *)

(** C1 (code_bug).  Schema [[random; zeros]] on /dev/sdb with a writer that
    cannot open the device ("Permission denied", exit status 1): the first
    pass is not reported as failed, the run is not aborted, the second pass
    spawns its writer, and the run completes normally. *)
Theorem c1_failed_writer_does_not_abort :
  let '(w', r) := run_schema permission_denied_writer [random_pass; zeros_pass] sdb
                    (fresh_world ∅ None) in
  r = Ok tt /\
  Wait (sh_argv "dd if=/dev/urandom of=/dev/sdb bs=4M status=progress") 1%Z ∈ trace w' /\
  Spawn (sh_argv "dd if=/dev/zero of=/dev/sdb bs=1M status=progress") ∈ trace w' /\
  Out "Disk preparation completed." ∈ trace w'.
Proof.
  vm_compute. split; [reflexivity|].
  repeat split; apply list_elem_of_In; simpl; repeat (first [left; reflexivity | right]).
Qed.

(* ------------------------------------------------------------------ *)
(** ** C2: the device-full marker *)

(** C2.  If the writer's diagnostics contain a line with the marker
    "No space left on device" (the first such line being [l]), the lines
    before it are echoed, the disk-full message is printed, the writer is
    terminated, [execute_command] returns normally (no error), and the
    runner goes on with the next pass. *)
Theorem c2_marker_means_device_full writer command w pre l post code :
  sigint w = None ->
  writer (sh_argv command) = (pre ++ l :: post, code) ->
  Forall (fun x => contains no_space_marker x = false) pre ->
  contains no_space_marker l = true ->
  let w' := add_trace w ([Spawn (sh_argv command)] ++ map echo pre ++
                         [Out disk_full_msg; Terminate (sh_argv command);
                          Wait (sh_argv command) code]) in
  execute_command writer command w = (w', Ok tt) /\
  forall i rest device,
    (execute_command writer command;; run_passes writer i rest device) w =
    run_passes writer i rest device w'.
Proof.
  intros Hs Hw Hpre Hl w'.
  assert (E : execute_command writer command w = (w', Ok tt)).
  { unfold execute_command, try_except.
    rewrite mbind_unfold, emit_none by exact Hs. rewrite Hw, mbind_unfold.
    rewrite drain_first_marker by assumption.
    rewrite emit_none by exact Hs. unfold w'. now rewrite !add_trace_app, <- !app_assoc. }
  split; [exact E|]. intros i rest device. rewrite mbind_unfold, E. reflexivity.
Qed.

Lemma c2_marker_means_device_full_witness :
  let w' := add_trace (fresh_world ∅ None)
              ([Spawn (sh_argv "dd if=/dev/zero of=/dev/sdb bs=1M status=progress")] ++
               map echo ["1+0 records in"] ++
               [Out disk_full_msg;
                Terminate (sh_argv "dd if=/dev/zero of=/dev/sdb bs=1M status=progress");
                Wait (sh_argv "dd if=/dev/zero of=/dev/sdb bs=1M status=progress") 1%Z]) in
  execute_command disk_full_writer "dd if=/dev/zero of=/dev/sdb bs=1M status=progress"
    (fresh_world ∅ None) = (w', Ok tt) /\
  forall i rest device,
    (execute_command disk_full_writer "dd if=/dev/zero of=/dev/sdb bs=1M status=progress";;
     run_passes disk_full_writer i rest device) (fresh_world ∅ None) =
    run_passes disk_full_writer i rest device w'.
Proof.
  apply (c2_marker_means_device_full disk_full_writer
           "dd if=/dev/zero of=/dev/sdb bs=1M status=progress" (fresh_world ∅ None)
           ["1+0 records in"] "dd: error writing '/dev/sdb': No space left on device"
           ["1+0 records out"] 1%Z).
  - reflexivity.
  - reflexivity.
  - constructor; [vm_compute; reflexivity | constructor].
  - vm_compute. reflexivity.
Defined.

(* ------------------------------------------------------------------ *)
(** ** Primitive steps without interruption *)

Lemma write_string_chunks_spec p n c b0 w :
  sigint w = None -> String.length c <> 0%nat -> files w !! p = Some b0 ->
  write_string_chunks p n (Some c) w =
    (mkWorld (<[p := (b0 ++ repeat (encode c, (1024 * 1024 / N.of_nat (String.length c))%N) n)%list]>
               (files w)) (temp_files w) (trace w) (sigint w), Ok tt).
Proof.
  intros Hs Hc. revert b0 w Hs. induction n as [|n IH]; intros b0 w Hs Hb; cbn [write_string_chunks].
  - rewrite app_nil_r, insert_id by exact Hb. destruct w; reflexivity.
  - rewrite mbind_unfold. unfold string_chunk.
    destruct (Nat.eqb_spec (String.length c) 0) as [E|_]; [contradiction|].
    cbn [mret PyM_ret ret]. rewrite mbind_unfold. unfold append_file.
    rewrite interruptible_none by exact Hs. unfold append_file_raw. rewrite (Hb : @lookup string (list chunk) _ _ p (files w) = Some b0). cbn [default from_option id].
    erewrite IH; [| exact Hs | apply lookup_insert_eq].
    cbn [files temp_files trace sigint]. rewrite insert_insert_eq, <- app_assoc. reflexivity.
Qed.

Lemma register_temp_none p w :
  sigint w = None ->
  register_temp p w = (mkWorld (files w) (temp_files w ++ [p]) (trace w) (sigint w), Ok tt).
Proof. intros H. unfold register_temp. now rewrite interruptible_none. Qed.

Lemma write_file_none p b w :
  sigint w = None ->
  write_file p b w = (mkWorld (<[p := b]> (files w)) (temp_files w) (trace w) (sigint w), Ok tt).
Proof. intros H. unfold write_file. now rewrite interruptible_none. Qed.

Lemma isfile_lookup p w :
  sigint w = None ->
  isfile p w = (w, Ok (match files w !! p with Some _ => true | None => false end)).
Proof.
  intros H. unfold isfile. rewrite interruptible_none by exact H. unfold isfile_raw.
  destruct (files w !! p); reflexivity.
Qed.

(* ------------------------------------------------------------------ *)
(** ** C3: a File pass whose source is missing *)

(** C3 (counterexample).  Schema [[file "/nonexistent"; zeros]]: the File
    pass is skipped with a message, the run goes on, the Zeros pass spawns
    its writer, and the run completes normally. *)
Lemma c3_missing_file_not_fatal :
  let '(w', r) := run_schema quiet_writer [file_pass "/nonexistent"; zeros_pass] sdb
                    (fresh_world ∅ None) in
  r = Ok tt /\
  Out "Error: File not found at /nonexistent. Skipping this pass." ∈ trace w' /\
  Spawn (sh_argv "dd if=/dev/zero of=/dev/sdb bs=1M status=progress") ∈ trace w'.
Proof.
  vm_compute. split; [reflexivity|].
  split; apply list_elem_of_In; simpl; repeat (first [left; reflexivity | right]).
Qed.

(** C3 (amended).  A File pass whose source path names no existing file
    spawns no writer and raises nothing: after its header it prints
    "Error: File not found at <path>. Skipping this pass." and the runner
    continues with the next pass, numbered [S i]. *)
Theorem c3_missing_file_pass_skipped writer i pi rest device w p :
  sigint w = None -> p_type pi = "file" -> p_content pi = Some p -> files w !! p = None ->
  run_passes writer i (pi :: rest) device w =
  run_passes writer (S i) rest device
    (add_trace w [Out (running_msg i pi);
                  Out ("Error: File not found at " +:+ p +:+ ". Skipping this pass.")]).
Proof.
  intros Hs Ht Hc Hf. cbn [run_passes].
  rewrite mbind_unfold, print_none by exact Hs.
  rewrite mbind_unfold. unfold perform_pass. rewrite mbind_unfold.
  unfold pass_command. rewrite Ht, Hc.
  replace (bool_decide ("file" ∈ ["random"; "zeros"])) with false by reflexivity.
  replace (bool_decide ("file" ∈ ["ones"; "string"; "file"])) with true by reflexivity.
  rewrite mbind_unfold. unfold path_source. rewrite mbind_unfold.
  cbn [String.eqb isfile_opt Ascii.eqb Bool.eqb andb].
  rewrite mbind_unfold, isfile_none by exact Hs. cbn [files add_trace].
  rewrite Hf.
  replace (negb (bool_decide (is_Some (@None blob)))) with true by reflexivity.
  rewrite mbind_unfold, print_none by exact Hs. simpl pystr. rewrite add_trace_app. reflexivity.
Qed.

Lemma c3_missing_file_pass_skipped_witness :
  run_passes quiet_writer 1 [file_pass "/nonexistent"; zeros_pass] sdb (fresh_world ∅ None) =
  run_passes quiet_writer 2 [zeros_pass] sdb
    (add_trace (fresh_world ∅ None)
       [Out (running_msg 1 (file_pass "/nonexistent"));
        Out ("Error: File not found at " +:+ "/nonexistent" +:+ ". Skipping this pass.")]).
Proof.
  apply (c3_missing_file_pass_skipped quiet_writer 1 (file_pass "/nonexistent") [zeros_pass]
           sdb (fresh_world ∅ None) "/nonexistent"); reflexivity.
Defined.

(* ------------------------------------------------------------------ *)
(** ** C4: a String pass with empty content *)

(** C4 (counterexample).  Schema [[string ""]] on a fresh directory: the run
    ends in the unclassified [ZeroDivisionError] of [1024 * 1024 // len(content)],
    so the interpreter exits with status 1. *)
Lemma c4_empty_string_zero_division :
  let '(w', r) := run_schema quiet_writer [mkPass "string" (Some "") "1M" None] sdb
                    (fresh_world ∅ None) in
  r = Exc ZeroDivisionError /\ exit_status r = 1%Z /\ files w' !! string_tmp = Some [].
Proof. vm_compute. auto. Qed.

Lemma path_source_blank_absent device bs count w :
  sigint w = None -> files w !! string_tmp = None ->
  path_source "string" device bs count (Some "") w =
    (mkWorld (<[string_tmp := []]> (files w)) (temp_files w) (trace w) (sigint w),
     Exc ZeroDivisionError).
Proof.
  intros Hs E. unfold path_source. cbn [String.eqb Ascii.eqb Bool.eqb andb].
  rewrite mbind_unfold, mbind_unfold, isfile_lookup, E by exact Hs. cbn [negb].
  rewrite mbind_unfold, mbind_unfold, write_file_none by exact Hs. reflexivity.
Qed.

Lemma run_passes_app writer i pre post d w :
  run_passes writer i (pre ++ post) d w =
  match run_passes writer i pre d w with
  | (w1, Ok _) => run_passes writer (i + length pre) post d w1
  | (w1, Exc e) => (w1, Exc e)
  end.
Proof.
  revert i w. induction pre as [|pi pre IH]; intros i w.
  - cbn [app length]. rewrite Nat.add_0_r. reflexivity.
  - cbn [app run_passes]. rewrite !mbind_unfold.
    destruct (print (running_msg i pi) w) as [w1 [u|e]]; [|reflexivity].
    rewrite !mbind_unfold.
    destruct (perform_pass writer pi d w1) as [w2 [u'|e]]; [|reflexivity].
    rewrite IH. replace (S i + length pre)%nat with (i + length (pi :: pre))%nat
      by (cbn [length]; lia).
    reflexivity.
Qed.

(** C4 (amended).  For a String pass with content "": if string_source.tmp
    is absent, [path_source] creates it empty and raises [ZeroDivisionError]
    (no configuration error, and the file is not registered for cleanup);
    if it exists, it is reused as it is and the command over it is returned
    with no error.  In a run, whatever passes came before, a blank String
    pass reached with string_source.tmp absent raises the unhandled
    [ZeroDivisionError] out of [run_schema], so the interpreter exits with
    status 1: the pass spawns no writer, no later pass runs and "Disk
    preparation completed." is not printed. *)
Theorem c4_empty_string_unclassified device bs count w :
  sigint w = None ->
  (files w !! string_tmp = None ->
     path_source "string" device bs count (Some "") w =
       (mkWorld (<[string_tmp := []]> (files w)) (temp_files w) (trace w) (sigint w),
        Exc ZeroDivisionError)) /\
  (forall b, files w !! string_tmp = Some b ->
     path_source "string" device bs count (Some "") w =
       (mkWorld (files w) (temp_files w ++ [string_tmp]) (trace w) (sigint w),
        Ok (expected_command (mkPass "string" (Some "") bs count) device))) /\
  (forall writer pre post w1,
     run_passes writer 1 pre device w = (w1, Ok tt) ->
     sigint w1 = None -> files w1 !! string_tmp = None ->
     let blank := mkPass "string" (Some "") bs count in
     let r := run_schema writer (pre ++ blank :: post) device w in
     snd r = Exc ZeroDivisionError /\ exit_status (snd r) = 1%Z /\
     files (fst r) !! string_tmp = Some [] /\ temp_files (fst r) = temp_files w1 /\
     trace (fst r) = trace w1 ++ [Out (running_msg (S (length pre)) blank)]).
Proof.
  intros Hs. split; [|split].
  - apply path_source_blank_absent, Hs.
  - intros b E. unfold path_source. cbn [String.eqb Ascii.eqb Bool.eqb andb].
    rewrite mbind_unfold, mbind_unfold, isfile_lookup, E by exact Hs. cbn [negb].
    rewrite mbind_unfold. cbn [mret PyM_ret ret].
    rewrite mbind_unfold, register_temp_none by exact Hs. cbn [mret PyM_ret ret].
    unfold expected_command, source_path.
    cbn [p_type p_count p_block_size p_content String.eqb Ascii.eqb Bool.eqb andb].
    destruct (truthy count); reflexivity.
  - intros writer pre post w1 Hpre S1 F1. cbv zeta.
    unfold run_schema. rewrite mbind_unfold, run_passes_app, Hpre.
    cbn [run_passes]. rewrite mbind_unfold, print_none by exact S1.
    rewrite mbind_unfold. unfold perform_pass. rewrite mbind_unfold.
    unfold pass_command. cbn [p_type p_content p_block_size p_count].
    replace (bool_decide ("string" ∈ ["random"; "zeros"])) with false by reflexivity.
    replace (bool_decide ("string" ∈ ["ones"; "string"; "file"])) with true by reflexivity.
    rewrite mbind_unfold, path_source_blank_absent by first [exact S1 | exact F1].
    cbn [fst snd files temp_files trace sigint add_trace exit_status].
    split; [reflexivity | split; [reflexivity | split; [apply lookup_insert_eq|]]].
    split; reflexivity.
Qed.

Lemma c4_empty_string_unclassified_witness :
  path_source "string" sdb "1M" None (Some "") (fresh_world ∅ None) =
  (mkWorld (<[string_tmp := []]> ∅) [] [] None, Exc ZeroDivisionError) /\
  (let w1 := fst (run_passes quiet_writer 1 [zeros_pass] sdb (fresh_world ∅ None)) in
   let blank := mkPass "string" (Some "") "1M" None in
   let r := run_schema quiet_writer ([zeros_pass] ++ blank :: [ones_pass]) sdb
              (fresh_world ∅ None) in
   snd r = Exc ZeroDivisionError /\ exit_status (snd r) = 1%Z /\
   files (fst r) !! string_tmp = Some [] /\ temp_files (fst r) = temp_files w1 /\
   trace (fst r) = trace w1 ++ [Out (running_msg (S (length [zeros_pass])) blank)]).
Proof.
  split.
  - apply (proj1 (c4_empty_string_unclassified sdb "1M" None (fresh_world ∅ None) eq_refl)).
    reflexivity.
  - intros w1.
    exact (proj2 (proj2 (c4_empty_string_unclassified sdb "1M" None (fresh_world ∅ None) eq_refl))
             quiet_writer [zeros_pass] [ones_pass] w1 ltac:(unfold w1; vm_compute; reflexivity) eq_refl eq_refl).
Defined.

(* ------------------------------------------------------------------ *)
(** ** C6: the Ones and String buffers *)

(** C6 (code_bug).  Two String passes, content "AB" then content "CD"
    (block size 1M, no count), in a fresh directory: the second pass finds
    string_source.tmp from the first and keeps it, so its dd repeats "AB"
    across the disk, not the "CD" it was given. *)
Lemma c6_same_inputs_different_buffers :
  let after_ab := fst (path_source "string" sdb "1M" None (Some "AB") (fresh_world ∅ None)) in
  let '(w', r) := path_source "string" sdb "1M" None (Some "CD") after_ab in
  files w' !! string_tmp = Some (string_blob "AB") /\
  string_blob "AB" <> string_blob "CD" /\
  r = Ok (Some "while :; do cat string_source.tmp; done | dd of=/dev/sdb bs=1M status=progress").
Proof.
  vm_compute. split; [reflexivity | split; [intros H; discriminate H | reflexivity]].
Qed.

(** The temp file of a Ones or String pass after [path_source] is a
    function of the pass type, the content and the state of that file
    before ([generated_buffer]): the block size, the count and the device
    play no part.  An existing file is kept as it is; an absent one gets
    256 MiB of 0xFF bytes for Ones, and for String 256 chunks of the
    encoded content (left empty when the content is empty or missing). *)
Theorem buffer_from_prior_state pt device bs count content w :
  sigint w = None -> pt = "ones" \/ pt = "string" ->
  files (fst (path_source pt device bs count content w)) !! temp_of pt =
  generated_buffer pt content (files w !! temp_of pt).
Proof.
  intros Hs [-> | ->]; unfold path_source, temp_of, generated_buffer;
    cbn [String.eqb Ascii.eqb Bool.eqb andb].
  all: rewrite mbind_unfold, mbind_unfold, isfile_lookup by exact Hs.
  all: destruct (files w !! _) as [b|] eqn:E; cbn [negb].
  - rewrite mbind_unfold. cbn [mret PyM_ret ret].
    rewrite mbind_unfold, register_temp_none by exact Hs. cbn [mret PyM_ret ret].
    destruct (truthy count); exact E.
  - rewrite mbind_unfold, write_file_none by exact Hs.
    rewrite mbind_unfold, register_temp_none by exact Hs. cbn [mret PyM_ret ret].
    destruct (truthy count); apply lookup_insert_eq.
  - rewrite mbind_unfold. cbn [mret PyM_ret ret].
    rewrite mbind_unfold, register_temp_none by exact Hs. cbn [mret PyM_ret ret].
    destruct (truthy count); exact E.
  - rewrite mbind_unfold, mbind_unfold, write_file_none by exact Hs.
    destruct content as [c|].
    + destruct (Nat.eqb_spec (String.length c) 0) as [Hc|Hc].
      * cbn [write_string_chunks]. rewrite mbind_unfold. unfold string_chunk.
        rewrite (proj2 (Nat.eqb_eq _ _) Hc). apply lookup_insert_eq.
      * rewrite write_string_chunks_spec with (b0 := []) by first [exact Hs | exact Hc | apply lookup_insert_eq].
        rewrite mbind_unfold, register_temp_none by exact Hs. cbn [mret PyM_ret ret].
        destruct (truthy count); cbn [files]; rewrite insert_insert_eq; apply lookup_insert_eq.
    + apply lookup_insert_eq.
Qed.

Lemma buffer_from_prior_state_witness :
  files (fst (path_source "string" sdb "1M" None (Some "CD") (fresh_world ∅ None)))
    !! temp_of "string" =
  generated_buffer "string" (Some "CD") (files (fresh_world ∅ None) !! temp_of "string").
Proof.
  apply (buffer_from_prior_state "string" sdb "1M" None (Some "CD") (fresh_world ∅ None)).
  - reflexivity.
  - right. reflexivity.
Defined.

(* ------------------------------------------------------------------ *)
(** ** C9: unknown pass types *)

(** C9.  For a pass type other than random, zeros, ones, string and file,
    [perform_pass] reads [command] unassigned and raises
    [UnboundLocalError], with no step taken; [stream_source] does the same
    for a type other than random and zeros. *)
Theorem c9_unknown_type_unbound writer :
  (forall pi device w, p_type pi ∉ ["random"; "zeros"; "ones"; "string"; "file"] ->
     perform_pass writer pi device w = (w, Exc (UnboundLocalError "command"))) /\
  (forall pt device bs count w, pt ∉ ["random"; "zeros"] ->
     stream_source pt device bs count w = (w, Exc (UnboundLocalError "command"))).
Proof.
  split.
  - intros pi device w H. unfold perform_pass, pass_command.
    rewrite !bool_decide_eq_false_2.
    + reflexivity.
    + intros Hin. apply H. rewrite list_elem_of_In in Hin |- *. simpl in *. tauto.
    + intros Hin. apply H. rewrite list_elem_of_In in Hin |- *. simpl in *. tauto.
  - intros pt device bs count w H. unfold stream_source.
    rewrite (proj2 (String.eqb_neq pt "random")), (proj2 (String.eqb_neq pt "zeros")).
    + destruct (truthy count); reflexivity.
    + intros ->. apply H. rewrite list_elem_of_In. simpl. tauto.
    + intros ->. apply H. rewrite list_elem_of_In. simpl. tauto.
Qed.

Lemma c9_unknown_type_unbound_witness :
  perform_pass quiet_writer (mkPass "shred" None "1M" None) sdb (fresh_world ∅ None) =
  (fresh_world ∅ None, Exc (UnboundLocalError "command")).
Proof.
  apply (proj1 (c9_unknown_type_unbound quiet_writer)).
  rewrite list_elem_of_In. simpl. intuition discriminate.
Defined.

(* ------------------------------------------------------------------ *)
(** ** Commands, shell words and what dd copies *)







Lemma str_app_nil_r (s : string) : s +:+ "" = s.
Proof. induction s as [|x s IH]; [reflexivity|]. rewrite str_app_cons, IH. reflexivity. Qed.


Lemma G_spawns_refl ok w : G_spawns ok w w.
Proof. intros a H. now left. Qed.

Lemma G_spawns_trans ok w1 w2 w3 : G_spawns ok w1 w2 -> G_spawns ok w2 w3 -> G_spawns ok w1 w3.
Proof.
  intros H12 H23 a H. destruct (H23 a H) as [H2|H2]; [|now right]. exact (H12 a H2).
Qed.

Lemma G_spawns_sigint ok w o : G_spawns ok w (set_sigint w o).
Proof. intros a H. now left. Qed.

Lemma G_spawns_cleanup ok w rem :
  G_spawns ok w (mkWorld (fold_left (fun fs q => delete q fs) (temp_files w) (files w))
                         (temp_files w) (trace w ++ map Removed rem ++ [Out interrupted_msg])
                         (sigint w)).
Proof.
  intros a H. simpl in H. left.
  apply in_app_or in H as [H|H]; [exact H|].
  apply in_app_or in H as [H|[H|[]]]; [|discriminate].
  apply in_map_iff in H as [q [[=] _]].
Qed.

Lemma G_spawns_weaken (ok ok' : list string -> Prop) w w' :
  (forall a, ok a -> ok' a) -> G_spawns ok w w' -> G_spawns ok' w w'.
Proof. intros Hok H a Ha. destruct (H a Ha); [now left | right; auto]. Qed.

Lemma guar_spawns_weaken {A} (ok ok' : list string -> Prop) (m : PyM A) :
  (forall a, ok a -> ok' a) -> guar (G_spawns ok) m -> guar (G_spawns ok') m.
Proof. intros Hok Hm w w' r H. eapply G_spawns_weaken; [exact Hok | exact (Hm w w' r H)]. Qed.

Ltac spawns_interruptible ok :=
  apply (guar_interruptible (G_spawns ok) (G_spawns_trans ok) (G_spawns_sigint ok)
           (fun w rem _ => G_spawns_cleanup ok w rem)).

Section Spawns.
Variable ok : list string -> Prop.

Lemma spawns_emit e : (forall a, e = Spawn a -> ok a) -> guar (G_spawns ok) (emit e).
Proof.
  intros He. spawns_interruptible ok. intros w w' r [= <- _] a H. simpl in H.
  apply in_app_or in H as [H|[H|[]]]; [now left|]. right. now apply He.
Qed.
Lemma spawns_print s : guar (G_spawns ok) (print s).
Proof. apply spawns_emit. discriminate. Qed.
Lemma spawns_isfile p : guar (G_spawns ok) (isfile p).
Proof. spawns_interruptible ok. intros w w' r [= <- _] a H. now left. Qed.
Lemma spawns_isfile_opt p : guar (G_spawns ok) (isfile_opt p).
Proof. destruct p; [apply spawns_isfile | apply guar_raise, G_spawns_refl]. Qed.
Lemma spawns_write_file p b : guar (G_spawns ok) (write_file p b).
Proof. spawns_interruptible ok. intros w w' r [= <- _] a H. now left. Qed.
Lemma spawns_append_file p c : guar (G_spawns ok) (append_file p c).
Proof. spawns_interruptible ok. intros w w' r [= <- _] a H. now left. Qed.
Lemma spawns_register_temp p : guar (G_spawns ok) (register_temp p).
Proof. spawns_interruptible ok. intros w w' r [= <- _] a H. now left. Qed.
Lemma spawns_string_chunk c : guar (G_spawns ok) (string_chunk c).
Proof.
  unfold string_chunk. destruct c; [|apply guar_raise, G_spawns_refl].
  destruct (Nat.eqb _ _); [apply guar_raise | apply guar_ret]; apply G_spawns_refl.
Qed.

Create HintDb spawns.
#[local] Hint Resolve G_spawns_refl spawns_print spawns_isfile spawns_isfile_opt
  spawns_write_file spawns_append_file spawns_register_temp spawns_string_chunk : spawns.
#[local] Hint Extern 1 (guar _ (mret _)) => apply guar_ret, G_spawns_refl : spawns.
#[local] Hint Extern 1 (guar _ (raise _)) => apply guar_raise, G_spawns_refl : spawns.
#[local] Hint Extern 1 (guar _ (local_get _ _)) => apply guar_local_get, G_spawns_refl : spawns.

Ltac spawns_steps :=
  repeat first
    [ apply (guar_bind (G_spawns ok) (G_spawns_trans ok)); [|intros ?]
    | progress auto with spawns
    | match goal with
      | |- guar _ (if ?b then _ else _) => destruct b
      | |- guar _ (match ?x with _ => _ end) => destruct x
      end ].

Lemma spawns_write_string_chunks p n c : guar (G_spawns ok) (write_string_chunks p n c).
Proof. induction n; simpl; spawns_steps. Qed.

Lemma spawns_stream_source pt d bs count : guar (G_spawns ok) (stream_source pt d bs count).
Proof. unfold stream_source. spawns_steps. Qed.

#[local] Hint Resolve spawns_write_string_chunks : spawns.

Lemma spawns_path_source pt d bs count content :
  guar (G_spawns ok) (path_source pt d bs count content).
Proof. unfold path_source. spawns_steps. Qed.

#[local] Hint Resolve spawns_stream_source spawns_path_source : spawns.

Lemma spawns_pass_command pi d : guar (G_spawns ok) (pass_command pi d).
Proof. unfold pass_command. spawns_steps. Qed.

End Spawns.

Lemma spawns_execute_command writer c :
  guar (G_spawns (fun a => a = sh_argv c)) (execute_command writer c).
Proof.
  set (ok := fun a => a = sh_argv c).
  assert (Hd : forall lines argv, guar (G_spawns ok) (drain argv lines)).
  { induction lines; intros argv; simpl.
    - apply guar_ret, G_spawns_refl.
    - destruct (contains _ _).
      + apply (guar_bind (G_spawns ok) (G_spawns_trans ok)); [apply spawns_print | intros _].
        apply spawns_emit. discriminate.
      + apply (guar_bind (G_spawns ok) (G_spawns_trans ok)); [apply spawns_print | intros _].
        apply IHlines. }
  unfold execute_command. cbv zeta. apply (guar_try (G_spawns ok) (G_spawns_trans ok)).
  - apply (guar_bind (G_spawns ok) (G_spawns_trans ok)).
    + apply spawns_emit. intros a [= <-]. reflexivity.
    + intros _. destruct (writer (sh_argv c)) as [lines code].
      apply (guar_bind (G_spawns ok) (G_spawns_trans ok)); [apply Hd | intros _].
      apply spawns_emit. discriminate.
  - intros e. destruct e; simpl;
      repeat first [ apply (guar_bind (G_spawns ok) (G_spawns_trans ok)); [|intros ?]
                   | apply spawns_print | apply guar_raise, G_spawns_refl
                   | apply guar_ret, G_spawns_refl
                   | match goal with |- guar _ (if ?b then _ else _) => destruct b end ].
Qed.

Lemma triple_true {A} P (m : PyM A) : triple P m (fun _ _ => True).
Proof. intros w w' a _ _. exact I. Qed.

Lemma triple_isfile_opt P p : triple P (isfile_opt p) (fun _ _ => p <> None).
Proof. destruct p as [s|]; [intros w w' a _ _; discriminate | apply triple_raise]. Qed.

Lemma path_source_value pt d bs count content :
  pt = "ones" \/ pt = "string" \/ pt = "file" ->
  triple (fun _ => True) (path_source pt d bs count content)
    (fun x _ => forall c, x = Some c -> expected_command (mkPass pt content bs count) d = Some c).
Proof.
  intros Hpt.
  apply triple_bind with
    (R := fun tf _ => tf = None \/
                      exists src, tf = Some (Some src) /\
                                  source_path (mkPass pt content bs count) = Some src).
  - destruct Hpt as [-> | [-> | ->]]; cbn [String.eqb Ascii.eqb Bool.eqb andb].
    + repeat (apply triple_bind with (R := fun _ _ => True); [apply triple_true | intros ?]).
      apply triple_ret. intros _ _. right. eexists. split; reflexivity.
    + repeat (apply triple_bind with (R := fun _ _ => True); [apply triple_true | intros ?]).
      apply triple_ret. intros _ _. right. eexists. split; reflexivity.
    + apply triple_bind with (R := fun _ _ => content <> None); [apply triple_isfile_opt|].
      intros e. destruct (negb e).
      * apply triple_bind with (R := fun _ _ => True); [apply triple_true | intros _].
        apply triple_ret. intros _ _. now left.
      * apply triple_ret. intros w Hc. right. destruct content as [src|]; [|congruence].
        exists src. split; reflexivity.
  - intros tf w w' x [-> | [src [-> Hsrc]]] H.
    + injection H as _ <-. discriminate.
    + assert (Hexp : expected_command (mkPass pt content bs count) d =
                     if truthy count then
                       Some ("dd if=" +:+ src +:+ " of=" +:+ d +:+ " bs=" +:+ bs +:+
                             " count=" +:+ pystr count +:+ " status=progress")
                     else
                       Some ("while :; do cat " +:+ src +:+ "; done | dd of=" +:+ d +:+
                             " bs=" +:+ bs +:+ " status=progress")).
      { unfold expected_command. rewrite Hsrc.
        destruct Hpt as [-> | [-> | ->]]; reflexivity. }
      intros c [= <-]. rewrite Hexp. cbn [pystr] in H.
      destruct (truthy count); injection H as _ <-; reflexivity.
Qed.

Lemma pass_command_value pi d :
  triple (fun _ => True) (pass_command pi d)
    (fun x _ => forall c, x = Some (Some c) -> expected_command pi d = Some c).
Proof.
  unfold pass_command.
  destruct (bool_decide (p_type pi ∈ ["random"; "zeros"])) eqn:E1.
  - apply bool_decide_eq_true in E1.
    intros w w' x _ H c ->. rewrite mbind_unfold in H.
    unfold stream_source in H. rewrite !mbind_unfold in H.
    unfold expected_command.
    assert (Ht : p_type pi = "random" \/ p_type pi = "zeros").
    { rewrite list_elem_of_In in E1. simpl in E1. firstorder congruence. }
    destruct Ht as [Ht | Ht]; rewrite Ht in H |- *; cbn [String.eqb Ascii.eqb Bool.eqb andb] in H |- *;
      destruct (truthy (p_count pi)); cbn in H; injection H as _ <-;
      rewrite ?str_app_nil_r, ?str_app_assoc; reflexivity.
  - destruct (bool_decide (p_type pi ∈ ["ones"; "string"; "file"])) eqn:E2.
    + apply bool_decide_eq_true in E2.
      apply triple_bind with
        (R := fun x _ => forall c, x = Some c -> expected_command pi d = Some c).
      * destruct pi as [pt content bs count]. apply path_source_value.
        rewrite list_elem_of_In in E2. simpl in E2. firstorder congruence.
      * intros x. apply triple_ret. intros w H c Hc. injection Hc as ->. now apply H.
    + apply triple_ret. intros w _ c [=].
Qed.

Lemma spawns_perform_pass writer pi d :
  guar (G_spawns (fun a => exists c, expected_command pi d = Some c /\ a = sh_argv c))
       (perform_pass writer pi d).
Proof.
  set (ok := fun a => exists c, expected_command pi d = Some c /\ a = sh_argv c).
  intros w w' r H. unfold perform_pass in H. rewrite mbind_unfold in H.
  destruct (pass_command pi d w) as [w1 [x|e]] eqn:E.
  - pose proof (spawns_pass_command ok pi d w w1 (Ok x) E) as G1.
    pose proof (pass_command_value pi d w w1 x I E) as Hx.
    rewrite mbind_unfold in H. destruct x as [x|]; cbn [local_get mret PyM_ret ret] in H.
    + destruct x as [s|].
      * cbn [truthy pystr] in H. destruct (negb (String.eqb s "")).
        -- apply (G_spawns_trans ok w w1 w'); [exact G1|].
           apply (G_spawns_weaken (fun a => a = sh_argv s));
             [intros a ->; exists s; split; [apply Hx|]; reflexivity|].
           exact (spawns_execute_command writer s w1 w' r H).
        -- injection H as <- _. exact G1.
      * cbn [truthy] in H. injection H as <- _. exact G1.
    + injection H as <- _. exact G1.
  - injection H as <- _. exact (spawns_pass_command ok pi d w w1 (Exc e) E).
Qed.





(* ------------------------------------------------------------------ *)
(** ** C7: the writer is run through the shell *)

(** C7 (counterexample).  A device path holding a [;] is spliced into the
    f-string command, and [/bin/sh -c] reads it as two commands: the zeros
    pass on "/dev/sdb; reboot" spawns [/bin/sh -c "dd if=/dev/zero
    of=/dev/sdb; reboot bs=1M status=progress"]. *)
Lemma c7_device_injected :
  let '(w', r) := perform_pass quiet_writer (mkPass "zeros" None "1M" None) "/dev/sdb; reboot"
                    (fresh_world ∅ None) in
  Spawn (sh_argv "dd if=/dev/zero of=/dev/sdb; reboot bs=1M status=progress") ∈ trace w' /\
  sh_commands "dd if=/dev/zero of=/dev/sdb; reboot bs=1M status=progress" =
    ["dd if=/dev/zero of=/dev/sdb"; " reboot bs=1M status=progress"].
Proof.
  vm_compute. split; [|reflexivity].
  apply list_elem_of_In. simpl. repeat (first [left; reflexivity | right]).
Qed.

(** C7 (amended).  Every process a pass spawns is [/bin/sh -c c], where [c]
    is the command string the pass type interpolates from the device, block
    size, count and source path: the writer is never given a structured
    argument list. *)
Theorem c7_spawn_through_shell writer pi device w w' r argv :
  perform_pass writer pi device w = (w', r) ->
  In (Spawn argv) (trace w') -> ~ In (Spawn argv) (trace w) ->
  exists c, expected_command pi device = Some c /\ argv = sh_argv c.
Proof.
  intros H Hin Hnot.
  destruct (spawns_perform_pass writer pi device w w' r H argv Hin) as [?|Hc];
    [contradiction | exact Hc].
Qed.

Lemma c7_spawn_through_shell_witness :
  exists c, expected_command zeros_pass sdb = Some c /\
    sh_argv "dd if=/dev/zero of=/dev/sdb bs=1M status=progress" = sh_argv c.
Proof.
  apply (c7_spawn_through_shell quiet_writer zeros_pass sdb (fresh_world ∅ None)
           (fst (perform_pass quiet_writer zeros_pass sdb (fresh_world ∅ None)))
           (snd (perform_pass quiet_writer zeros_pass sdb (fresh_world ∅ None)))).
  - apply surjective_pairing.
  - vm_compute. repeat (first [left; reflexivity | right]).
  - vm_compute. tauto.
Defined.

(* ------------------------------------------------------------------ *)
(** ** C5: bounded passes *)

(** C5 (code_bug).  A File pass with block size 4 and count 2 over a
    3-byte file runs one [dd if=/data/p.bin ... bs=4 count=2]; dd stops at the
    end of the file after 3 bytes, not 2*4 = 8: the file is not repeated,
    while the same pass without a count repeats it through
    [while :; do cat /data/p.bin; done]. *)
Lemma c5_short_file_not_repeated :
  let w := fresh_world {[ "/data/p.bin" := user_blob ]} None in
  let '(w', r) := perform_pass quiet_writer short_file_pass sdb w in
  Spawn (sh_argv "dd if=/data/p.bin of=/dev/sdb bs=4 count=2 status=progress") ∈ trace w' /\
  dd_copied (files w') (words "dd if=/data/p.bin of=/dev/sdb bs=4 count=2 status=progress")
    = Copied 3 /\
  blob_size user_blob = 3%N /\ (2 * 4)%N = 8%N.
Proof.
  vm_compute. split; [|repeat split].
  apply list_elem_of_In. simpl. repeat (first [left; reflexivity | right]).
Qed.



(* ------------------------------------------------------------------ *)
(** ** Whole runs, the SIGINT handler and the String buffer *)

Lemma path_source_ok pt d bs cnt content w :
  sigint w = None ->
  pt = "ones" \/ (pt = "string" /\ exists c, content = Some c /\ c <> "") \/
  (pt = "file" /\ is_Some content) ->
  exists w1 x, path_source pt d bs cnt content w = (w1, Ok x) /\ sigint w1 = None /\
    temp_files w1 = temp_files w ++ registered_by pt.
Proof.
  intros Hs [-> | [[-> [c [-> Hc]]] | [-> [p ->]]]]; unfold path_source, registered_by;
    cbn [String.eqb Ascii.eqb Bool.eqb andb].
  - rewrite mbind_unfold, mbind_unfold, isfile_lookup by exact Hs.
    destruct (files w !! ones_tmp) eqn:E; cbn [negb].
    + rewrite mbind_unfold. cbn [mret PyM_ret ret].
      rewrite mbind_unfold, register_temp_none by exact Hs. cbn [mret PyM_ret ret].
      destruct (truthy cnt); eexists _, _; (split; [reflexivity | split; [exact Hs | reflexivity]]).
    + rewrite mbind_unfold, write_file_none by exact Hs.
      rewrite mbind_unfold, register_temp_none by exact Hs. cbn [mret PyM_ret ret].
      destruct (truthy cnt); eexists _, _; (split; [reflexivity | split; [exact Hs | reflexivity]]).
  - rewrite mbind_unfold, mbind_unfold, isfile_lookup by exact Hs.
    destruct (files w !! string_tmp) eqn:E; cbn [negb].
    + rewrite mbind_unfold. cbn [mret PyM_ret ret].
      rewrite mbind_unfold, register_temp_none by exact Hs. cbn [mret PyM_ret ret].
      destruct (truthy cnt); eexists _, _; (split; [reflexivity | split; [exact Hs | reflexivity]]).
    + rewrite mbind_unfold, mbind_unfold, write_file_none by exact Hs.
      assert (Hl : String.length c <> 0%nat) by (destruct c; [contradiction | discriminate]).
      rewrite write_string_chunks_spec with (b0 := []) by first [exact Hs | exact Hl | apply lookup_insert_eq].
      rewrite mbind_unfold, register_temp_none by exact Hs. cbn [mret PyM_ret ret].
      destruct (truthy cnt); eexists _, _; (split; [reflexivity | split; [exact Hs | reflexivity]]).
  - rewrite mbind_unfold, mbind_unfold. cbn [isfile_opt]. rewrite isfile_lookup by exact Hs.
    destruct (files w !! p) eqn:E; cbn [negb].
    + cbn [mret PyM_ret ret].
      destruct (truthy cnt); eexists _, _; (split; [reflexivity | split; [exact Hs | now rewrite app_nil_r]]).
    + rewrite mbind_unfold, print_none by exact Hs. cbn [mret PyM_ret ret].
      eexists _, _; (split; [reflexivity | split; [exact Hs | simpl; now rewrite app_nil_r]]).
Qed.

Lemma stream_source_ok pt d bs cnt w :
  pt = "random" \/ pt = "zeros" -> exists c, stream_source pt d bs cnt w = (w, Ok c).
Proof.
  intros [-> | ->]; unfold stream_source; cbn [String.eqb Ascii.eqb Bool.eqb andb];
    destruct (truthy cnt); eexists; reflexivity.
Qed.

Lemma pass_command_ok pi d w :
  sigint w = None -> runnable_pass pi = true ->
  exists w1 x, pass_command pi d w = (w1, Ok (Some x)) /\ sigint w1 = None /\
    temp_files w1 = temp_files w ++ registered_by (p_type pi).
Proof.
  intros Hs Hr. destruct pi as [pt content bs cnt].
  unfold runnable_pass in Hr. unfold pass_command. cbn [p_type p_content p_block_size p_count] in *.
  destruct (String.eqb_spec pt "random") as [->|N1];
  [|destruct (String.eqb_spec pt "zeros") as [->|N2]].
  1,2: rewrite bool_decide_eq_true_2 by (apply list_elem_of_In; simpl; tauto);
       rewrite mbind_unfold;
       match goal with
       | |- context [stream_source ?p _ _ _ _] =>
           destruct (stream_source_ok p d bs cnt w) as [c ->]; [tauto|]
       end;
       eexists _, _; split; [reflexivity | split; [exact Hs | now rewrite app_nil_r]].
  rewrite bool_decide_eq_false_2
    by (rewrite list_elem_of_In; simpl; intuition congruence).
  assert (Hp : pt = "ones" \/ (pt = "string" /\ exists c, content = Some c /\ c <> "") \/
               (pt = "file" /\ is_Some content)).
  { destruct (String.eqb_spec pt "ones") as [->|N3]; [now left|].
    cbn [orb] in Hr.
    destruct (String.eqb_spec pt "string") as [->|N4].
    - right; left. split; [reflexivity|]. destruct content as [c|]; [|discriminate].
      exists c. split; [reflexivity|]. intros ->. discriminate.
    - destruct (String.eqb_spec pt "file") as [->|N5]; [|discriminate].
      right; right. split; [reflexivity|]. destruct content; [eauto|discriminate]. }
  rewrite bool_decide_eq_true_2
    by (rewrite list_elem_of_In; simpl; intuition congruence).
  rewrite mbind_unfold.
  destruct (path_source_ok pt d bs cnt content w Hs Hp) as [w1 [x [-> [Hs1 Ht1]]]].
  eexists _, _. split; [reflexivity | split; assumption].
Qed.

Lemma perform_pass_ok writer pi d w :
  sigint w = None -> runnable_pass pi = true ->
  exists w', perform_pass writer pi d w = (w', Ok tt) /\ sigint w' = None /\
    temp_files w' = temp_files w ++ registered_by (p_type pi).
Proof.
  intros Hs Hr. unfold perform_pass. rewrite mbind_unfold.
  destruct (pass_command_ok pi d w Hs Hr) as [w1 [x [-> [Hs1 Ht1]]]].
  rewrite mbind_unfold. cbn [local_get mret PyM_ret ret].
  destruct (truthy x).
  - destruct (execute_command_world writer (pystr x) w1 Hs1) as [evs ->].
    eexists. split; [reflexivity | split; [exact Hs1 | exact Ht1]].
  - eexists. split; [reflexivity | split; [exact Hs1 | exact Ht1]].
Qed.

Lemma run_passes_ok writer i passes d w :
  sigint w = None -> Forall (fun pi => runnable_pass pi = true) passes ->
  exists w', run_passes writer i passes d w = (w', Ok tt) /\ sigint w' = None /\
    temp_files w' = temp_files w ++ flat_map (fun pi => registered_by (p_type pi)) passes.
Proof.
  revert i w. induction passes as [|pi rest IH]; intros i w Hs Hall.
  - exists w. split; [reflexivity | split; [exact Hs | now rewrite app_nil_r]].
  - inversion Hall as [|? ? Hpi Hrest]; subst. cbn [run_passes].
    rewrite mbind_unfold, print_none by exact Hs.
    rewrite mbind_unfold.
    destruct (perform_pass_ok writer pi d (add_trace w [Out (running_msg i pi)]) Hs Hpi)
      as [w1 [-> [Hs1 Ht1]]].
    destruct (IH (S i) w1 Hs1 Hrest) as [w2 [-> [Hs2 Ht2]]].
    exists w2. split; [reflexivity | split; [exact Hs2|]].
    rewrite Ht2, Ht1. cbn [flat_map]. simpl. now rewrite app_assoc.
Qed.

(** diskprep.py's pass loop and final message: without an interrupt, and
    with every dd run ending its stderr ([writer_ends]: each endless
    [while :; do cat] feed is ended by a device-full report), a schema of
    Random, Zeros, Ones, File and non-empty String passes runs to its end,
    the last thing printed is "Disk preparation completed.", and the temp
    files registered are those of the Ones and String passes, in order. *)
Theorem run_schema_completes writer passes d w :
  writer_ends writer ->
  sigint w = None -> Forall (fun pi => runnable_pass pi = true) passes ->
  exists w', run_schema writer passes d w = (w', Ok tt) /\
    last (trace w') = Some (Out "Disk preparation completed.") /\
    temp_files w' = temp_files w ++ flat_map (fun pi => registered_by (p_type pi)) passes.
Proof.
  intros _ Hs Hall. unfold run_schema. rewrite mbind_unfold.
  destruct (run_passes_ok writer 1 passes d w Hs Hall) as [w1 [-> [Hs1 Ht1]]].
  rewrite print_none by exact Hs1. eexists. split; [reflexivity|]. split.
  - cbn [add_trace trace]. apply last_snoc.
  - exact Ht1.
Qed.

Lemma remove_temp_files_once l w :
  exists rem,
    remove_temp_files l w =
      (mkWorld (fold_left (fun fs q => delete q fs) l (files w)) (temp_files w)
               (trace w ++ map Removed rem) (sigint w), Ok tt) /\
    NoDup rem /\ (forall p, In p rem <-> In p l /\ is_Some (files w !! p)).
Proof.
  revert w. induction l as [|t l IH]; intros w.
  - exists []. split; [destruct w; simpl; now rewrite app_nil_r|].
    split; [constructor|]. simpl. tauto.
  - simpl. rewrite mbind_unfold. unfold isfile_raw.
    destruct (bool_decide (is_Some (files w !! t))) eqn:Hf.
    + apply bool_decide_eq_true in Hf.
      rewrite mbind_unfold. unfold remove_raw.
      destruct (IH (mkWorld (delete t (files w)) (temp_files w) (trace w ++ [Removed t])
                            (sigint w))) as [rem [Heq [Hnd Hin]]].
      exists (t :: rem). rewrite Heq. cbn [files temp_files trace sigint] in *. split.
      * simpl. now rewrite <- app_assoc.
      * split.
        -- constructor; [|exact Hnd]. intros Ht. apply list_elem_of_In, Hin in Ht as [_ Ht].
           rewrite lookup_delete_eq in Ht. inversion Ht; discriminate.
        -- intros p. simpl. rewrite Hin. destruct (decide (p = t)) as [->|Hne].
           ++ tauto.
           ++ rewrite lookup_delete_ne by congruence. intuition congruence.
    + rewrite mbind_unfold. simpl.
      apply bool_decide_eq_false in Hf.
      assert (Hd : delete t (files w) = files w).
      { apply delete_id. destruct (files w !! t); [exfalso; apply Hf; eauto|reflexivity]. }
      destruct (IH w) as [rem [Heq [Hnd Hin]]]. exists rem. rewrite Heq, Hd.
      split; [reflexivity|]. split; [exact Hnd|].
      intros p. rewrite Hin. split; [tauto|].
      intros [[->|Hp] Hs]; [contradiction | tauto].
Qed.

(** The SIGINT handler [cleanup] removes each registered temp file that
    exists, exactly once even when it was registered several times, leaves
    every other file as it was, prints the interruption message and exits
    with status 0. *)
Theorem cleanup_removes_registered_once {A} w :
  exists rem,
    cleanup (A:=A) w =
      (mkWorld (fold_left (fun fs q => delete q fs) (temp_files w) (files w)) (temp_files w)
               (trace w ++ map Removed rem ++ [Out interrupted_msg]) (sigint w),
       Exc (SystemExit 0%Z)) /\
    NoDup rem /\ (forall p, In p rem <-> In p (temp_files w) /\ is_Some (files w !! p)) /\
    (forall p, fold_left (fun fs q => delete q fs) (temp_files w) (files w) !! p =
               if bool_decide (p ∈ temp_files w) then None else files w !! p).
Proof.
  unfold cleanup. rewrite mbind_unfold. cbv beta iota delta [get_temp_files].
  rewrite mbind_unfold.
  destruct (remove_temp_files_once (temp_files w) w) as [rem [-> [Hnd Hin]]].
  exists rem. split; [|split; [exact Hnd | split; [exact Hin | intros p; apply lookup_fold_delete]]].
  rewrite mbind_unfold. simpl. now rewrite <- app_assoc.
Qed.

Lemma length_encode_ascii c :
  Forall (fun a => (nat_of_ascii a < 128)%nat) (list_ascii_of_string c) ->
  length (encode c) = String.length c.
Proof.
  unfold encode. induction c as [|a c IH]; intros Ha; [reflexivity|].
  cbn [list_ascii_of_string flat_map String.length] in *.
  apply Forall_cons in Ha as [Ha Hc].
  assert (E : (Z.of_nat (nat_of_ascii a) <? 128)%Z = true) by (apply Z.ltb_lt; lia).
  rewrite E, length_app, IH by exact Hc. reflexivity.
Qed.

Lemma blob_size_repeat u k n :
  blob_size (repeat (u, k) n) = (N.of_nat n * (N.of_nat (length u) * k))%N.
Proof. induction n as [|n IH]; [reflexivity|]. cbn [repeat blob_size fold_right fst snd].
  unfold blob_size in IH. rewrite IH. lia. Qed.

(** A String pass with a non-empty ASCII content [c] and no existing
    buffer file fills string_source.tmp with 256 chunks, each [c.encode()]
    repeated [1024 * 1024 // len(c)] times ([string_blob c]): at most
    256 MiB, and exactly 256 MiB iff [len(c)] divides 1 MiB. *)
Theorem string_buffer_size d bs cnt c w :
  sigint w = None -> files w !! string_tmp = None -> c <> "" ->
  Forall (fun a => (nat_of_ascii a < 128)%nat) (list_ascii_of_string c) ->
  files (fst (path_source "string" d bs cnt (Some c) w)) !! string_tmp = Some (string_blob c) /\
  blob_size (string_blob c) = (256 * (N.of_nat (String.length c) *
                                      (1024 * 1024 / N.of_nat (String.length c))))%N /\
  (blob_size (string_blob c) <= 256 * 1024 * 1024)%N /\
  (blob_size (string_blob c) = 256 * 1024 * 1024 <->
   (1024 * 1024) mod N.of_nat (String.length c) = 0)%N.
Proof.
  intros Hs E Hc Ha. unfold path_source. cbn [String.eqb Ascii.eqb Bool.eqb andb].
  rewrite mbind_unfold, mbind_unfold, isfile_lookup, E by exact Hs. cbn [negb].
  rewrite mbind_unfold, mbind_unfold, write_file_none by exact Hs.
  assert (Hl : String.length c <> 0%nat) by (destruct c; [contradiction | discriminate]).
  rewrite write_string_chunks_spec with (b0 := []) by first [exact Hs | exact Hl | apply lookup_insert_eq].
  rewrite mbind_unfold, register_temp_none by exact Hs. cbn [mret PyM_ret ret].
  split.
  { destruct (truthy cnt); cbn [fst files]; rewrite insert_insert_eq, app_nil_l;
      apply lookup_insert_eq. }
  unfold string_blob. rewrite blob_size_repeat. change (N.of_nat 256) with 256%N.
  rewrite (length_encode_ascii c Ha).
  set (L := N.of_nat (String.length c)).
  assert (HL : L <> 0%N) by (unfold L; lia).
  pose proof (N.div_mod (1024 * 1024) L HL) as Hdm.
  pose proof (N.mod_lt (1024 * 1024) L HL) as Hlt.
  remember (L * (1024 * 1024 / L))%N as X.
  remember ((1024 * 1024) mod L)%N as r.
  split; [reflexivity|]. split; lia.
Qed.

(* ------------------------------------------------------------------ *)
(** ** Standard input and steps that only print *)

Lemma io_bind_unfold {A B} (m : IO A) (k : A -> IO B) inp w :
  (m ≫= k) inp w = match m inp w with
                   | (w', Ok p) => k (fst p) (snd p) w'
                   | (w', Exc e) => (w', Exc e)
                   end.
Proof. reflexivity. Qed.

Lemma lift_unfold {A} (m : PyM A) inp w :
  lift m inp w = match m w with
                 | (w', Ok a) => (w', Ok (a, inp))
                 | (w', Exc e) => (w', Exc e)
                 end.
Proof. reflexivity. Qed.

Section Quiet.
Variable ok : event -> Prop.

Lemma quiet_ret {A} (a : A) : quiet ok (mret a).
Proof. intros w _. exists [], (Ok a). split; [constructor|]. now rewrite add_trace_nil. Qed.

Lemma quiet_raise {A} e : quiet ok (raise (A:=A) e).
Proof. intros w _. exists [], (Exc e). split; [constructor|]. now rewrite add_trace_nil. Qed.

Lemma quiet_bind {A B} (m : PyM A) (k : A -> PyM B) :
  quiet ok m -> (forall a, quiet ok (k a)) -> quiet ok (m ≫= k).
Proof.
  intros Hm Hk w Hs. rewrite mbind_unfold.
  destruct (Hm w Hs) as [e1 [[a|e] [Ho1 ->]]].
  - destruct (Hk a (add_trace w e1) Hs) as [e2 [r [Ho2 ->]]].
    exists (e1 ++ e2), r. split; [now apply Forall_app|]. now rewrite add_trace_app.
  - exists e1, (Exc e). split; [exact Ho1 | reflexivity].
Qed.

Lemma quiet_emit e : ok e -> quiet ok (emit e).
Proof. intros He w Hs. exists [e], (Ok tt). split; [now constructor|]. now apply emit_none. Qed.

Lemma quiet_isfile p : quiet ok (isfile p).
Proof.
  intros w Hs. rewrite isfile_lookup by exact Hs. eexists [], _.
  split; [constructor|]. now rewrite add_trace_nil.
Qed.

Lemma ioquiet_ret {A} (a : A) : ioquiet ok (mret a).
Proof. intros inp. apply quiet_ret. Qed.

Lemma ioquiet_lift {A} (m : PyM A) : quiet ok m -> ioquiet ok (lift m).
Proof. intros Hm inp. apply quiet_bind; [exact Hm | intros a; apply quiet_ret]. Qed.

Lemma ioquiet_bind {A B} (m : IO A) (k : A -> IO B) :
  ioquiet ok m -> (forall a, ioquiet ok (k a)) -> ioquiet ok (m ≫= k).
Proof.
  intros Hm Hk inp w Hs. rewrite io_bind_unfold.
  destruct (Hm inp w Hs) as [e1 [[[a rest]|e] [Ho1 ->]]].
  - cbn [fst snd]. destruct (Hk a rest (add_trace w e1) Hs) as [e2 [r [Ho2 ->]]].
    exists (e1 ++ e2), r. split; [now apply Forall_app|]. now rewrite add_trace_app.
  - exists e1, (Exc e). split; [exact Ho1 | reflexivity].
Qed.

Hypothesis ok_out : forall s, ok (Out s).

Lemma quiet_print s : quiet ok (print s).
Proof. apply quiet_emit, ok_out. Qed.

Lemma ioquiet_input p : ioquiet ok (input p).
Proof.
  intros inp. apply quiet_bind; [apply quiet_print|]. intros _.
  destruct inp; [apply quiet_raise | apply quiet_ret].
Qed.

Lemma quiet_pass_menu h : quiet ok (pass_menu h).
Proof. unfold pass_menu. repeat (apply quiet_bind; [apply quiet_print | intros _]). apply quiet_print. Qed.

Lemma quiet_print_schema i ps : quiet ok (print_schema i ps).
Proof.
  revert i. induction ps as [|p ps IH]; intros i; [apply quiet_ret|]. cbn [print_schema].
  apply quiet_bind; [|intros l; apply quiet_bind; [apply quiet_print | intros _; apply IH]].
  unfold schema_line. apply quiet_bind; [|intros; apply quiet_ret].
  destruct (String.eqb (p_type p) "string"); [destruct (p_content p); [apply quiet_ret | apply quiet_raise]|].
  destruct (String.eqb (p_type p) "file"); apply quiet_ret.
Qed.

Lemma ioquiet_read_content pt : ioquiet ok (read_content pt).
Proof.
  unfold read_content.
  destruct (String.eqb pt "string");
    [apply ioquiet_bind; [apply ioquiet_input | intros; apply ioquiet_ret]|].
  destruct (String.eqb pt "file"); [|apply ioquiet_ret].
  apply ioquiet_bind; [apply ioquiet_input | intros s].
  apply ioquiet_bind; [apply ioquiet_lift, quiet_isfile | intros [|]]; [apply ioquiet_ret|].
  apply ioquiet_bind; [apply ioquiet_lift, quiet_print | intros; apply ioquiet_ret].
Qed.

End Quiet.

Lemma ioquiet_configure_loop f ps : ioquiet (fun e => exists s, e = Out s) (configure_loop f ps).
Proof.
  assert (Ho : forall s, (fun e => exists s, e = Out s) (Out s)) by eauto.
  revert ps. induction f as [|f IH]; intros ps; cbn [configure_loop].
  { apply ioquiet_lift, quiet_raise. }
  apply ioquiet_bind; [apply ioquiet_lift, quiet_pass_menu, Ho | intros _].
  apply ioquiet_bind; [apply ioquiet_input, Ho | intros c].
  destruct (String.eqb _ "done"); [apply ioquiet_ret|].
  destruct (pass_type_of _) as [pt|].
  2: { apply ioquiet_bind; [apply ioquiet_lift, quiet_print, Ho | intros _; apply IH]. }
  apply ioquiet_bind; [apply ioquiet_read_content, Ho | intros [content|]]; [|apply IH].
  apply ioquiet_bind; [apply ioquiet_input, Ho | intros bs].
  apply ioquiet_bind; [apply ioquiet_input, Ho | intros cnt].
  apply ioquiet_bind; [|intros _; apply IH].
  apply ioquiet_lift, quiet_bind; [apply quiet_print, Ho | intros _; apply quiet_print_schema, Ho].
Qed.

Lemma io_bind_ok_inv {A B} (m : IO A) (k : A -> IO B) inp w w' r :
  (m ≫= k) inp w = (w', Ok r) ->
  exists w1 a rest, m inp w = (w1, Ok (a, rest)) /\ k a rest w1 = (w', Ok r).
Proof.
  rewrite io_bind_unfold. destruct (m inp w) as [w1 [[a rest]|e]]; [|discriminate].
  intros H. exists w1, a, rest. split; [reflexivity | exact H].
Qed.

Lemma lift_ok_inv {A} (m : PyM A) inp w w' a rest :
  lift m inp w = (w', Ok (a, rest)) -> m w = (w', Ok a) /\ rest = inp.
Proof.
  rewrite lift_unfold. destruct (m w) as [w1 [b|e]]; [|discriminate].
  intros [= -> -> ->]. split; reflexivity.
Qed.

Lemma input_ok_inv p inp w w' l rest :
  sigint w = None -> input p inp w = (w', Ok (l, rest)) ->
  inp = l :: rest /\ w' = add_trace w [Out p].
Proof.
  intros Hs. unfold input. rewrite mbind_unfold, print_none by exact Hs.
  destruct inp as [|x r]; [discriminate|]. intros [= <- <- <-]. split; reflexivity.
Qed.

Lemma quiet_world {A} ok (m : PyM A) w w' r :
  quiet ok m -> sigint w = None -> m w = (w', r) ->
  files w' = files w /\ temp_files w' = temp_files w /\ sigint w' = None.
Proof.
  intros Hq Hs H. destruct (Hq w Hs) as [evs [r' [_ Heq]]]. rewrite Heq in H.
  injection H as <- _. split; [reflexivity | split; [reflexivity | exact Hs]].
Qed.

Ltac io_ret_simpl H := cbv beta iota delta [mret IO_ret io_ret PyM_ret ret] in H.

Lemma read_content_ok_inv pt inp w w' c rest :
  sigint w = None -> read_content pt inp w = (w', Ok (c, rest)) ->
  files w' = files w /\ sigint w' = None /\ (exists pre, inp = pre ++ rest) /\
  match c with
  | Some c =>
      (pt = "string" /\ is_Some c) \/
      (pt = "file" /\ exists p, c = Some p /\ is_Some (files w !! p)) \/
      (pt <> "string" /\ pt <> "file" /\ c = None)
  | None => True
  end.
Proof.
  intros Hs. unfold read_content.
  destruct (String.eqb_spec pt "string") as [->|N1].
  - intros H. apply io_bind_ok_inv in H as [w1 [s [r1 [H1 H2]]]].
    apply input_ok_inv in H1 as [-> ->]; [|exact Hs].
    io_ret_simpl H2. injection H2 as <- <- <-.
    split; [reflexivity | split; [exact Hs | split; [exists [s]; reflexivity | left; split; [reflexivity | eauto]]]].
  - destruct (String.eqb_spec pt "file") as [->|N2].
    + intros H. apply io_bind_ok_inv in H as [w1 [s [r1 [H1 H2]]]].
      apply input_ok_inv in H1 as [-> ->]; [|exact Hs].
      apply io_bind_ok_inv in H2 as [w2 [b [r2 [H2 H3]]]].
      apply lift_ok_inv in H2 as [H2 ->].
      rewrite isfile_lookup in H2 by exact Hs. injection H2 as <- <-.
      destruct (files w !! strip s) eqn:E.
      * io_ret_simpl H3. injection H3 as <- <- <-.
        split; [reflexivity | split; [exact Hs | split; [exists [s]; reflexivity|]]].
        right; left. split; [reflexivity|]. exists (strip s). split; [reflexivity|].
        exact (ex_intro _ _ E).
      * apply io_bind_ok_inv in H3 as [w3 [u [r3 [H3 H4]]]].
        apply lift_ok_inv in H3 as [H3 ->]. rewrite print_none in H3 by exact Hs.
        injection H3 as <-. io_ret_simpl H4. injection H4 as <- <- <-.
        split; [reflexivity | split; [exact Hs | split; [exists [s]; reflexivity | exact I]]].
    + intros H. io_ret_simpl H. injection H as <- <- <-.
      split; [reflexivity | split; [exact Hs | split; [exists []; reflexivity|]]].
      right; right. tauto.
Qed.

Lemma pass_type_of_some c pt :
  pass_type_of c = Some pt ->
  pt = "random" \/ pt = "zeros" \/ pt = "ones" \/ pt = "string" \/ pt = "file".
Proof.
  unfold pass_type_of.
  repeat match goal with |- context [if ?b then _ else _] => destruct b end;
    intros [= <-]; tauto.
Qed.

Lemma out_ok s : (fun e => exists s, e = Out s) (Out s).
Proof. exists s. reflexivity. Qed.

Lemma configure_loop_result f ps inp w w' ps' rest :
  sigint w = None -> configure_loop f ps inp w = (w', Ok (ps', rest)) ->
  (exists new, ps' = ps ++ new /\ Forall (configured_pass (files w)) new) /\
  (exists pre l, inp = pre ++ l :: rest /\ lower (strip l) = "done").
Proof.
  revert ps inp w. induction f as [|f IH]; intros ps inp w Hs H; cbn [configure_loop] in H.
  { rewrite lift_unfold in H. discriminate H. }
  apply io_bind_ok_inv in H as [w1 [u [r1 [H1 H]]]]. apply lift_ok_inv in H1 as [H1 ->].
  destruct (quiet_world _ _ _ _ _ (quiet_pass_menu _ out_ok _) Hs H1) as [F1 [_ S1]].
  apply io_bind_ok_inv in H as [w2 [c [r2 [H2 H]]]].
  apply input_ok_inv in H2 as [-> Hw2]; [|exact S1].
  assert (F2 : files w2 = files w) by (rewrite Hw2; exact F1).
  assert (S2 : sigint w2 = None) by (rewrite Hw2; exact S1). clear Hw2.
  destruct (String.eqb_spec (lower (strip c)) "done") as [Hd|Hd].
  { io_ret_simpl H. injection H as <- <- <-. split.
    - exists []. rewrite app_nil_r. split; [reflexivity | constructor].
    - exists [], c. split; [reflexivity | exact Hd]. }
  destruct (pass_type_of (lower (strip c))) as [pt|] eqn:Ept.
  2: { apply io_bind_ok_inv in H as [w3 [u3 [r3 [H3 H]]]]. apply lift_ok_inv in H3 as [H3 ->].
       rewrite print_none in H3 by exact S2. injection H3 as <-.
       apply IH in H as [Hn [pre [l [-> Hl]]]]; [|exact S2].
       split; [cbn [files add_trace] in Hn; rewrite F2 in Hn; exact Hn|]. exists (c :: pre), l. split; [reflexivity | exact Hl]. }
  apply io_bind_ok_inv in H as [w3 [content [r3 [H3 H]]]].
  destruct (read_content_ok_inv _ _ _ _ _ _ S2 H3) as [F3 [S3 [[pre3 ->] Hc]]].
  rewrite F2 in Hc, F3.
  destruct content as [content|].
  2: { apply IH in H as [Hn [pre [l [-> Hl]]]]; [|exact S3].
       split; [rewrite F3 in Hn; exact Hn|].
       exists (c :: pre3 ++ pre), l. split; [simpl; now rewrite <- app_assoc | exact Hl]. }
  apply io_bind_ok_inv in H as [w4 [bs [r4 [H4 H]]]].
  apply input_ok_inv in H4 as [-> Hw4]; [|exact S3].
  assert (F4 : files w4 = files w) by (rewrite Hw4; exact F3).
  assert (S4 : sigint w4 = None) by (rewrite Hw4; exact S3). clear Hw4.
  apply io_bind_ok_inv in H as [w5 [cnt [r5 [H5 H]]]].
  apply input_ok_inv in H5 as [-> Hw5]; [|exact S4].
  assert (F5 : files w5 = files w) by (rewrite Hw5; exact F4).
  assert (S5 : sigint w5 = None) by (rewrite Hw5; exact S4). clear Hw5.
  cbv beta zeta in H.
  apply io_bind_ok_inv in H as [w6 [u6 [r6 [H6 H]]]]. apply lift_ok_inv in H6 as [H6 ->].
  destruct (quiet_world _ _ _ _ _
              (quiet_bind _ _ _ (quiet_print _ out_ok _) (fun _ => quiet_print_schema _ out_ok _ _))
              S5 H6) as [F6 [_ S6]].
  apply IH in H as [[new [-> Hnew]] [pre [l [Hinp Hl]]]]; [|exact S6].
  split.
  - eexists. rewrite <- app_assoc. split; [reflexivity|]. constructor.
    + split; [|split].
      * destruct (pass_type_of_some _ _ Ept) as [ -> | [ -> | [ -> | [ -> | -> ]]]];
          cbn [p_type p_content] in *; intuition congruence.
      * cbn [p_block_size]. destruct (String.eqb_spec (strip bs) ""); [discriminate | assumption].
      * cbn [p_count]. destruct (String.eqb_spec (strip cnt) ""); [discriminate|].
        congruence.
    + rewrite F6, F5 in Hnew. exact Hnew.
  - exists (c :: pre3 ++ bs :: cnt :: pre), l. split; [|exact Hl].
    rewrite Hinp. simpl. now rewrite <- app_assoc.
Qed.

(* ------------------------------------------------------------------ *)
(** ** diskprep.py's [configure_passes] *)

Lemma io_bind_exc_inv {A B} (m : IO A) (k : A -> IO B) inp w w' e :
  (m ≫= k) inp w = (w', Exc e) ->
  m inp w = (w', Exc e) \/
  exists w1 a rest, m inp w = (w1, Ok (a, rest)) /\ k a rest w1 = (w', Exc e).
Proof.
  rewrite io_bind_unfold. destruct (m inp w) as [w1 [[a rest]|e1]].
  - intros H. right. exists w1, a, rest. split; [reflexivity | exact H].
  - intros H. left. injection H as -> ->. reflexivity.
Qed.

Lemma lift_exc_inv {A} (m : PyM A) inp w w' e :
  lift m inp w = (w', Exc e) -> m w = (w', Exc e).
Proof.
  rewrite lift_unfold. destruct (m w) as [w1 [b|e1]]; [discriminate|].
  intros H. injection H as -> ->. reflexivity.
Qed.

Lemma input_exc_inv p inp w w' e :
  sigint w = None -> input p inp w = (w', Exc e) -> inp = [] /\ e = EOFError.
Proof.
  intros Hs. unfold input. rewrite mbind_unfold, print_none by exact Hs.
  destruct inp as [|x r]; [|discriminate]. intros [= _ <-]. split; reflexivity.
Qed.

Lemma pass_menu_none h w :
  sigint w = None -> exists evs, pass_menu h w = (add_trace w evs, Ok tt).
Proof.
  intros Hs. unfold pass_menu.
  repeat (rewrite mbind_unfold, print_none by exact Hs).
  rewrite print_none by exact Hs. eexists. repeat rewrite add_trace_app. reflexivity.
Qed.

Lemma configured_has_content fs p : configured_pass fs p -> string_has_content p.
Proof.
  intros [[[Ht _] | [[_ Hc] | [Hf _]]] _] E.
  - destruct Ht as [H|[H|H]]; rewrite E in H; discriminate.
  - exact Hc.
  - rewrite E in Hf. discriminate.
Qed.

Lemma schema_line_ok i p w :
  string_has_content p -> exists s, schema_line i p w = (w, Ok s).
Proof.
  intros Hc. unfold schema_line. rewrite mbind_unfold.
  destruct (String.eqb_spec (p_type p) "string") as [E|E].
  - destruct (Hc E) as [c ->]. eexists. reflexivity.
  - destruct (String.eqb (p_type p) "file"); eexists; reflexivity.
Qed.

Lemma print_schema_ok i ps w :
  sigint w = None -> Forall string_has_content ps ->
  exists evs, print_schema i ps w = (add_trace w evs, Ok tt).
Proof.
  revert i w. induction ps as [|p ps IH]; intros i w Hs Hall.
  - exists []. now rewrite add_trace_nil.
  - inversion Hall as [|? ? Hp Hps]; subst. cbn [print_schema].
    rewrite mbind_unfold. destruct (schema_line_ok i p w Hp) as [s ->].
    rewrite mbind_unfold, print_none by exact Hs.
    destruct (IH (S i) (add_trace w [Out s]) Hs Hps) as [evs ->].
    eexists. now rewrite add_trace_app.
Qed.

Lemma read_content_exc pt inp w w' e :
  sigint w = None -> read_content pt inp w = (w', Exc e) -> e = EOFError.
Proof.
  intros Hs. unfold read_content.
  destruct (String.eqb pt "string").
  - intros H. apply io_bind_exc_inv in H as [H|[w1 [s [r1 [H1 H2]]]]].
    + now apply input_exc_inv in H.
    + discriminate H2.
  - destruct (String.eqb pt "file"); [|discriminate].
    intros H. apply io_bind_exc_inv in H as [H|[w1 [s [r1 [H1 H2]]]]].
    + now apply input_exc_inv in H.
    + apply input_ok_inv in H1 as [_ ->]; [|exact Hs].
      apply io_bind_exc_inv in H2 as [H2|[w2 [b [r2 [H2 H3]]]]].
      * apply lift_exc_inv in H2. rewrite isfile_lookup in H2 by exact Hs. discriminate.
      * apply lift_ok_inv in H2 as [H2 _]. rewrite isfile_lookup in H2 by exact Hs.
        injection H2 as <- _.
        destruct b; [discriminate|].
        apply io_bind_exc_inv in H3 as [H3|[w3 [u [r3 [H3 H4]]]]]; [|discriminate].
        apply lift_exc_inv in H3. rewrite print_none in H3 by exact Hs. discriminate.
Qed.

Lemma configure_loop_exc f ps inp w w' e :
  sigint w = None -> Forall string_has_content ps ->
  configure_loop f ps inp w = (w', Exc e) -> e = EOFError.
Proof.
  revert ps inp w. induction f as [|f IH]; intros ps inp w Hs Hall H; cbn [configure_loop] in H.
  { rewrite lift_unfold in H. now injection H. }
  apply io_bind_exc_inv in H as [H|[w1 [u [r1 [H1 H]]]]].
  { apply lift_exc_inv in H. destruct (pass_menu_none "Available pass types:" w Hs) as [evs E].
    rewrite E in H. discriminate. }
  apply lift_ok_inv in H1 as [H1 ->].
  destruct (quiet_world _ _ _ _ _ (quiet_pass_menu _ out_ok _) Hs H1) as [_ [_ S1]].
  apply io_bind_exc_inv in H as [H|[w2 [c [r2 [H2 H]]]]].
  { now apply input_exc_inv in H. }
  apply input_ok_inv in H2 as [-> Hw2]; [|exact S1].
  assert (S2 : sigint w2 = None) by (rewrite Hw2; exact S1). clear Hw2.
  destruct (String.eqb (lower (strip c)) "done"); [discriminate|].
  destruct (pass_type_of (lower (strip c))) as [pt|] eqn:Ept.
  2: { apply io_bind_exc_inv in H as [H|[w3 [u3 [r3 [H3 H]]]]].
       - apply lift_exc_inv in H. rewrite print_none in H by exact S2. discriminate.
       - apply lift_ok_inv in H3 as [H3 ->]. rewrite print_none in H3 by exact S2.
         injection H3 as <-. eapply IH; [ | exact Hall | exact H]; exact S2. }
  apply io_bind_exc_inv in H as [H|[w3 [content [r3 [H3 H]]]]].
  { exact (read_content_exc _ _ _ _ _ S2 H). }
  destruct (read_content_ok_inv _ _ _ _ _ _ S2 H3) as [_ [S3 [_ Hc]]].
  destruct content as [content|].
  2: { eapply IH; [ | exact Hall | exact H]; exact S3. }
  apply io_bind_exc_inv in H as [H|[w4 [bs [r4 [H4 H]]]]].
  { now apply input_exc_inv in H. }
  apply input_ok_inv in H4 as [-> Hw4]; [|exact S3].
  assert (S4 : sigint w4 = None) by (rewrite Hw4; exact S3). clear Hw4.
  apply io_bind_exc_inv in H as [H|[w5 [cnt [r5 [H5 H]]]]].
  { now apply input_exc_inv in H. }
  apply input_ok_inv in H5 as [-> Hw5]; [|exact S4].
  assert (S5 : sigint w5 = None) by (rewrite Hw5; exact S4). clear Hw5.
  cbv beta zeta in H.
  match type of H with
  | context [configure_loop f ?ps'] =>
      assert (Hall' : Forall string_has_content ps')
  end.
  { apply Forall_app. split; [exact Hall|]. constructor; [|constructor].
    intros E. cbn [p_type p_content] in *.
    destruct Hc as [[_ Hc] | [[-> _] | [Hn _]]]; [exact Hc | discriminate | contradiction]. }
  apply io_bind_exc_inv in H as [H|[w6 [u6 [r6 [H6 H]]]]].
  - apply lift_exc_inv in H. rewrite mbind_unfold, print_none in H by exact S5.
    match type of H with
    | context [print_schema 1 _ ?w0] =>
        destruct (print_schema_ok 1 _ w0 S5 Hall') as [evs E]; rewrite E in H; discriminate
    end.
  - apply lift_ok_inv in H6 as [H6 ->].
    destruct (quiet_world _ _ _ _ _
                (quiet_bind _ _ _ (quiet_print _ out_ok _) (fun _ => quiet_print_schema _ out_ok _ _))
                S5 H6) as [_ [_ S6]].
    eapply IH; [ | exact Hall' | exact H]; exact S6.
Qed.

Lemma quiet_result {A} ok (m : PyM A) w w' r :
  quiet ok m -> sigint w = None -> m w = (w', r) ->
  files w' = files w /\ temp_files w' = temp_files w /\ sigint w' = None /\
  exists evs, trace w' = trace w ++ evs /\ Forall ok evs.
Proof.
  intros Hq Hs H. destruct (Hq w Hs) as [evs [r' [Ho Heq]]]. rewrite Heq in H.
  injection H as <- _. split; [reflexivity | split; [reflexivity | split; [exact Hs|]]].
  exists evs. split; [reflexivity | exact Ho].
Qed.

(** diskprep.py's [configure_passes], whatever its input and however it
    ends, only prints: it writes, removes and registers no file. *)
Theorem configure_passes_only_prints inp w w' r :
  sigint w = None -> configure_passes inp w = (w', r) ->
  files w' = files w /\ temp_files w' = temp_files w /\
  exists evs, trace w' = trace w ++ evs /\ Forall (fun e => exists s, e = Out s) evs.
Proof.
  intros Hs H. unfold configure_passes in H.
  assert (Hq : ioquiet (fun e => exists s, e = Out s)
                 (lift (print ("Create your custom pass schema." ++ nl)%string);;
                  configure_loop (S (length inp)) [])).
  { apply ioquiet_bind; [apply ioquiet_lift, quiet_print, out_ok | intros _].
    apply ioquiet_configure_loop. }
  destruct (quiet_result _ _ _ _ _ (Hq inp) Hs H) as [F [T [_ Tr]]]. auto.
Qed.

Lemma configure_passes_spec inp w w' r :
  sigint w = None -> configure_passes inp w = (w', r) ->
  match r with
  | Ok (ps, rest) =>
      Forall (configured_pass (files w)) ps /\
      exists pre l, inp = pre ++ l :: rest /\ lower (strip l) = "done"%string
  | Exc e => e = EOFError
  end.
Proof.
  intros Hs H. unfold configure_passes in H.
  rewrite io_bind_unfold, lift_unfold, print_none in H by exact Hs. cbn [fst snd] in H.
  destruct r as [[ps rest]|e].
  - apply configure_loop_result in H as [[nw [-> Hn]] Hd]; [|exact Hs].
    split; [exact Hn | exact Hd].
  - match type of H with
    | configure_loop _ _ _ ?w1 = _ =>
        exact (configure_loop_exc _ _ _ w1 _ _ Hs (List.Forall_nil _) H)
    end.
Qed.

(* ------------------------------------------------------------------ *)
(** ** disk_puri.py's [configure_passes] *)

Lemma out_or_clear_out s : out_or_clear (Out s).
Proof. left. exists s. reflexivity. Qed.

Lemma quiet_clear_terminal : quiet out_or_clear clear_terminal.
Proof. apply quiet_emit. right. reflexivity. Qed.

Lemma quiet_unpack ws : quiet out_or_clear (unpack_block_count ws).
Proof.
  destruct ws as [|b [|c [|x r]]]; cbn [unpack_block_count];
    first [apply quiet_ret | apply quiet_raise].
Qed.

Lemma ioquiet_configure_loop_p d f ps : ioquiet out_or_clear (configure_loop_p d f ps).
Proof.
  pose proof out_or_clear_out as Ho.
  revert ps. induction f as [|f IH]; intros ps; cbn [configure_loop_p].
  { apply ioquiet_lift, quiet_raise. }
  apply ioquiet_bind; [apply ioquiet_lift, quiet_pass_menu, Ho | intros _].
  apply ioquiet_bind; [apply ioquiet_input, Ho | intros c].
  destruct (_ || _); [apply ioquiet_ret|].
  destruct (pass_type_of _) as [pt|].
  2: { apply ioquiet_bind; [apply ioquiet_lift, quiet_print, Ho | intros _; apply IH]. }
  apply ioquiet_bind; [apply ioquiet_read_content, Ho | intros [content|]]; [|apply IH].
  apply ioquiet_bind; [apply ioquiet_input, Ho | intros l].
  apply ioquiet_bind; [apply ioquiet_lift, quiet_unpack | intros bc].
  apply ioquiet_bind; [|intros _; apply IH].
  apply ioquiet_lift, quiet_bind; [apply quiet_clear_terminal | intros _].
  apply quiet_bind; [apply quiet_print, Ho | intros _; apply quiet_print_schema, Ho].
Qed.

Lemma py_split_nonempty s : Forall (fun x => x <> ""%string) (py_split s).
Proof.
  unfold py_split. apply Forall_forall. intros x Hx. apply list_elem_of_In in Hx.
  apply filter_In in Hx as [_ Hx]. apply negb_true_iff in Hx.
  intros ->. discriminate.
Qed.

Lemma unpack_ok ws w w' bc :
  Forall (fun x => x <> ""%string) ws -> unpack_block_count ws w = (w', Ok bc) ->
  w' = w /\ fst bc <> ""%string /\ snd bc <> Some ""%string.
Proof.
  intros Hne H. destruct ws as [|b [|c [|x r]]]; cbn [unpack_block_count] in H;
    try discriminate; injection H as <- <-.
  - split; [reflexivity | split; [discriminate | discriminate]].
  - inversion Hne as [|? ? Hb Hr]; inversion Hr as [|? ? Hc _]; subst.
    split; [reflexivity | split; [exact Hb | cbn; congruence]].
Qed.

Lemma unpack_exc ws w w' e :
  unpack_block_count ws w = (w', Exc e) -> exists msg, e = ValueError msg.
Proof.
  destruct ws as [|b [|c [|x r]]]; cbn [unpack_block_count]; try discriminate;
    intros H; injection H as _ <-; eexists; reflexivity.
Qed.

Lemma configure_loop_p_result d f ps inp w w' ps' lm rest :
  sigint w = None -> configure_loop_p d f ps inp w = (w', Ok ((ps', lm), rest)) ->
  (exists new, ps' = ps ++ new /\ Forall (configured_pass (files w)) new) /\
  (exists pre l, inp = pre ++ l :: rest /\
     (lower (strip l) = "start"%string \/ lower (strip l) = "loop"%string) /\
     lm = String.eqb (lower (strip l)) "loop").
Proof.
  revert ps inp w. induction f as [|f IH]; intros ps inp w Hs H; cbn [configure_loop_p] in H.
  { rewrite lift_unfold in H. discriminate H. }
  apply io_bind_ok_inv in H as [w1 [u [r1 [H1 H]]]]. apply lift_ok_inv in H1 as [H1 ->].
  destruct (quiet_world _ _ _ _ _ (quiet_pass_menu _ out_or_clear_out _) Hs H1) as [F1 [_ S1]].
  apply io_bind_ok_inv in H as [w2 [c [r2 [H2 H]]]].
  apply input_ok_inv in H2 as [-> Hw2]; [|exact S1].
  assert (F2 : files w2 = files w) by (rewrite Hw2; exact F1).
  assert (S2 : sigint w2 = None) by (rewrite Hw2; exact S1). clear Hw2.
  destruct (String.eqb (lower (strip c)) "start" || String.eqb (lower (strip c)) "loop") eqn:Ec.
  { io_ret_simpl H. injection H as <- <- <- <-. split.
    - exists []. rewrite app_nil_r. split; [reflexivity | constructor].
    - exists [], c. split; [reflexivity|]. split; [|reflexivity].
      apply orb_true_iff in Ec as [E|E]; apply String.eqb_eq in E; [left | right]; exact E. }
  destruct (pass_type_of (lower (strip c))) as [pt|] eqn:Ept.
  2: { apply io_bind_ok_inv in H as [w3 [u3 [r3 [H3 H]]]]. apply lift_ok_inv in H3 as [H3 ->].
       rewrite print_none in H3 by exact S2. injection H3 as <-.
       apply IH in H as [Hn [pre [l [-> Hl]]]]; [|exact S2].
       split; [cbn [files add_trace] in Hn; rewrite F2 in Hn; exact Hn|].
       exists (c :: pre), l. split; [reflexivity | exact Hl]. }
  apply io_bind_ok_inv in H as [w3 [content [r3 [H3 H]]]].
  destruct (read_content_ok_inv _ _ _ _ _ _ S2 H3) as [F3 [S3 [[pre3 ->] Hc]]].
  rewrite F2 in Hc, F3.
  destruct content as [content|].
  2: { apply IH in H as [Hn [pre [l [-> Hl]]]]; [|exact S3].
       split; [rewrite F3 in Hn; exact Hn|].
       exists (c :: pre3 ++ pre), l. split; [simpl; now rewrite <- app_assoc | exact Hl]. }
  apply io_bind_ok_inv in H as [w4 [l4 [r4 [H4 H]]]].
  apply input_ok_inv in H4 as [-> Hw4]; [|exact S3].
  assert (F4 : files w4 = files w) by (rewrite Hw4; exact F3).
  assert (S4 : sigint w4 = None) by (rewrite Hw4; exact S3). clear Hw4.
  apply io_bind_ok_inv in H as [w5 [bc [r5 [H5 H]]]].
  apply lift_ok_inv in H5 as [H5 ->].
  destruct (unpack_ok _ _ _ _ (py_split_nonempty _) H5) as [-> [Hb Hcnt]].
  cbv beta zeta in H.
  apply io_bind_ok_inv in H as [w6 [u6 [r6 [H6 H]]]]. apply lift_ok_inv in H6 as [H6 ->].
  destruct (quiet_world _ _ _ _ _
              (quiet_bind _ _ _ quiet_clear_terminal
                 (fun _ => quiet_bind _ _ _ (quiet_print _ out_or_clear_out _)
                             (fun _ => quiet_print_schema _ out_or_clear_out _ _)))
              S4 H6) as [F6 [_ S6]].
  apply IH in H as [[new [-> Hnew]] [pre [l [Hinp Hl]]]]; [|exact S6].
  split.
  - eexists. rewrite <- app_assoc. split; [reflexivity|]. constructor.
    + split; [|split; [exact Hb | exact Hcnt]].
      destruct (pass_type_of_some _ _ Ept) as [ -> | [ -> | [ -> | [ -> | -> ]]]];
        cbn [p_type p_content] in *; intuition congruence.
    + rewrite F6, F4 in Hnew. exact Hnew.
  - exists (c :: pre3 ++ l4 :: pre), l. split; [|exact Hl].
    rewrite Hinp. simpl. now rewrite <- app_assoc.
Qed.

Lemma configure_loop_p_exc d f ps inp w w' e :
  sigint w = None -> Forall string_has_content ps ->
  configure_loop_p d f ps inp w = (w', Exc e) -> e = EOFError \/ exists msg, e = ValueError msg.
Proof.
  revert ps inp w. induction f as [|f IH]; intros ps inp w Hs Hall H; cbn [configure_loop_p] in H.
  { rewrite lift_unfold in H. injection H as _ <-. left. reflexivity. }
  apply io_bind_exc_inv in H as [H|[w1 [u [r1 [H1 H]]]]].
  { apply lift_exc_inv in H. destruct (pass_menu_none (nl ++ "Available pass types:") w Hs) as [evs E].
    rewrite E in H. discriminate. }
  apply lift_ok_inv in H1 as [H1 ->].
  destruct (quiet_world _ _ _ _ _ (quiet_pass_menu _ out_or_clear_out _) Hs H1) as [_ [_ S1]].
  apply io_bind_exc_inv in H as [H|[w2 [c [r2 [H2 H]]]]].
  { left. now apply input_exc_inv in H. }
  apply input_ok_inv in H2 as [-> Hw2]; [|exact S1].
  assert (S2 : sigint w2 = None) by (rewrite Hw2; exact S1). clear Hw2.
  destruct (_ || _); [discriminate|].
  destruct (pass_type_of (lower (strip c))) as [pt|] eqn:Ept.
  2: { apply io_bind_exc_inv in H as [H|[w3 [u3 [r3 [H3 H]]]]].
       - apply lift_exc_inv in H. rewrite print_none in H by exact S2. discriminate.
       - apply lift_ok_inv in H3 as [H3 ->]. rewrite print_none in H3 by exact S2.
         injection H3 as <-. eapply IH; [ | exact Hall | exact H]; exact S2. }
  apply io_bind_exc_inv in H as [H|[w3 [content [r3 [H3 H]]]]].
  { left. exact (read_content_exc _ _ _ _ _ S2 H). }
  destruct (read_content_ok_inv _ _ _ _ _ _ S2 H3) as [_ [S3 [_ Hc]]].
  destruct content as [content|].
  2: { eapply IH; [ | exact Hall | exact H]; exact S3. }
  apply io_bind_exc_inv in H as [H|[w4 [l4 [r4 [H4 H]]]]].
  { left. now apply input_exc_inv in H. }
  apply input_ok_inv in H4 as [-> Hw4]; [|exact S3].
  assert (S4 : sigint w4 = None) by (rewrite Hw4; exact S3). clear Hw4.
  apply io_bind_exc_inv in H as [H|[w5 [bc [r5 [H5 H]]]]].
  { right. apply lift_exc_inv in H. exact (unpack_exc _ _ _ _ H). }
  apply lift_ok_inv in H5 as [H5 ->].
  destruct (unpack_ok _ _ _ _ (py_split_nonempty _) H5) as [-> _].
  cbv beta zeta in H.
  match type of H with
  | context [configure_loop_p d f ?ps'] =>
      assert (Hall' : Forall string_has_content ps')
  end.
  { apply Forall_app. split; [exact Hall|]. constructor; [|constructor].
    intros E. cbn [p_type p_content] in *.
    destruct Hc as [[_ Hc] | [[-> _] | [Hn _]]]; [exact Hc | discriminate | contradiction]. }
  apply io_bind_exc_inv in H as [H|[w6 [u6 [r6 [H6 H]]]]].
  - apply lift_exc_inv in H. unfold clear_terminal in H.
    rewrite mbind_unfold, emit_none in H by exact S4.
    rewrite mbind_unfold, print_none in H by exact S4.
    match type of H with
    | context [print_schema 1 _ ?w0] =>
        destruct (print_schema_ok 1 _ w0 S4 Hall') as [evs E]; rewrite E in H; discriminate
    end.
  - apply lift_ok_inv in H6 as [H6 ->].
    destruct (quiet_world _ _ _ _ _
                (quiet_bind _ _ _ quiet_clear_terminal
                   (fun _ => quiet_bind _ _ _ (quiet_print _ out_or_clear_out _)
                               (fun _ => quiet_print_schema _ out_or_clear_out _ _)))
                S4 H6) as [_ [_ S6]].
    eapply IH; [ | exact Hall' | exact H]; exact S6.
Qed.

(** disk_puri.py's [configure_passes(device)], whatever its input and
    however it ends, only prints and runs [clear]: it writes, removes and
    registers no file. *)
Theorem configure_passes_p_only_prints d inp w w' r :
  sigint w = None -> configure_passes_p d inp w = (w', r) ->
  files w' = files w /\ temp_files w' = temp_files w /\
  exists evs, trace w' = trace w ++ evs /\ Forall out_or_clear evs.
Proof.
  intros Hs H. unfold configure_passes_p in H.
  assert (Hq : ioquiet out_or_clear
                 (lift (clear_terminal;;
                        print ("Create your custom pass schema for drive: " ++ d ++ nl)%string);;
                  configure_loop_p d (S (length inp)) [])).
  { apply ioquiet_bind; [|intros _; apply ioquiet_configure_loop_p].
    apply ioquiet_lift, quiet_bind; [apply quiet_clear_terminal | intros _].
    apply quiet_print, out_or_clear_out. }
  destruct (quiet_result _ _ _ _ _ (Hq inp) Hs H) as [F [T [_ Tr]]]. auto.
Qed.

Lemma configure_passes_p_spec d inp w w' r :
  sigint w = None -> configure_passes_p d inp w = (w', r) ->
  match r with
  | Ok ((ps, lm), rest) =>
      Forall (configured_pass (files w)) ps /\
      exists pre l, inp = pre ++ l :: rest /\
        (lower (strip l) = "start"%string \/ lower (strip l) = "loop"%string) /\
        lm = String.eqb (lower (strip l)) "loop"
  | Exc e => e = EOFError \/ exists msg, e = ValueError msg
  end.
Proof.
  intros Hs H. unfold configure_passes_p, clear_terminal in H.
  rewrite io_bind_unfold, lift_unfold, mbind_unfold, emit_none in H by exact Hs.
  rewrite print_none in H by exact Hs. cbn [fst snd] in H.
  destruct r as [[[ps lm] rest]|e].
  - apply configure_loop_p_result in H as [[nw [-> Hn]] Hd]; [|exact Hs].
    split; [exact Hn | exact Hd].
  - match type of H with
    | configure_loop_p _ _ _ _ ?w1 = _ =>
        exact (configure_loop_p_exc _ _ _ _ w1 _ _ Hs (List.Forall_nil _) H)
    end.
Qed.

(** In any round of the loop of disk_puri.py's [configure_passes], whatever
    passes were added before, a Random, Zeros or Ones choice followed by a
    block-size line that splits into one word or into more than two raises
    [ValueError] from the unpacking [block_size, count = ...]. *)
Theorem configure_loop_p_block_line_value_error d f ps c l rest w :
  sigint w = None ->
  (lower (strip c) = "r"%string \/ lower (strip c) = "z"%string \/ lower (strip c) = "o"%string) ->
  length (py_split (strip l)) <> 0%nat -> length (py_split (strip l)) <> 2%nat ->
  exists w' msg, configure_loop_p d (S f) ps (c :: l :: rest) w = (w', Exc (ValueError msg)).
Proof.
  intros Hs Hc H0 H2. cbn [configure_loop_p].
  rewrite io_bind_unfold, lift_unfold.
  match goal with |- context [pass_menu ?h ?w0] =>
    destruct (pass_menu_none h w0 Hs) as [evs ->] end.
  cbn [fst snd]. rewrite io_bind_unfold. unfold input at 1.
  rewrite mbind_unfold, print_none by exact Hs.
  cbv beta iota delta [mret PyM_ret ret]. cbn [fst snd].
  assert (Hpt : exists pt t, lower (strip c) = pt /\ pass_type_of pt = Some t /\
                  read_content t = mret (Some None) /\
                  ((pt =? "start")%string || (pt =? "loop")%string) = false).
  { destruct Hc as [E|[E|E]]; rewrite E; do 2 eexists; (split; [reflexivity|]);
      (split; [reflexivity|]); cbn; (split; reflexivity). }
  destruct Hpt as [pt [t [-> [-> [Hr ->]]]]].
  rewrite io_bind_unfold, Hr.
  cbv beta iota delta [mret IO_ret io_ret PyM_ret ret]. cbn [fst snd].
  rewrite io_bind_unfold. unfold input at 1.
  rewrite mbind_unfold, print_none by exact Hs.
  cbv beta iota delta [mret PyM_ret ret]. cbn [fst snd].
  rewrite io_bind_unfold, lift_unfold.
  destruct (py_split (strip l)) as [|b [|c' [|x r]]]; cbn [length] in H0, H2;
    try contradiction; cbn [unpack_block_count]; cbv beta iota delta [raise];
    do 2 eexists; reflexivity.
Qed.

(* ------------------------------------------------------------------ *)
(** ** The two [main]s *)

Lemma input_cons p l rest w :
  sigint w = None -> input p (l :: rest) w = (add_trace w [Out p], Ok (l, rest)).
Proof. intros Hs. unfold input. rewrite mbind_unfold, print_none by exact Hs. reflexivity. Qed.

Lemma input_nil p w :
  sigint w = None -> input p [] w = (add_trace w [Out p], Exc EOFError).
Proof. intros Hs. unfold input. rewrite mbind_unfold, print_none by exact Hs. reflexivity. Qed.

Lemma configure_passes_quiet : forall inp,
  quiet (fun e => exists s, e = Out s) (configure_passes inp).
Proof.
  intros inp. unfold configure_passes.
  apply (ioquiet_bind _ (lift (print ("Create your custom pass schema." ++ nl)%string))
           (fun _ => configure_loop (S (length inp)) [])).
  - apply ioquiet_lift, quiet_print, out_ok.
  - intros _. apply ioquiet_configure_loop.
Qed.

Ltac outs H :=
  repeat first [ exact H | apply List.Forall_nil
               | apply List.Forall_cons; [eexists; reflexivity|]
               | apply Forall_app; split ].

Lemma main_gate writer inp w w' r :
  sigint w = None -> main writer 0 inp w = (w', r) ->
  (files w' = files w /\ temp_files w' = temp_files w /\
   (exists evs, trace w' = trace w ++ evs /\ Forall (fun e => exists s, e = Out s) evs) /\
   (r = Exc EOFError \/ r = Exc (SystemExit 1))) \/
  (exists device ps proceed rest w1 r1,
     lower (strip proceed) = "y"%string /\
     Forall (configured_pass (files w)) ps /\
     files w1 = files w /\ temp_files w1 = temp_files w /\ sigint w1 = None /\
     run_schema writer ps device w1 = (w', r1) /\
     r = match r1 with Ok u => Ok (u, rest) | Exc e => Exc e end).
Proof.
  intros Hs H. unfold main in H.
  rewrite io_bind_unfold, lift_unfold, print_none in H by exact Hs.
  change (negb (0 =? 0)%Z) with false in H. cbv beta iota in H. cbn [fst snd] in H.
  rewrite io_bind_unfold in H.
  destruct inp as [|device inp1].
  { rewrite input_nil in H by exact Hs. injection H as <- <-. left.
    split; [reflexivity | split; [reflexivity | split; [|left; reflexivity]]].
    eexists. split; [cbn [trace add_trace]; now rewrite <- app_assoc|].
    repeat constructor; eexists; reflexivity. }
  rewrite input_cons in H by exact Hs. cbn [fst snd] in H.
  rewrite io_bind_unfold in H.
  match type of H with
  | context [configure_passes inp1 ?w0] =>
      destruct (configure_passes inp1 w0) as [w3 r3] eqn:Ec;
      destruct (quiet_result _ _ w0 _ _ (configure_passes_quiet inp1) Hs Ec)
        as [F3 [T3 [S3 [evs3 [Tr3 O3]]]]];
      pose proof (configure_passes_spec inp1 w0 _ _ Hs Ec) as Sp
  end.
  cbn [files temp_files trace add_trace] in F3, T3, Tr3.
  destruct r3 as [[ps rest3]|e].
  2: { injection H as <- <-. left. split; [exact F3 | split; [exact T3 | split]].
       - eexists. split; [rewrite Tr3; now rewrite <- !app_assoc|].
         outs O3.
       - left. now rewrite Sp. }
  destruct Sp as [Hps _]. cbn [fst snd] in H.
  rewrite io_bind_unfold in H.
  destruct rest3 as [|proceed rest4].
  { rewrite input_nil in H by exact S3. injection H as <- <-. left.
    split; [exact F3 | split; [exact T3 | split; [|left; reflexivity]]].
    eexists. split; [cbn [trace add_trace]; rewrite Tr3; now rewrite <- !app_assoc|].
    outs O3. }
  rewrite input_cons in H by exact S3. cbn [fst snd] in H.
  destruct (String.eqb_spec (lower (strip proceed)) "y") as [Hy|Hy]; cbn [negb] in H.
  - rewrite lift_unfold in H.
    destruct (run_schema writer ps device (add_trace w3 _)) as [w5 r5] eqn:Er.
    right. exists device, ps, proceed, rest4, (add_trace w3 [Out (nl ++ "Proceed with the above schema? (y/n): ")%string]), r5.
    split; [exact Hy|]. split; [exact Hps|].
    split; [exact F3 | split; [exact T3 | split; [exact S3|]]].
    destruct r5 as [u|e]; injection H as <- <-; split; [exact Er | reflexivity | exact Er | reflexivity].
  - rewrite lift_unfold, mbind_unfold, print_none in H by exact S3.
    injection H as <- <-. left.
    split; [exact F3 | split; [exact T3 | split; [|right; reflexivity]]].
    eexists. split; [cbn [trace add_trace]; rewrite Tr3; now rewrite <- !app_assoc|].
    outs O3.
Qed.

Lemma configure_loop_unfold f ps :
  configure_loop (S f) ps =
  (lift (pass_menu "Available pass types:");;
   c ← input "Choose a pass type to add (r, z, o, s, f), or 'done' to finish: ";
   if String.eqb (lower (strip c)) "done" then mret ps
   else match pass_type_of (lower (strip c)) with
   | None =>
       lift (print "Invalid choice. Please enter one of the letters (r, z, o, s, f) or 'done' to finish.");;
       configure_loop f ps
   | Some pt =>
       content ← read_content pt;
       match content with
       | None => configure_loop f ps
       | Some content =>
           bs ← input "Enter block size (default 4M): ";
           cnt ← input "Enter count (leave blank to fill the disk): ";
           let block_size := if String.eqb (strip bs) "" then "4M" else strip bs in
           let count := if String.eqb (strip cnt) "" then None else Some (strip cnt) in
           let ps := (ps ++ [mkPass pt content block_size count])%list in
           lift (print (nl ++ "Current Pass Schema:");; print_schema 1 ps);;
           configure_loop f ps
       end
   end)%string.
Proof. reflexivity. Qed.

(** Both [main]s, run without root, print the banner and the privileges
    message and exit with status 1 before reading any input. *)
Theorem main_requires_root writer euid rounds inp w :
  sigint w = None -> euid <> 0%Z ->
  main writer euid inp w =
    (add_trace w [Out "Multi-Pass Disk Preparation Script";
                  Out "This script requires elevated privileges. Please run with sudo."],
     Exc (SystemExit 1)) /\
  main_p writer euid rounds inp w =
    (add_trace w [Spawn (sh_argv "clear"); Out ("Multi-Pass Disk Preparation Script" ++ nl)%string;
                  Out "This script requires elevated privileges. Please run with sudo."],
     Exc (SystemExit 1)).
Proof.
  intros Hs He. apply Z.eqb_neq in He. split.
  - unfold main. rewrite io_bind_unfold, lift_unfold, print_none by exact Hs.
    cbn [fst snd]. rewrite He. cbn [negb].
    rewrite lift_unfold, mbind_unfold, print_none by exact Hs.
    now rewrite add_trace_app.
  - unfold main_p, clear_terminal. rewrite io_bind_unfold, lift_unfold, mbind_unfold, emit_none by exact Hs.
    rewrite print_none by exact Hs.
    cbn [fst snd]. rewrite He. cbn [negb].
    rewrite lift_unfold, mbind_unfold, print_none by exact Hs.
    now rewrite !add_trace_app.
Qed.
Ltac eqb_simpl := cbn [String.eqb Ascii.eqb Bool.eqb andb orb negb].
Ltac ret_simpl := cbv beta iota delta [mret IO_ret io_ret PyM_ret ret]; cbn [fst snd].

(* ------------------------------------------------------------------ *)
(** ** disk_puri.py's runs *)

Lemma drain_p_spec argv pre tail w :
  sigint w = None ->
  Forall (fun x => contains no_space_marker x = false) pre ->
  (tail = [] \/ exists l post, tail = l :: post /\ contains no_space_marker l = true) ->
  drain_p argv (pre ++ tail) w =
    (add_trace w (map Out pre ++
                  match tail with [] => [] | _ => [Out disk_full_msg; Terminate argv] end),
     Ok tt).
Proof.
  revert w. induction pre as [|x pre IH]; intros w Hs Hpre Ht; cbn [app map].
  - destruct Ht as [-> | [l [post [-> Hl]]]].
    + cbn. now rewrite add_trace_nil.
    + cbn [drain_p]. rewrite Hl, mbind_unfold, print_none by exact Hs.
      rewrite emit_none by exact Hs. now rewrite add_trace_app.
  - inversion Hpre as [|? ? Hx Hpre']; subst. cbn [drain_p].
    rewrite Hx, mbind_unfold, print_none by exact Hs.
    rewrite IH by assumption. now rewrite add_trace_app.
Qed.

(** disk_puri.py's [execute_command], for a dd run whose stderr ends (an
    endless [while :; do cat] feed must report the device full), echoes
    every diagnostic line up to the first one that reports "No space left
    on device"; at that line it prints the disk-full message and terminates
    dd instead; then it waits for dd and returns normally. *)
Theorem execute_command_p_output writer command w pre tail code :
  sigint w = None -> writer (sh_argv command) = (pre ++ tail, code) ->
  Forall (fun x => contains no_space_marker x = false) pre ->
  (tail = [] \/ exists l post, tail = l :: post /\ contains no_space_marker l = true) ->
  (endless_feed command = true -> tail <> []) ->
  execute_command_p writer command w =
    (add_trace w ([Spawn (sh_argv command)] ++ map Out pre ++
                  match tail with
                  | [] => []
                  | _ => [Out disk_full_msg; Terminate (sh_argv command)]
                  end ++ [Wait (sh_argv command) code]),
     Ok tt).
Proof.
  intros Hs Hw Hpre Ht _. unfold execute_command_p, try_except.
  rewrite mbind_unfold, emit_none by exact Hs. rewrite Hw, mbind_unfold.
  rewrite drain_p_spec by assumption. rewrite emit_none by exact Hs.
  rewrite !add_trace_app. now rewrite <- !app_assoc.
Qed.

Lemma drain_p_returns argv lines w :
  sigint w = None -> exists evs, drain_p argv lines w = (add_trace w evs, Ok tt).
Proof.
  revert w. induction lines as [|x lines IH]; intros w Hs; cbn [drain_p].
  - exists []. now rewrite add_trace_nil.
  - destruct (contains no_space_marker x).
    + rewrite mbind_unfold, print_none by exact Hs. rewrite emit_none by exact Hs.
      eexists. now rewrite add_trace_app.
    + rewrite mbind_unfold, print_none by exact Hs.
      destruct (IH (add_trace w [Out x])) as [evs ->]; [exact Hs|].
      eexists. now rewrite add_trace_app.
Qed.

Lemma execute_command_p_world writer command w :
  sigint w = None -> exists evs, execute_command_p writer command w = (add_trace w evs, Ok tt).
Proof.
  intros Hs. unfold execute_command_p, try_except.
  rewrite mbind_unfold, emit_none by exact Hs.
  destruct (writer (sh_argv command)) as [lines code].
  rewrite mbind_unfold.
  destruct (drain_p_returns (sh_argv command) lines (add_trace w [Spawn (sh_argv command)]))
    as [evs ->]; [exact Hs|].
  rewrite emit_none by exact Hs. eexists. rewrite !add_trace_app. reflexivity.
Qed.

Lemma perform_pass_p_ok writer pi d w :
  sigint w = None -> runnable_pass pi = true ->
  exists w', perform_pass_p writer pi d w = (w', Ok tt) /\ sigint w' = None /\
    temp_files w' = temp_files w ++ registered_by (p_type pi).
Proof.
  intros Hs Hr. unfold perform_pass_p. rewrite mbind_unfold.
  destruct (pass_command_ok pi d w Hs Hr) as [w1 [x [-> [Hs1 Ht1]]]].
  rewrite mbind_unfold. cbn [local_get mret PyM_ret ret].
  destruct (truthy x).
  - destruct (execute_command_p_world writer (pystr x) w1 Hs1) as [evs ->].
    eexists. split; [reflexivity | split; [exact Hs1 | exact Ht1]].
  - eexists. split; [reflexivity | split; [exact Hs1 | exact Ht1]].
Qed.

Lemma run_passes_p_ok writer i passes d w :
  sigint w = None -> Forall (fun pi => runnable_pass pi = true) passes ->
  exists w', run_passes_p writer i passes d w = (w', Ok tt) /\ sigint w' = None /\
    temp_files w' = temp_files w ++ flat_map (fun pi => registered_by (p_type pi)) passes.
Proof.
  revert i w. induction passes as [|pi rest IH]; intros i w Hs Hall.
  - exists w. split; [reflexivity | split; [exact Hs | now rewrite app_nil_r]].
  - inversion Hall as [|? ? Hpi Hrest]; subst. cbn [run_passes_p].
    rewrite mbind_unfold, print_none by exact Hs.
    rewrite mbind_unfold.
    destruct (perform_pass_p_ok writer pi d (add_trace w [Out (nl ++ running_msg i pi)%string]) Hs Hpi)
      as [w1 [-> [Hs1 Ht1]]].
    destruct (IH (S i) w1 Hs1 Hrest) as [w2 [-> [Hs2 Ht2]]].
    exists w2. split; [reflexivity | split; [exact Hs2|]].
    rewrite Ht2, Ht1. cbn [flat_map]. simpl. now rewrite app_assoc.
Qed.

(** In loop mode disk_puri.py's [main] never leaves its pass loop when
    every pass is a Random, Zeros, Ones, File or non-empty String pass and
    every dd run ends its stderr ([writer_ends]): after any number [n] of
    rounds it is still running, with the Ones and String temp files
    registered once per round. *)
Theorem run_rounds_loop_mode writer passes d w n :
  writer_ends writer -> sigint w = None -> Forall (fun pi => runnable_pass pi = true) passes ->
  exists w', run_rounds writer n passes d true w = (w', Ok false) /\
    temp_files w' = temp_files w ++
      concat (repeat (flat_map (fun pi => registered_by (p_type pi)) passes) n).
Proof.
  intros _ Hs Hall. revert w Hs. induction n as [|n IH]; intros w Hs.
  - exists w. split; [reflexivity | now rewrite app_nil_r].
  - cbn [run_rounds]. rewrite mbind_unfold.
    destruct (run_passes_p_ok writer 1 passes d w Hs Hall) as [w1 [-> [Hs1 Ht1]]].
    destruct (IH w1 Hs1) as [w2 [-> Ht2]].
    exists w2. split; [reflexivity|]. rewrite Ht2, Ht1. cbn [repeat concat].
    now rewrite app_assoc.
Qed.

(** Without loop mode, when every pass is a Random, Zeros, Ones, File or
    non-empty String pass and every dd run ends its stderr ([writer_ends]),
    disk_puri.py's [main] runs its passes once and leaves the loop, having
    registered each Ones and String temp file once. *)
Theorem run_rounds_once_mode writer passes d w n :
  writer_ends writer -> sigint w = None -> Forall (fun pi => runnable_pass pi = true) passes ->
  exists w', run_rounds writer (S n) passes d false w = (w', Ok true) /\
    temp_files w' = temp_files w ++ flat_map (fun pi => registered_by (p_type pi)) passes.
Proof.
  intros _ Hs Hall. cbn [run_rounds]. rewrite mbind_unfold.
  destruct (run_passes_p_ok writer 1 passes d w Hs Hall) as [w1 [-> [Hs1 Ht1]]].
  exists w1. split; [reflexivity | exact Ht1].
Qed.

Lemma configured_runnable fs pi :
  configured_pass fs pi ->
  runnable_pass pi = true \/ (p_type pi = "string"%string /\ p_content pi = Some ""%string).
Proof.
  destruct pi as [pt content bs cnt]. unfold runnable_pass.
  intros [[[Ht Hc] | [[Ht [c Hc]] | [Ht [p [Hc _]]]]] _];
    cbn [p_type p_content p_block_size p_count] in *; subst.
  - left. destruct Ht as [-> | [-> | ->]]; reflexivity.
  - destruct (String.eqb_spec c "") as [->|N]; [right; split; reflexivity|].
    left. cbn. destruct (String.eqb_spec c ""); [contradiction | reflexivity].
  - left. reflexivity.
Qed.

Lemma perform_pass_configured writer fs pi d w :
  sigint w = None -> configured_pass fs pi ->
  exists w1, (perform_pass writer pi d w = (w1, Ok tt) /\ sigint w1 = None) \/
             perform_pass writer pi d w = (w1, Exc ZeroDivisionError).
Proof.
  intros Hs Hc. destruct (configured_runnable fs pi Hc) as [Hr | [Ht Hct]].
  { destruct (perform_pass_ok writer pi d w Hs Hr) as [w1 [E [S1 _]]].
    exists w1. left. split; assumption. }
  destruct pi as [pt content bs cnt]. cbn [p_type p_content] in Ht, Hct. subst pt content.
  unfold perform_pass. rewrite mbind_unfold. unfold pass_command.
  cbn [p_type p_content p_block_size p_count].
  rewrite bool_decide_eq_false_2 by (rewrite list_elem_of_In; cbn; intuition discriminate).
  rewrite bool_decide_eq_true_2 by (rewrite list_elem_of_In; cbn; auto).
  rewrite mbind_unfold. unfold path_source. cbn [String.eqb Ascii.eqb Bool.eqb andb].
  rewrite mbind_unfold, mbind_unfold, isfile_lookup by exact Hs.
  destruct (files w !! string_tmp) as [b|] eqn:E; cbn [negb].
  - rewrite mbind_unfold. cbn [mret PyM_ret ret].
    rewrite mbind_unfold, register_temp_none by exact Hs. cbn [mret PyM_ret ret].
    destruct (truthy cnt);
      cbv beta iota delta [mret PyM_ret ret local_get mbind PyM_bind bind truthy pystr];
      (destruct (negb _);
       [ match goal with
         | |- context [execute_command writer ?c ?w0] =>
             destruct (execute_command_world writer c w0 Hs) as [evs ->]
         end | ]);
      eexists; left; (split; [reflexivity | exact Hs]).
  - rewrite mbind_unfold, mbind_unfold, write_file_none by exact Hs.
    cbn [write_string_chunks]. unfold string_chunk. cbn [String.length Nat.eqb].
    eexists. right. reflexivity.
Qed.

Lemma run_passes_configured writer fs i ps d w :
  sigint w = None -> Forall (configured_pass fs) ps ->
  exists w1, (run_passes writer i ps d w = (w1, Ok tt) /\ sigint w1 = None) \/
             run_passes writer i ps d w = (w1, Exc ZeroDivisionError).
Proof.
  revert i w. induction ps as [|pi ps IH]; intros i w Hs Hall.
  - exists w. left. split; [reflexivity | exact Hs].
  - inversion Hall as [|? ? Hpi Hps]; subst. cbn [run_passes].
    rewrite mbind_unfold, print_none by exact Hs. rewrite mbind_unfold.
    destruct (perform_pass_configured writer fs pi d (add_trace w [Out (running_msg i pi)]) Hs Hpi)
      as [w1 [[-> S1] | ->]].
    + exact (IH (S i) w1 S1 Hps).
    + exists w1. right. reflexivity.
Qed.

(** diskprep.py's [main] run as root without an interrupt either ends
    with "Disk preparation completed." as its last output or raises one of
    [EOFError], [SystemExit(1)] and [ZeroDivisionError]. *)
Theorem main_outcomes writer inp w w' r :
  sigint w = None -> main writer 0 inp w = (w', r) ->
  match r with
  | Ok _ => last (trace w') = Some (Out "Disk preparation completed.")
  | Exc e => e = EOFError \/ e = SystemExit 1 \/ e = ZeroDivisionError
  end.
Proof.
  intros Hs H. destruct (main_gate writer inp w w' r Hs H)
    as [[_ [_ [_ [-> | ->]]]] | [device [ps [proceed [rest [w1 [r1 [_ [Hps [_ [_ [S1 [Er ->]]]]]]]]]]]]].
  - left. reflexivity.
  - right. left. reflexivity.
  - unfold run_schema in Er. rewrite mbind_unfold in Er.
    destruct (run_passes_configured writer _ 1 ps device w1 S1 Hps) as [w2 [[E S2] | E]];
      rewrite E in Er.
    + rewrite print_none in Er by exact S2. injection Er as <- <-.
      cbn [add_trace trace]. apply last_snoc.
    + injection Er as <- <-. right. right. reflexivity.
Qed.

Lemma perform_pass_p_configured writer fs pi d w :
  sigint w = None -> configured_pass fs pi ->
  exists w1, (perform_pass_p writer pi d w = (w1, Ok tt) /\ sigint w1 = None) \/
             perform_pass_p writer pi d w = (w1, Exc ZeroDivisionError).
Proof.
  intros Hs Hc. destruct (configured_runnable fs pi Hc) as [Hr | [Ht Hct]].
  { destruct (perform_pass_p_ok writer pi d w Hs Hr) as [w1 [E [S1 _]]].
    exists w1. left. split; assumption. }
  destruct pi as [pt content bs cnt]. cbn [p_type p_content] in Ht, Hct. subst pt content.
  unfold perform_pass_p. rewrite mbind_unfold. unfold pass_command.
  cbn [p_type p_content p_block_size p_count].
  rewrite bool_decide_eq_false_2 by (rewrite list_elem_of_In; cbn; intuition discriminate).
  rewrite bool_decide_eq_true_2 by (rewrite list_elem_of_In; cbn; auto).
  rewrite mbind_unfold. unfold path_source. cbn [String.eqb Ascii.eqb Bool.eqb andb].
  rewrite mbind_unfold, mbind_unfold, isfile_lookup by exact Hs.
  destruct (files w !! string_tmp) as [b|] eqn:E; cbn [negb].
  - rewrite mbind_unfold. cbn [mret PyM_ret ret].
    rewrite mbind_unfold, register_temp_none by exact Hs. cbn [mret PyM_ret ret].
    destruct (truthy cnt);
      cbv beta iota delta [mret PyM_ret ret local_get mbind PyM_bind bind truthy pystr];
      (destruct (negb _);
       [ match goal with
         | |- context [execute_command_p writer ?c ?w0] =>
             destruct (execute_command_p_world writer c w0 Hs) as [evs ->]
         end | ]);
      eexists; left; (split; [reflexivity | exact Hs]).
  - rewrite mbind_unfold, mbind_unfold, write_file_none by exact Hs.
    cbn [write_string_chunks]. unfold string_chunk. cbn [String.length Nat.eqb].
    eexists. right. reflexivity.
Qed.

Lemma run_passes_p_configured writer fs i ps d w :
  sigint w = None -> Forall (configured_pass fs) ps ->
  exists w1, (run_passes_p writer i ps d w = (w1, Ok tt) /\ sigint w1 = None) \/
             run_passes_p writer i ps d w = (w1, Exc ZeroDivisionError).
Proof.
  revert i w. induction ps as [|pi ps IH]; intros i w Hs Hall.
  - exists w. left. split; [reflexivity | exact Hs].
  - inversion Hall as [|? ? Hpi Hps]; subst. cbn [run_passes_p].
    rewrite mbind_unfold, print_none by exact Hs. rewrite mbind_unfold.
    destruct (perform_pass_p_configured writer fs pi d
                (add_trace w [Out (nl ++ running_msg i pi)%string]) Hs Hpi)
      as [w1 [[-> S1] | ->]].
    + exact (IH (S i) w1 S1 Hps).
    + exists w1. right. reflexivity.
Qed.

Lemma run_rounds_configured writer fs n ps d lm w :
  sigint w = None -> Forall (configured_pass fs) ps ->
  exists w1, (exists b, run_rounds writer n ps d lm w = (w1, Ok b) /\ sigint w1 = None) \/
             run_rounds writer n ps d lm w = (w1, Exc ZeroDivisionError).
Proof.
  intros Hs Hall. revert w Hs. induction n as [|n IH]; intros w Hs.
  - exists w. left. exists false. split; [reflexivity | exact Hs].
  - cbn [run_rounds]. rewrite mbind_unfold.
    destruct (run_passes_p_configured writer fs 1 ps d w Hs Hall) as [w1 [[-> S1] | ->]].
    + destruct lm; [exact (IH w1 S1)|].
      exists w1. left. exists true. split; [reflexivity | exact S1].
    + exists w1. right. reflexivity.
Qed.

Lemma configure_passes_p_quiet d : forall inp,
  quiet out_or_clear (configure_passes_p d inp).
Proof.
  intros inp. unfold configure_passes_p.
  apply (ioquiet_bind _ (lift (clear_terminal;;
                               print ("Create your custom pass schema for drive: " ++ d ++ nl)%string))
           (fun _ => configure_loop_p d (S (length inp)) [])).
  - apply ioquiet_lift, quiet_bind; [apply quiet_clear_terminal | intros _].
    apply quiet_print, out_or_clear_out.
  - intros _. apply ioquiet_configure_loop_p.
Qed.

(** disk_puri.py's [main] run as root without an interrupt, over any
    number of rounds, raises nothing but [EOFError], a [ValueError],
    [SystemExit(1)] or [ZeroDivisionError]. *)
Theorem main_p_outcomes writer rounds inp w w' r :
  sigint w = None -> main_p writer 0 rounds inp w = (w', r) ->
  match r with
  | Ok _ => True
  | Exc e => e = EOFError \/ (exists msg, e = ValueError msg) \/ e = SystemExit 1 \/
             e = ZeroDivisionError
  end.
Proof.
  intros Hs H. unfold main_p, clear_terminal in H.
  rewrite io_bind_unfold, lift_unfold, mbind_unfold, emit_none in H by exact Hs.
  rewrite print_none in H by exact Hs.
  change (negb (0 =? 0)%Z) with false in H. cbv beta iota in H. cbn [fst snd] in H.
  rewrite io_bind_unfold in H.
  destruct inp as [|device inp1].
  { rewrite input_nil in H by exact Hs. injection H as _ <-. left. reflexivity. }
  rewrite input_cons in H by exact Hs. cbn [fst snd] in H.
  rewrite io_bind_unfold in H.
  match type of H with
  | context [configure_passes_p ?dv inp1 ?w0] =>
      destruct (configure_passes_p dv inp1 w0) as [w3 r3] eqn:Ec;
      destruct (quiet_result _ _ w0 _ _ (configure_passes_p_quiet dv inp1) Hs Ec)
        as [F3 [T3 [S3 _]]];
      pose proof (configure_passes_p_spec dv inp1 w0 _ _ Hs Ec) as Sp
  end.
  destruct r3 as [[[ps lm] rest3]|e].
  2: { injection H as _ <-. destruct Sp as [-> | Hv]; [left; reflexivity | right; left; exact Hv]. }
  destruct Sp as [Hps _]. cbn [fst snd] in H.
  rewrite io_bind_unfold in H.
  destruct rest3 as [|proceed rest4].
  { rewrite input_nil in H by exact S3. injection H as _ <-. left. reflexivity. }
  rewrite input_cons in H by exact S3. cbn [fst snd] in H.
  destruct (String.eqb (lower (strip proceed)) "y"); cbn [negb] in H.
  - rewrite io_bind_unfold, lift_unfold in H.
    match type of H with
    | context [run_rounds writer rounds ps ?dv lm ?w0] =>
        destruct (run_rounds_configured writer _ rounds ps dv lm w0 S3 Hps)
          as [w4 [[b [E4 S4]] | E4]]; rewrite E4 in H
    end.
    + cbn [fst snd] in H. destruct b.
      * rewrite lift_unfold, print_none in H by exact S4. injection H as _ <-. exact I.
      * cbv beta iota delta [mret IO_ret io_ret PyM_ret ret] in H. injection H as _ <-. exact I.
    + injection H as _ <-. right. right. right. reflexivity.
  - rewrite lift_unfold, mbind_unfold, print_none in H by exact S3.
    injection H as _ <-. right. right. left. reflexivity.
Qed.

(* ------------------------------------------------------------------ *)
(** ** The bound on the rounds of the [configure_passes] loops *)

Lemma reads_prefix_lift {A} (m : PyM A) : reads_prefix (lift m).
Proof.
  intros inp w w' a rest. rewrite lift_unfold. destruct (m w) as [w1 [b|e]]; [|discriminate].
  intros [= _ _ <-]. exists []. reflexivity.
Qed.

Lemma reads_prefix_ret {A} (a : A) : reads_prefix (mret a).
Proof. intros inp w w' b rest [= _ _ <-]. exists []. reflexivity. Qed.

Lemma input_reads_one p inp w w' l rest :
  input p inp w = (w', Ok (l, rest)) -> inp = l :: rest.
Proof.
  unfold input. rewrite mbind_unfold. destruct (print p w) as [w1 [u|e]]; [|discriminate].
  destruct inp as [|x r]; [discriminate|]. intros [= _ <- <-]. reflexivity.
Qed.

Lemma reads_prefix_input p : reads_prefix (input p).
Proof. intros inp w w' l rest H. apply input_reads_one in H as ->. exists [l]. reflexivity. Qed.

Lemma reads_prefix_bind {A B} (m : IO A) (k : A -> IO B) :
  reads_prefix m -> (forall a, reads_prefix (k a)) -> reads_prefix (m ≫= k).
Proof.
  intros Hm Hk inp w w' b rest. rewrite io_bind_unfold.
  destruct (m inp w) as [w1 [[a r1]|e]] eqn:E; [|discriminate]. cbn [fst snd].
  intros H. destruct (Hm _ _ _ _ _ E) as [p1 ->]. destruct (Hk _ _ _ _ _ _ H) as [p2 ->].
  exists (p1 ++ p2). now rewrite app_assoc.
Qed.

Lemma reads_prefix_read_content pt : reads_prefix (read_content pt).
Proof.
  unfold read_content.
  destruct (String.eqb pt "string");
    [apply reads_prefix_bind; [apply reads_prefix_input | intros; apply reads_prefix_ret]|].
  destruct (String.eqb pt "file"); [|apply reads_prefix_ret].
  apply reads_prefix_bind; [apply reads_prefix_input | intros s].
  apply reads_prefix_bind; [apply reads_prefix_lift | intros [|]]; [apply reads_prefix_ret|].
  apply reads_prefix_bind; [apply reads_prefix_lift | intros; apply reads_prefix_ret].
Qed.

Lemma io_bind_ext {A B} (m : IO A) (k1 k2 : A -> IO B) inp (P : list string -> Prop) :
  (forall w w' a rest, m inp w = (w', Ok (a, rest)) -> P rest) ->
  (forall a rest w, P rest -> k1 a rest w = k2 a rest w) ->
  forall w, (m ≫= k1) inp w = (m ≫= k2) inp w.
Proof.
  intros Hm Hk w. rewrite !io_bind_unfold.
  destruct (m inp w) as [w1 [[a r1]|e]] eqn:E; [|reflexivity].
  cbn [fst snd]. apply Hk. exact (Hm _ _ _ _ E).
Qed.

Lemma input_length p inp n :
  (length inp <= S n)%nat ->
  forall w w' a rest, input p inp w = (w', Ok (a, rest)) -> (length rest <= n)%nat.
Proof.
  intros Hn w w' a rest H. apply input_reads_one in H as ->. cbn in Hn. lia.
Qed.

(** The fuel of [configure_loop]: any amount above the number of input
    lines gives the same result, each round reading at least one line. *)
Lemma configure_loop_fuel f1 f2 ps inp w :
  (length inp <= f1)%nat -> (length inp <= f2)%nat ->
  configure_loop (S f1) ps inp w = configure_loop (S f2) ps inp w.
Proof.
  revert f2 ps inp w. induction f1 as [|f1 IH]; intros f2 ps inp w H1 H2.
  - destruct inp; [|cbn in H1; lia]. cbn [configure_loop].
    apply (io_bind_ext _ _ _ _ (fun rest => rest = [])).
    { intros w0 w' a rest E. apply (reads_prefix_lift _ _ _ _ _ _) in E as [pre E].
      now destruct pre, rest. }
    intros _ rest w0 ->.
    apply (io_bind_ext _ _ _ _ (fun _ => False)); [|contradiction].
    intros w1 w' a rest E. now apply input_reads_one in E.
  - destruct f2 as [|f2].
    { destruct inp; [|cbn in H2; lia]. symmetry.
      cbn [configure_loop].
      apply (io_bind_ext _ _ _ _ (fun rest => rest = [])).
      { intros w0 w' a rest E. apply (reads_prefix_lift _ _ _ _ _ _) in E as [pre E].
        now destruct pre, rest. }
      intros _ rest w0 ->.
      apply (io_bind_ext _ _ _ _ (fun _ => False)); [|contradiction].
      intros w1 w' a rest E. now apply input_reads_one in E. }
    cbn [configure_loop].
    apply (io_bind_ext _ _ _ _ (fun rest => length rest <= S f1 /\ length rest <= S f2)%nat).
    { intros w0 w' a rest E. destruct (reads_prefix_lift _ _ _ _ _ _ E) as [pre ->].
      rewrite length_app in H1, H2. lia. }
    intros _ inp0 w0 [L1 L2].
    apply (io_bind_ext _ _ _ _ (fun rest => length rest <= f1 /\ length rest <= f2)%nat).
    { intros w1 w' a rest E. split; eapply input_length; eassumption. }
    intros c inp1 w1 [M1 M2].
    destruct (String.eqb _ "done"); [reflexivity|].
    destruct (pass_type_of _) as [pt|].
    2: { apply (io_bind_ext _ _ _ _ (fun rest => length rest <= f1 /\ length rest <= f2)%nat).
         { intros w2 w' a rest E. destruct (reads_prefix_lift _ _ _ _ _ _ E) as [pre ->].
           rewrite length_app in M1, M2. lia. }
         intros _ rest w2 [N1 N2]. now apply IH. }
    apply (io_bind_ext _ _ _ _ (fun rest => length rest <= f1 /\ length rest <= f2)%nat).
    { intros w2 w' a rest E. destruct (reads_prefix_read_content _ _ _ _ _ _ E) as [pre ->].
      rewrite length_app in M1, M2. lia. }
    intros [content|] inp2 w2 [N1 N2]; [|now apply IH].
    apply (io_bind_ext _ _ _ _ (fun rest => length rest <= f1 /\ length rest <= f2)%nat).
    { intros w3 w' a rest E. apply input_reads_one in E as ->. cbn in N1, N2. lia. }
    intros bs inp3 w3 [O1 O2].
    apply (io_bind_ext _ _ _ _ (fun rest => length rest <= f1 /\ length rest <= f2)%nat).
    { intros w4 w' a rest E. apply input_reads_one in E as ->. cbn in O1, O2. lia. }
    intros cnt inp4 w4 [P1 P2]. cbv beta zeta.
    apply (io_bind_ext _ _ _ _ (fun rest => length rest <= f1 /\ length rest <= f2)%nat).
    { intros w5 w' a rest E. destruct (reads_prefix_lift _ _ _ _ _ _ E) as [pre ->].
      rewrite length_app in P1, P2. lia. }
    intros _ rest w5 [Q1 Q2]. now apply IH.
Qed.

(** The fuel of [configure_loop_p]: any amount above the number of input
    lines gives the same result, each round reading at least one line. *)
Lemma configure_loop_p_fuel d f1 f2 ps inp w :
  (length inp <= f1)%nat -> (length inp <= f2)%nat ->
  configure_loop_p d (S f1) ps inp w = configure_loop_p d (S f2) ps inp w.
Proof.
  revert f2 ps inp w. induction f1 as [|f1 IH]; intros f2 ps inp w H1 H2.
  - destruct inp; [|cbn in H1; lia]. cbn [configure_loop_p].
    apply (io_bind_ext _ _ _ _ (fun rest => rest = [])).
    { intros w0 w' a rest E. apply (reads_prefix_lift _ _ _ _ _ _) in E as [pre E].
      now destruct pre, rest. }
    intros _ rest w0 ->.
    apply (io_bind_ext _ _ _ _ (fun _ => False)); [|contradiction].
    intros w1 w' a rest E. now apply input_reads_one in E.
  - destruct f2 as [|f2].
    { destruct inp; [|cbn in H2; lia]. symmetry.
      cbn [configure_loop_p].
      apply (io_bind_ext _ _ _ _ (fun rest => rest = [])).
      { intros w0 w' a rest E. apply (reads_prefix_lift _ _ _ _ _ _) in E as [pre E].
        now destruct pre, rest. }
      intros _ rest w0 ->.
      apply (io_bind_ext _ _ _ _ (fun _ => False)); [|contradiction].
      intros w1 w' a rest E. now apply input_reads_one in E. }
    cbn [configure_loop_p].
    apply (io_bind_ext _ _ _ _ (fun rest => length rest <= S f1 /\ length rest <= S f2)%nat).
    { intros w0 w' a rest E. destruct (reads_prefix_lift _ _ _ _ _ _ E) as [pre ->].
      rewrite length_app in H1, H2. lia. }
    intros _ inp0 w0 [L1 L2].
    apply (io_bind_ext _ _ _ _ (fun rest => length rest <= f1 /\ length rest <= f2)%nat).
    { intros w1 w' a rest E. split; eapply input_length; eassumption. }
    intros c inp1 w1 [M1 M2].
    destruct (_ || _); [reflexivity|].
    destruct (pass_type_of _) as [pt|].
    2: { apply (io_bind_ext _ _ _ _ (fun rest => length rest <= f1 /\ length rest <= f2)%nat).
         { intros w2 w' a rest E. destruct (reads_prefix_lift _ _ _ _ _ _ E) as [pre ->].
           rewrite length_app in M1, M2. lia. }
         intros _ rest w2 [N1 N2]. now apply IH. }
    apply (io_bind_ext _ _ _ _ (fun rest => length rest <= f1 /\ length rest <= f2)%nat).
    { intros w2 w' a rest E. destruct (reads_prefix_read_content _ _ _ _ _ _ E) as [pre ->].
      rewrite length_app in M1, M2. lia. }
    intros [content|] inp2 w2 [N1 N2]; [|now apply IH].
    apply (io_bind_ext _ _ _ _ (fun rest => length rest <= f1 /\ length rest <= f2)%nat).
    { intros w3 w' a rest E. apply input_reads_one in E as ->. cbn in N1, N2. lia. }
    intros l inp3 w3 [O1 O2].
    apply (io_bind_ext _ _ _ _ (fun rest => length rest <= f1 /\ length rest <= f2)%nat).
    { intros w4 w' a rest E. destruct (reads_prefix_lift _ _ _ _ _ _ E) as [pre ->].
      rewrite length_app in O1, O2. lia. }
    intros bc inp4 w4 [P1 P2]. cbv beta zeta.
    apply (io_bind_ext _ _ _ _ (fun rest => length rest <= f1 /\ length rest <= f2)%nat).
    { intros w5 w' a rest E. destruct (reads_prefix_lift _ _ _ _ _ _ E) as [pre ->].
      rewrite length_app in P1, P2. lia. }
    intros _ rest w5 [Q1 Q2]. now apply IH.
Qed.

(* ------------------------------------------------------------------ *)
(** ** Summaries of the two [configure_passes] and of diskprep.py's [main] *)

(** diskprep.py's [configure_passes], without an interrupt, either raises
    [EOFError] (the input ran out) or returns passes that are each well
    formed for the files present, having read up to and including a line
    that reads "done" once stripped and lower-cased. *)
Theorem configure_passes_outcome inp w w' r :
  sigint w = None -> configure_passes inp w = (w', r) ->
  match r with
  | Ok (ps, rest) =>
      Forall (configured_pass (files w)) ps /\
      exists pre l, inp = pre ++ l :: rest /\ lower (strip l) = "done"%string
  | Exc e => e = EOFError
  end.
Proof. intros Hs H. exact (configure_passes_spec inp w w' r Hs H). Qed.

(** disk_puri.py's [configure_passes(device)], without an interrupt, either
    raises [EOFError] or a [ValueError], or returns well-formed passes read
    up to a line "start" or "loop", with loop mode set exactly for "loop". *)
Theorem configure_passes_p_outcome d inp w w' r :
  sigint w = None -> configure_passes_p d inp w = (w', r) ->
  match r with
  | Ok ((ps, lm), rest) =>
      Forall (configured_pass (files w)) ps /\
      exists pre l, inp = pre ++ l :: rest /\
        (lower (strip l) = "start"%string \/ lower (strip l) = "loop"%string) /\
        lm = String.eqb (lower (strip l)) "loop"
  | Exc e => e = EOFError \/ exists msg, e = ValueError msg
  end.
Proof. intros Hs H. exact (configure_passes_p_spec d inp w w' r Hs H). Qed.

(** diskprep.py's [main] run as root touches the disk only after the
    answer "y": either it stops with [EOFError] or [SystemExit(1)] having
    only printed, or the answer was "y" and the rest of the run is
    [run_schema] on well-formed passes from an unchanged file system. *)
Theorem main_runs_only_confirmed_schema writer inp w w' r :
  sigint w = None -> main writer 0 inp w = (w', r) ->
  (files w' = files w /\ temp_files w' = temp_files w /\
   (exists evs, trace w' = trace w ++ evs /\ Forall (fun e => exists s, e = Out s) evs) /\
   (r = Exc EOFError \/ r = Exc (SystemExit 1))) \/
  (exists device ps proceed rest w1 r1,
     lower (strip proceed) = "y"%string /\
     Forall (configured_pass (files w)) ps /\
     files w1 = files w /\ temp_files w1 = temp_files w /\ sigint w1 = None /\
     run_schema writer ps device w1 = (w', r1) /\
     r = match r1 with Ok u => Ok (u, rest) | Exc e => Exc e end).
Proof. intros Hs H. exact (main_gate writer inp w w' r Hs H). Qed.

(* ------------------------------------------------------------------ *)
(** ** Instances of the hypotheses *)

Lemma disk_full_writer_ends : writer_ends disk_full_writer.
Proof.
  intros c _. exists ["1+0 records in"%string], "dd: error writing '/dev/sdb': No space left on device"%string,
    ["1+0 records out"%string], 1%Z.
  split; reflexivity.
Qed.

Lemma run_schema_completes_witness :
  exists w', run_schema disk_full_writer [ones_pass; zeros_pass] sdb (fresh_world ∅ None) = (w', Ok tt) /\
    last (trace w') = Some (Out "Disk preparation completed."%string) /\
    temp_files w' = temp_files (fresh_world ∅ None) ++
                    flat_map (fun pi => registered_by (p_type pi)) [ones_pass; zeros_pass].
Proof.
  apply (run_schema_completes disk_full_writer [ones_pass; zeros_pass] sdb (fresh_world ∅ None));
    [apply disk_full_writer_ends | reflexivity | repeat constructor].
Defined.

Lemma string_buffer_size_witness :
  let c := "ab"%string in
  files (fst (path_source "string" sdb "1M" None (Some c) (fresh_world ∅ None)))
    !! string_tmp = Some (string_blob c) /\
  blob_size (string_blob c) = (256 * (N.of_nat (String.length c) *
                                      (1024 * 1024 / N.of_nat (String.length c))))%N /\
  (blob_size (string_blob c) <= 256 * 1024 * 1024)%N /\
  (blob_size (string_blob c) = 256 * 1024 * 1024 <->
   (1024 * 1024) mod N.of_nat (String.length c) = 0)%N.
Proof.
  intros c. apply (string_buffer_size sdb "1M" None c (fresh_world ∅ None));
    [reflexivity | reflexivity | discriminate | repeat constructor; vm_compute; lia].
Defined.

Lemma configure_passes_only_prints_witness :
  let inp := ["r"; ""; ""; "done"]%string in
  let res := configure_passes inp (fresh_world ∅ None) in
  files (fst res) = files (fresh_world ∅ None) /\
  temp_files (fst res) = temp_files (fresh_world ∅ None) /\
  exists evs, trace (fst res) = trace (fresh_world ∅ None) ++ evs /\
              Forall (fun e => exists s, e = Out s) evs.
Proof.
  intros inp res. apply (configure_passes_only_prints inp (fresh_world ∅ None) (fst res) (snd res));
    [reflexivity | apply surjective_pairing].
Defined.

Lemma configure_passes_outcome_witness :
  let inp := ["r"; ""; ""; "done"]%string in
  let res := configure_passes inp (fresh_world ∅ None) in
  match snd res with
  | Ok (ps, rest) =>
      Forall (configured_pass (files (fresh_world ∅ None))) ps /\
      exists pre l, inp = pre ++ l :: rest /\ lower (strip l) = "done"%string
  | Exc e => e = EOFError
  end.
Proof.
  intros inp res. apply (configure_passes_outcome inp (fresh_world ∅ None) (fst res) (snd res));
    [reflexivity | apply surjective_pairing].
Defined.

Lemma configure_passes_p_only_prints_witness :
  let inp := ["z"; "4M 10"; "start"]%string in
  let res := configure_passes_p sdb inp (fresh_world ∅ None) in
  files (fst res) = files (fresh_world ∅ None) /\
  temp_files (fst res) = temp_files (fresh_world ∅ None) /\
  exists evs, trace (fst res) = trace (fresh_world ∅ None) ++ evs /\ Forall out_or_clear evs.
Proof.
  intros inp res.
  apply (configure_passes_p_only_prints sdb inp (fresh_world ∅ None) (fst res) (snd res));
    [reflexivity | apply surjective_pairing].
Defined.

Lemma configure_passes_p_outcome_witness :
  let inp := ["z"; "4M 10"; "start"]%string in
  let res := configure_passes_p sdb inp (fresh_world ∅ None) in
  match snd res with
  | Ok ((ps, lm), rest) =>
      Forall (configured_pass (files (fresh_world ∅ None))) ps /\
      exists pre l, inp = pre ++ l :: rest /\
        (lower (strip l) = "start"%string \/ lower (strip l) = "loop"%string) /\
        lm = String.eqb (lower (strip l)) "loop"
  | Exc e => e = EOFError \/ exists msg, e = ValueError msg
  end.
Proof.
  intros inp res.
  apply (configure_passes_p_outcome sdb inp (fresh_world ∅ None) (fst res) (snd res));
    [reflexivity | apply surjective_pairing].
Defined.

Lemma configure_loop_p_block_line_value_error_witness :
  exists w' msg, configure_loop_p sdb 3 [ones_pass] ["r"; "4M 10 x"]%string (fresh_world ∅ None) =
                   (w', Exc (ValueError msg)).
Proof.
  apply (configure_loop_p_block_line_value_error sdb 2 [ones_pass] "r" "4M 10 x" []
           (fresh_world ∅ None));
    [reflexivity | left; reflexivity | vm_compute; congruence | vm_compute; congruence].
Defined.

Lemma main_requires_root_witness :
  main quiet_writer 1000 [sdb] (fresh_world ∅ None) =
    (add_trace (fresh_world ∅ None)
       [Out "Multi-Pass Disk Preparation Script";
        Out "This script requires elevated privileges. Please run with sudo."],
     Exc (SystemExit 1)) /\
  main_p quiet_writer 1000 1 [sdb] (fresh_world ∅ None) =
    (add_trace (fresh_world ∅ None)
       [Spawn (sh_argv "clear"); Out ("Multi-Pass Disk Preparation Script" ++ nl)%string;
        Out "This script requires elevated privileges. Please run with sudo."],
     Exc (SystemExit 1)).
Proof.
  apply (main_requires_root quiet_writer 1000 1 [sdb] (fresh_world ∅ None)); [reflexivity | lia].
Defined.

Lemma main_runs_only_confirmed_schema_witness :
  let inp := ["/dev/sdb"; "z"; ""; ""; "done"; "y"]%string in
  let w := fresh_world ∅ None in
  let res := main quiet_writer 0 inp w in
  (files (fst res) = files w /\ temp_files (fst res) = temp_files w /\
   (exists evs, trace (fst res) = trace w ++ evs /\ Forall (fun e => exists s, e = Out s) evs) /\
   (snd res = Exc EOFError \/ snd res = Exc (SystemExit 1))) \/
  (exists device ps proceed rest w1 r1,
     lower (strip proceed) = "y"%string /\
     Forall (configured_pass (files w)) ps /\
     files w1 = files w /\ temp_files w1 = temp_files w /\ sigint w1 = None /\
     run_schema quiet_writer ps device w1 = (fst res, r1) /\
     snd res = match r1 with Ok u => Ok (u, rest) | Exc e => Exc e end).
Proof.
  intros inp w res.
  apply (main_runs_only_confirmed_schema quiet_writer inp w (fst res) (snd res));
    [reflexivity | apply surjective_pairing].
Defined.

Lemma main_outcomes_witness :
  let inp := ["/dev/sdb"; "z"; ""; ""; "done"; "y"]%string in
  let res := main quiet_writer 0 inp (fresh_world ∅ None) in
  match snd res with
  | Ok _ => last (trace (fst res)) = Some (Out "Disk preparation completed."%string)
  | Exc e => e = EOFError \/ e = SystemExit 1 \/ e = ZeroDivisionError
  end.
Proof.
  intros inp res. apply (main_outcomes quiet_writer inp (fresh_world ∅ None) (fst res) (snd res));
    [reflexivity | apply surjective_pairing].
Defined.

Lemma main_p_outcomes_witness :
  let inp := ["/dev/sdb"; "z"; ""; "loop"; "y"]%string in
  let res := main_p quiet_writer 0 2 inp (fresh_world ∅ None) in
  match snd res with
  | Ok _ => True
  | Exc e => e = EOFError \/ (exists msg, e = ValueError msg) \/ e = SystemExit 1 \/
             e = ZeroDivisionError
  end.
Proof.
  intros inp res. apply (main_p_outcomes quiet_writer 2 inp (fresh_world ∅ None) (fst res) (snd res));
    [reflexivity | apply surjective_pairing].
Defined.

Lemma execute_command_p_output_witness :
  let command := "dd if=/dev/zero of=/dev/sdb bs=1M status=progress"%string in
  execute_command_p disk_full_writer command (fresh_world ∅ None) =
    (add_trace (fresh_world ∅ None)
       ([Spawn (sh_argv command)] ++ map Out ["1+0 records in"%string] ++
        [Out disk_full_msg; Terminate (sh_argv command)] ++ [Wait (sh_argv command) 1%Z]),
     Ok tt).
Proof.
  intros command.
  apply (execute_command_p_output disk_full_writer command (fresh_world ∅ None)
           ["1+0 records in"%string]
           ["dd: error writing '/dev/sdb': No space left on device"%string; "1+0 records out"%string]
           1%Z);
    [reflexivity | reflexivity | repeat constructor
    | right; do 2 eexists; split; reflexivity | intros _; discriminate].
Defined.

Lemma run_rounds_loop_mode_witness :
  exists w', run_rounds disk_full_writer 2 [ones_pass; zeros_pass] sdb true (fresh_world ∅ None) =
               (w', Ok false) /\
    temp_files w' = temp_files (fresh_world ∅ None) ++
      concat (repeat (flat_map (fun pi => registered_by (p_type pi)) [ones_pass; zeros_pass]) 2).
Proof.
  apply (run_rounds_loop_mode disk_full_writer [ones_pass; zeros_pass] sdb (fresh_world ∅ None) 2);
    [apply disk_full_writer_ends | reflexivity | repeat constructor].
Defined.

Lemma run_rounds_once_mode_witness :
  exists w', run_rounds disk_full_writer 3 [ones_pass; zeros_pass] sdb false (fresh_world ∅ None) =
               (w', Ok true) /\
    temp_files w' = temp_files (fresh_world ∅ None) ++
      flat_map (fun pi => registered_by (p_type pi)) [ones_pass; zeros_pass].
Proof.
  apply (run_rounds_once_mode disk_full_writer [ones_pass; zeros_pass] sdb (fresh_world ∅ None) 2);
    [apply disk_full_writer_ends | reflexivity | repeat constructor].
Defined.
